(** * MagTag e-paper stack: SSD1680 driver, frame buffer and text renderer

    A shallow embedding of the Python sources under [modules/]:
    - [drivers/state.py]      -> [Module State]
    - [hardware/spi.py]       -> [Module Spi]
    - [drivers/ssd1680.py]    -> [Module Ssd1680]
    - [buffer/framebuffer.py],
      [buffer/draw.py]        -> [Module Buffer]
    - [text/renderer.py],
      [text/bf2.py]           -> [Module Text]

    Python integers are unbounded, so they are [Z]; a [bytes] or
    [bytearray] value is a [list Z] whose elements are bytes.  A Python
    exception aborts the running call but keeps the mutations made so
    far, so effectful code runs in a state monad whose result is either
    a value or the raised exception. *)

From Stdlib Require Import ZArith QArith Lia List Bool.
From stdpp Require Import base option list gmap.
Import ListNotations.

Local Open Scope Z_scope.

(** ** Python values shared by all modules *)

Module Py.

(** The built-in exceptions the modelled code can raise. *)
Inductive exn :=
| ValueError | RuntimeError | IndexError | KeyError | ZeroDivisionError.

Inductive result (A : Type) :=
| Ok (a : A)
| Raise (e : exn).
Arguments Ok {A} a.
Arguments Raise {A} e.

Definition is_ok {A} (r : result A) : bool :=
  match r with Ok _ => true | Raise _ => false end.

(** A value that fits one element of a [bytearray]. *)
Definition is_byte (b : Z) : bool := (0 <=? b) && (b <=? 255).

Definition len {A} (l : list A) : Z := Z.of_nat (length l).

(** Truth value of a sequence: empty is false. *)
Definition truthy {A} (l : list A) : bool :=
  match l with [] => false | _ :: _ => true end.

(** Truth value of [x] where [x] is [None] or a sequence. *)
Definition truthy_opt {A} (o : option (list A)) : bool :=
  match o with Some l => truthy l | None => false end.

(** [v or d] for an optional integer: [None] and [0] are false. *)
Definition int_or (v : option Z) (d : Z) : Z :=
  match v with
  | Some n => if n =? 0 then d else n
  | None => d
  end.

(** Slice bounds as Python normalises them for a sequence of length
    [n]: a negative bound counts from the end, then both are clamped
    into [0, n]. *)
Definition clamp (n i : Z) : Z :=
  if i <? 0 then Z.max 0 (i + n) else Z.min i n.

(** [l[a:b]] *)
Definition slice {A} (l : list A) (a b : Z) : list A :=
  let s := clamp (len l) a in
  let e := clamp (len l) b in
  take (Z.to_nat (e - s)) (drop (Z.to_nat s) l).

(** [l[a:b] = v] on a [bytearray]: the slice is replaced by [v], the
    array grows or shrinks when the lengths differ. *)
Definition slice_set {A} (l : list A) (a b : Z) (v : list A) : list A :=
  let s := clamp (len l) a in
  let e := Z.max s (clamp (len l) b) in
  take (Z.to_nat s) l ++ v ++ drop (Z.to_nat e) l.

(** [l[i]] for an integer index: negative indices count from the end,
    anything else out of range raises [IndexError]. *)
Definition index {A} (l : list A) (i : Z) : result A :=
  let j := if i <? 0 then i + len l else i in
  if (0 <=? j) && (j <? len l)
  then match l !! Z.to_nat j with
       | Some a => Ok a
       | None => Raise IndexError
       end
  else Raise IndexError.

(** [l[i] = v] on a [bytearray]: the value is converted to a byte
    before the index is looked at. *)
Definition index_set (l : list Z) (i v : Z) : result (list Z) :=
  let j := if i <? 0 then i + len l else i in
  if negb (is_byte v) then Raise ValueError
  else if (0 <=? j) && (j <? len l) then Ok (<[Z.to_nat j := v]> l)
  else Raise IndexError.

(** [range(a, b)] *)
Definition range (a b : Z) : list Z :=
  map (fun k => a + Z.of_nat k) (seq 0 (Z.to_nat (b - a))).

(** [range(0, n, 2)] *)
Definition range_by_2 (n : Z) : list Z :=
  map (fun k => 2 * Z.of_nat k) (seq 0 (Z.to_nat ((n + 1) / 2))).

(** [a // b] *)
Definition floordiv (a b : Z) : result Z :=
  if b =? 0 then Raise ZeroDivisionError else Ok (a / b).

(** Truth value of an integer. *)
Definition nonzero (n : Z) : bool := negb (n =? 0).

(** [bytearray(n)] *)
Definition bytearray (n : Z) : result (list Z) :=
  if n <? 0 then Raise ValueError else Ok (repeat 0 (Z.to_nat n)).

(** [bytes([b]) * n] *)
Definition bytes_times (b : Z) (n : nat) : result (list Z) :=
  if is_byte b then Ok (repeat b n) else Raise ValueError.

(** Sequencing of plain results. *)
Definition and_then {A B} (r : result A) (k : A -> result B) : result B :=
  match r with Ok a => k a | Raise e => Raise e end.

(** A test that holds of every byte value. *)
Definition all_bytes (P : Z -> bool) : bool := forallb P (range 0 256).

End Py.
Export Py.

(** ** drivers/state.py *)

Module State.

(** [class DisplayState] *)
Inductive DisplayState := UNINITIALIZED | READY | UPDATING | SLEEPING.

Definition DisplayState_eqb (a b : DisplayState) : bool :=
  match a, b with
  | UNINITIALIZED, UNINITIALIZED | READY, READY
  | UPDATING, UPDATING | SLEEPING, SLEEPING => true
  | _, _ => false
  end.

(** [class DriverState] *)
Record DriverState := mkDriverState {
  state : DisplayState;
  has_basemap : bool;
  partial_count : Z;
  partial_threshold : Z;
  in_partial_mode : bool;
  is_initial : bool;
}.

(** [DriverState()] with the constructor's defaults. *)
Definition init : DriverState :=
  {| state := UNINITIALIZED; has_basemap := false; partial_count := 0;
     partial_threshold := 10; in_partial_mode := false;
     is_initial := true |}.

Definition set_state (v : DisplayState) (s : DriverState) :=
  mkDriverState v (has_basemap s) (partial_count s) (partial_threshold s)
                (in_partial_mode s) (is_initial s).
Definition set_has_basemap (v : bool) (s : DriverState) :=
  mkDriverState (state s) v (partial_count s) (partial_threshold s)
                (in_partial_mode s) (is_initial s).
Definition set_partial_count (v : Z) (s : DriverState) :=
  mkDriverState (state s) (has_basemap s) v (partial_threshold s)
                (in_partial_mode s) (is_initial s).
Definition set_partial_threshold (v : Z) (s : DriverState) :=
  mkDriverState (state s) (has_basemap s) (partial_count s) v
                (in_partial_mode s) (is_initial s).
Definition set_in_partial_mode (v : bool) (s : DriverState) :=
  mkDriverState (state s) (has_basemap s) (partial_count s)
                (partial_threshold s) v (is_initial s).
Definition set_is_initial (v : bool) (s : DriverState) :=
  mkDriverState (state s) (has_basemap s) (partial_count s)
                (partial_threshold s) (in_partial_mode s) v.

Definition reset (s : DriverState) : DriverState :=
  set_in_partial_mode false (set_state UNINITIALIZED s).

Definition on_init_complete (s : DriverState) : DriverState :=
  set_state READY s.

Definition on_full_refresh_complete (s : DriverState) : DriverState :=
  set_in_partial_mode false
    (set_partial_count 0
       (set_is_initial false (set_has_basemap true (set_state READY s)))).

Definition on_partial_refresh_complete (s : DriverState) : DriverState :=
  set_partial_count (partial_count s + 1) (set_state READY s).

Definition on_sleep (retain_ram : bool) (s : DriverState) : DriverState :=
  let s' := set_in_partial_mode false (set_state SLEEPING s) in
  if negb retain_ram then set_has_basemap false s' else s'.

Definition on_wake (s : DriverState) : DriverState :=
  set_in_partial_mode false (set_state UNINITIALIZED s).

Definition needs_full_refresh (s : DriverState) : bool :=
  is_initial s
  || negb (has_basemap s)
  || ((0 <? partial_threshold s)
      && (partial_threshold s <=? partial_count s)).

Definition can_partial_refresh (s : DriverState) : bool :=
  has_basemap s && negb (is_initial s).

Definition is_sleeping (s : DriverState) : bool :=
  DisplayState_eqb (state s) SLEEPING.
Definition is_ready (s : DriverState) : bool :=
  DisplayState_eqb (state s) READY.
Definition is_updating (s : DriverState) : bool :=
  DisplayState_eqb (state s) UPDATING.

(** One mutation of a [DriverState]: a call of one of its transition
    methods, an assignment through the counter properties of the
    driver, or the assignment [has_basemap = False] made by
    [display_lut]. *)
Inductive step : DriverState -> DriverState -> Prop :=
| step_reset s : step s (reset s)
| step_init_complete s : step s (on_init_complete s)
| step_full_refresh s : step s (on_full_refresh_complete s)
| step_partial_refresh s : step s (on_partial_refresh_complete s)
| step_sleep r s : step s (on_sleep r s)
| step_wake s : step s (on_wake s)
| step_clear_basemap s : step s (set_has_basemap false s)
| step_set_count v s : step s (set_partial_count v s)
| step_set_threshold v s : step s (set_partial_threshold v s).

Definition reachable (s : DriverState) : Prop := rtc step init s.

(** The invariant behind [can_partial_refresh]. *)
Definition basemap_not_initial (s : DriverState) : Prop :=
  has_basemap s = true -> is_initial s = false.

End State.


(** ** Effects: state, exceptions and an event log *)

Module Eff.

(** A computation over a mutable object of type [S] that may raise and
    that leaves a log of events of type [E] (bytes on the wire for the
    driver, byte accesses for a frame buffer).  When an exception is
    raised the state and the log are those reached at that moment. *)
Definition M (E S A : Type) : Type := S -> result A * S * list E.

Definition ret {E S A} (a : A) : M E S A := fun s => (Ok a, s, []).

Definition raise {E S A} (e : exn) : M E S A := fun s => (Raise e, s, []).

Definition bind {E S A B} (m : M E S A) (k : A -> M E S B) : M E S B :=
  fun s =>
    match m s with
    | (Ok a, s1, t1) =>
        match k a s1 with
        | (r, s2, t2) => (r, s2, t1 ++ t2)
        end
    | (Raise e, s1, t1) => (Raise e, s1, t1)
    end.

Definition get {E S} : M E S S := fun s => (Ok s, s, []).
Definition gets {E S A} (f : S -> A) : M E S A := fun s => (Ok (f s), s, []).
Definition modify {E S} (f : S -> S) : M E S unit := fun s => (Ok tt, f s, []).
Definition emit {E S} (e : E) : M E S unit := fun s => (Ok tt, s, [e]).

(** Lift a value-or-exception into a computation. *)
Definition of_result {E S A} (r : result A) : M E S A :=
  match r with Ok a => ret a | Raise e => raise e end.

(** [for x in l: body(x)] *)
Fixpoint for_each {E S A} (l : list A) (body : A -> M E S unit) : M E S unit :=
  match l with
  | [] => ret tt
  | x :: l' => bind (body x) (fun _ => for_each l' body)
  end.

Definition result_of {E S A} (o : result A * S * list E) : result A := o.1.1.
Definition final {E S A} (o : result A * S * list E) : S := o.1.2.
Definition log {E S A} (o : result A * S * list E) : list E := o.2.

End Eff.
Export Eff.

Declare Scope eff_scope.
Delimit Scope eff_scope with eff.
Notation "x <- c1 ;; c2" := (bind c1 (fun x => c2))
  (at level 100, c1 at next level, c2 at level 200, right associativity)
  : eff_scope.
Notation "c1 ;; c2" := (bind c1 (fun _ => c2))
  (at level 100, c2 at level 200, right associativity) : eff_scope.
Open Scope eff_scope.

(** ** hardware/spi.py *)

Module Spi.

(** What the controller sees on its pins: a command byte (D/C low), a
    run of data bytes (D/C high), or a pulse on the reset line. *)
Inductive wire_event :=
| WCmd (c : Z)
| WData (bs : list Z)
| WReset.

(** The [data] argument of [write_command]. *)
Inductive payload :=
| NoData
| IntData (b : Z)
| SeqData (l : list Z)
| BytesData (l : list Z).

(** The transport.  [has_miso] says whether the bus can read; [rx] are
    the bytes the controller will shift out on the coming reads.  The
    BUSY line is an input driven by the controller in real time: it is
    taken to be low whenever it is sampled, so [wait_ready] returns at
    once and never raises its timeout. *)
Record SPIDevice := mkSPIDevice {
  has_miso : bool;
  rx : list Z;
}.

Definition T := M wire_event SPIDevice.

(** [self._data_buf[i] = b] for the elements of a tuple, [_data_buf]
    being a [bytearray(4)]: the value is converted to a byte before the
    index is looked at. *)
Fixpoint fill_data_buf (i : Z) (l : list Z) : result unit :=
  match l with
  | [] => Ok tt
  | b :: l' =>
      if negb (is_byte b) then Raise ValueError
      else if 4 <=? i then Raise IndexError
      else fill_data_buf (i + 1) l'
  end.

Definition write_command (cmd : Z) (data : payload) : T unit :=
  (if is_byte cmd then ret tt else raise ValueError) ;;
  emit (WCmd cmd) ;;
  match data with
  | NoData => ret tt
  | IntData b =>
      if is_byte b then emit (WData [b]) else raise ValueError
  | BytesData l => emit (WData l)
  | SeqData l =>
      of_result (fill_data_buf 0 l) ;;
      emit (WData l)
  end.

(** [spi.readinto(bytearray(n))]: the next [n] bytes from the
    controller, an idle line reading as zero. *)
Definition readinto (n : nat) : T (list Z) := fun s =>
  (Ok (take n (rx s ++ repeat 0 n)),
   mkSPIDevice (has_miso s) (drop n (rx s)), []).

Definition read_data (cmd : Z) (length : Z) : T (list Z) :=
  m <- gets has_miso ;;
  if negb m then raise RuntimeError
  else
    (if is_byte cmd then ret tt else raise ValueError) ;;
    emit (WCmd cmd) ;;
    read_buf <- readinto (Z.to_nat (length + 1)) ;;
    ret (slice read_buf 1 (len read_buf)).

Definition hardware_reset : T unit := emit WReset.

(** BUSY is low at the first sample, so the wait ends at once and
    never times out.  The source returns the seconds read off the
    clock; the clock is not modelled: the value returned here stands
    for that duration and carries no information about it. *)
Definition wait_ready (timeout : Q) : T Q := ret 0%Q.

End Spi.

(** ** drivers/commands.py, drivers/sequences.py, drivers/lut.py *)

Module CMD.
Definition CMD_DRIVER_OUTPUT := 0x01.
Definition CMD_VGH := 0x03.
Definition CMD_VSH_VSL := 0x04.
Definition CMD_SOFT_START := 0x0C.
Definition CMD_DEEP_SLEEP := 0x10.
Definition CMD_DATA_ENTRY := 0x11.
Definition CMD_SW_RESET := 0x12.
Definition CMD_TEMP_SENSOR := 0x18.
Definition CMD_TEMP_READ := 0x1B.
Definition CMD_ACTIVATE := 0x20.
Definition CMD_UPDATE_CTRL1 := 0x21.
Definition CMD_UPDATE_CTRL2 := 0x22.
Definition CMD_RAM_BLACK := 0x24.
Definition CMD_RAM_RED := 0x26.
Definition CMD_VCOM := 0x2C.
Definition CMD_LUT := 0x32.
Definition CMD_BORDER := 0x3C.
Definition CMD_RAM_X := 0x44.
Definition CMD_RAM_Y := 0x45.
Definition CMD_RAM_X_CNT := 0x4E.
Definition CMD_RAM_Y_CNT := 0x4F.
Definition CMD_CRC_CALC := 0x34.
Definition CMD_CRC_STATUS := 0x35.
Definition CMD_AUTO_WRITE_RED := 0x46.
Definition CMD_AUTO_WRITE_BW := 0x47.
End CMD.

Module SEQ.
Definition SEQ_FULL := 0xF7.
Definition SEQ_CUSTOM_LUT := 0xC7.
Definition SEQ_PARTIAL := 0xFC.
Definition SEQ_POWER_ON := 0xE0.
Definition SEQ_POWER_OFF := 0x83.
Definition SEQ_LOAD_TEMP := 0xB1.
Definition SLEEP_MODE_1 := 0x01.
Definition SLEEP_MODE_2 := 0x03.
Definition DEFAULT_VGH := 0x17.
Definition DEFAULT_VSH1 := 0x41.
Definition DEFAULT_VSH2 := 0xA8.
Definition DEFAULT_VSL := 0x32.
Definition DEFAULT_VCOM := 0x50.
Definition TEMP_SENSOR_INTERNAL := 0x80.
Definition TEMP_MIN := 0.
Definition TEMP_MAX := 50.
Definition TIMEOUT_DEFAULT : Q := 10.
Definition TIMEOUT_FULL : Q := 5.
Definition TIMEOUT_PARTIAL : Q := 1.
Definition TIMEOUT_COMMAND : Q := 1 # 2.
Definition TIMEOUT_POWER : Q := 1 # 2.
Definition SOFT_START_DEFAULT := [0x8B; 0x9C; 0x96; 0x0F].
Definition BORDER_FULL := 0x05.
Definition BORDER_PARTIAL := 0x80.
Definition DATA_ENTRY_INC := 0x03.
End SEQ.

Module LUT.
Definition LUT_4GRAY : list Z :=
  [0x2a; 0x60; 0x15; 0x00; 0x00; 0x00; 0x00; 0x00; 0x00; 0x00; 0x00; 0x00]
  ++ [0x20; 0x60; 0x10; 0x00; 0x00; 0x00; 0x00; 0x00; 0x00; 0x00; 0x00; 0x00]
  ++ [0x28; 0x60; 0x14; 0x00; 0x00; 0x00; 0x00; 0x00; 0x00; 0x00; 0x00; 0x00]
  ++ [0x00; 0x60; 0x00; 0x00; 0x00; 0x00; 0x00; 0x00; 0x00; 0x00; 0x00; 0x00]
  ++ [0x00; 0x90; 0x00; 0x00; 0x00; 0x00; 0x00; 0x00; 0x00; 0x00; 0x00; 0x00]
  ++ [0x00; 0x02; 0x00; 0x05; 0x14; 0x00; 0x00]
  ++ [0x1e; 0x1e; 0x00; 0x00; 0x00; 0x00; 0x01]
  ++ [0x00; 0x02; 0x00; 0x05; 0x14; 0x00; 0x00]
  ++ [0x00; 0x00; 0x00; 0x00; 0x00; 0x00; 0x00]
  ++ [0x00; 0x00; 0x00; 0x00; 0x00; 0x00; 0x00]
  ++ [0x00; 0x00; 0x00; 0x00; 0x00; 0x00; 0x00]
  ++ [0x00; 0x00; 0x00; 0x00; 0x00; 0x00; 0x00]
  ++ [0x00; 0x00; 0x00; 0x00; 0x00; 0x00; 0x00]
  ++ [0x00; 0x00; 0x00; 0x00; 0x00; 0x00; 0x00]
  ++ [0x00; 0x00; 0x00; 0x00; 0x00; 0x00; 0x00]
  ++ [0x00; 0x00; 0x00; 0x00; 0x00; 0x00; 0x00]
  ++ [0x00; 0x00; 0x00; 0x00; 0x00; 0x00; 0x00]
  ++ [0x24; 0x22; 0x22; 0x22; 0x23; 0x32; 0x00; 0x00; 0x00].
Definition LUT_SIZE := 153.
End LUT.

(** ** drivers/ssd1680.py *)

Module Ssd1680.
Import State Spi CMD SEQ.

Definition WIDTH := 128.
Definition HEIGHT := 296.
Definition BUFFER_SIZE := 4736.

(** [class SSD1680]: the transport, the refresh state and the optional
    copy of the previous frame. *)
Record SSD1680 := mkSSD1680 {
  _spi : SPIDevice;
  _state : DriverState;
  _prev_buffer : option (list Z);
}.

Definition D := M wire_event SSD1680.

(** [SSD1680(spi, use_diff_buffer)] *)
Definition new (spi : SPIDevice) (use_diff_buffer : bool) : SSD1680 :=
  {| _spi := spi;
     _state := State.init;
     _prev_buffer :=
       if use_diff_buffer then Some (repeat 0 (Z.to_nat BUFFER_SIZE))
       else None |}.

(** A call on [self._spi]. *)
Definition spi {A} (m : Spi.T A) : D A := fun d =>
  match m (_spi d) with
  | (r, sp, t) => (r, mkSSD1680 sp (_state d) (_prev_buffer d), t)
  end.

(** A read of, and a call on, [self._state]. *)
Definition st {A} (f : DriverState -> A) : D A := gets (fun d => f (_state d)).
Definition st_do (f : DriverState -> DriverState) : D unit :=
  modify (fun d => mkSSD1680 (_spi d) (f (_state d)) (_prev_buffer d)).

Definition prev : D (option (list Z)) := gets _prev_buffer.
Definition set_prev (p : option (list Z)) : D unit :=
  modify (fun d => mkSSD1680 (_spi d) (_state d) p).

(** [if self._prev_buffer: self._prev_buffer[:] = data] *)
Definition store_prev (data : list Z) : D unit :=
  p <- prev ;;
  match p with
  | Some b => if truthy b then set_prev (Some (slice_set b 0 (len b) data))
              else ret tt
  | None => ret tt
  end.

Definition _power_on : D unit :=
  sl <- st is_sleeping ;;
  if sl then ret tt
  else
    spi (write_command CMD_UPDATE_CTRL2 (IntData SEQ_POWER_ON)) ;;
    spi (write_command CMD_ACTIVATE NoData) ;;
    spi (wait_ready TIMEOUT_POWER) ;;
    ret tt.

Definition _power_off : D unit :=
  sl <- st is_sleeping ;;
  if sl then ret tt
  else
    spi (write_command CMD_UPDATE_CTRL2 (IntData SEQ_POWER_OFF)) ;;
    spi (write_command CMD_ACTIVATE NoData) ;;
    spi (wait_ready TIMEOUT_POWER) ;;
    ret tt.

Definition sleep (retain_ram : bool) : D unit :=
  sl <- st is_sleeping ;;
  if sl then ret tt
  else
    _power_off ;;
    spi (write_command CMD_DEEP_SLEEP
           (IntData (if retain_ram then SLEEP_MODE_1 else SLEEP_MODE_2))) ;;
    st_do (on_sleep retain_ram).

Definition wake : D unit :=
  sl <- st is_sleeping ;;
  if negb sl then ret tt
  else
    spi hardware_reset ;;
    st_do on_wake.

Definition _init_full : D unit :=
  sl <- st is_sleeping ;;
  (if sl then spi hardware_reset ;; st_do on_wake else ret tt) ;;
  s <- st id ;;
  if DisplayState_eqb (state s) READY && negb (in_partial_mode s) then ret tt
  else
    spi (wait_ready TIMEOUT_COMMAND) ;;
    spi (write_command CMD_SW_RESET NoData) ;;
    spi (wait_ready TIMEOUT_COMMAND) ;;
    let h := HEIGHT - 1 in
    spi (write_command CMD_DRIVER_OUTPUT
           (SeqData [Z.land h 0xFF; Z.shiftr h 8; 0x00])) ;;
    spi (write_command CMD_DATA_ENTRY (IntData DATA_ENTRY_INC)) ;;
    spi (write_command CMD_RAM_X (SeqData [0x00; WIDTH / 8 - 1])) ;;
    spi (write_command CMD_RAM_Y
           (SeqData [0x00; 0x00; Z.land h 0xFF; Z.shiftr h 8])) ;;
    spi (write_command CMD_BORDER (IntData BORDER_FULL)) ;;
    spi (write_command CMD_UPDATE_CTRL1 (SeqData [0x00; 0x80])) ;;
    spi (write_command CMD_TEMP_SENSOR (IntData TEMP_SENSOR_INTERNAL)) ;;
    spi (write_command CMD_SOFT_START (SeqData SOFT_START_DEFAULT)) ;;
    spi (write_command CMD_RAM_X_CNT (IntData 0x00)) ;;
    spi (write_command CMD_RAM_Y_CNT (SeqData [0x00; 0x00])) ;;
    spi (wait_ready TIMEOUT_COMMAND) ;;
    st_do on_init_complete ;;
    st_do (set_in_partial_mode false).

Definition _set_window (x y : Z) (w h : option Z) : D unit :=
  let w := int_or w WIDTH in
  let h := int_or h HEIGHT in
  let x_bytes := Z.shiftr x 3 in
  let x_end := Z.shiftr (x + w - 1) 3 in
  let y_end := y + h - 1 in
  spi (write_command CMD_RAM_X (SeqData [x_bytes; x_end])) ;;
  spi (write_command CMD_RAM_Y
         (SeqData [Z.land y 0xFF; Z.shiftr y 8;
                   Z.land y_end 0xFF; Z.shiftr y_end 8])) ;;
  spi (write_command CMD_RAM_X_CNT (IntData x_bytes)) ;;
  spi (write_command CMD_RAM_Y_CNT (SeqData [Z.land y 0xFF; Z.shiftr y 8])).

Definition _init_partial (x y : Z) (w h : option Z) : D unit :=
  let w := int_or w WIDTH in
  let h := int_or h HEIGHT in
  s <- st id ;;
  if in_partial_mode s && negb (is_sleeping s) && is_ready s then
    _set_window x y (Some w) (Some h)
  else if is_ready s && negb (is_sleeping s) then
    spi (write_command CMD_BORDER (IntData BORDER_PARTIAL)) ;;
    _set_window x y (Some w) (Some h) ;;
    st_do (set_in_partial_mode true)
  else
    spi hardware_reset ;;
    st_do on_wake ;;
    spi (wait_ready TIMEOUT_COMMAND) ;;
    let gh := HEIGHT - 1 in
    spi (write_command CMD_DRIVER_OUTPUT
           (SeqData [Z.land gh 0xFF; Z.shiftr gh 8; 0x00])) ;;
    spi (write_command CMD_DATA_ENTRY (IntData DATA_ENTRY_INC)) ;;
    spi (write_command CMD_BORDER (IntData BORDER_PARTIAL)) ;;
    spi (write_command CMD_UPDATE_CTRL1 (SeqData [0x00; 0x80])) ;;
    spi (write_command CMD_TEMP_SENSOR (IntData TEMP_SENSOR_INTERNAL)) ;;
    spi (write_command CMD_SOFT_START (SeqData SOFT_START_DEFAULT)) ;;
    _set_window x y (Some w) (Some h) ;;
    st_do on_init_complete ;;
    st_do (set_in_partial_mode true).

Definition _update (mode : Z) : D Q :=
  spi (write_command CMD_UPDATE_CTRL2 (IntData mode)) ;;
  spi (write_command CMD_ACTIVATE NoData) ;;
  let timeout :=
    if mode =? SEQ_PARTIAL then TIMEOUT_PARTIAL
    else if (mode =? SEQ_FULL) || (mode =? SEQ_CUSTOM_LUT) then TIMEOUT_FULL
    else TIMEOUT_DEFAULT in
  spi (wait_ready timeout).

Definition clear (color : Z) : D unit :=
  _init_full ;;
  (if is_byte color then ret tt else raise ValueError) ;;
  let data := repeat color (Z.to_nat BUFFER_SIZE) in
  spi (write_command CMD_RAM_BLACK (BytesData data)) ;;
  spi (write_command CMD_RAM_RED (BytesData data)) ;;
  _update SEQ_FULL ;;
  st_do on_full_refresh_complete ;;
  store_prev data ;;
  sleep true.

Definition init (clear_first : bool) : D unit :=
  _init_full ;;
  if clear_first then clear 0xFF else ret tt.

Definition _display_full (data : list Z) (lut : option (list Z))
    (stay_awake : bool) : D Q :=
  _init_full ;;
  match lut with
  | Some l => spi (write_command CMD_LUT (BytesData l))
  | None => ret tt
  end ;;
  spi (write_command CMD_RAM_BLACK (BytesData data)) ;;
  spi (write_command CMD_RAM_RED (BytesData data)) ;;
  let mode := if truthy_opt lut then SEQ_CUSTOM_LUT else SEQ_FULL in
  t <- _update mode ;;
  st_do on_full_refresh_complete ;;
  store_prev data ;;
  (if negb stay_awake then sleep true else ret tt) ;;
  ret t.

Definition _display_partial (data : list Z) (force_full : bool)
    (lut : option (list Z)) (stay_awake : bool) : D Q :=
  nf <- st needs_full_refresh ;;
  if nf || force_full then _display_full data lut stay_awake
  else
    _init_partial 0 0 None None ;;
    _set_window 0 0 (Some WIDTH) (Some HEIGHT) ;;
    match lut with
    | Some l => spi (write_command CMD_LUT (BytesData l))
    | None => ret tt
    end ;;
    p <- prev ;;
    (if truthy_opt p
     then spi (write_command CMD_RAM_RED (BytesData (default [] p)))
     else ret tt) ;;
    spi (write_command CMD_RAM_BLACK (BytesData data)) ;;
    let mode := if truthy_opt lut then SEQ_CUSTOM_LUT else SEQ_PARTIAL in
    t <- _update mode ;;
    store_prev data ;;
    st_do on_partial_refresh_complete ;;
    (if negb stay_awake then sleep true else ret tt) ;;
    ret t.

Definition display (data : list Z) (full force_full stay_awake : bool) : D Q :=
  if negb (len data =? BUFFER_SIZE) then raise ValueError
  else if full then _display_full data None stay_awake
  else _display_partial data force_full None stay_awake.

Definition _set_waveform (lut : list Z) (vgh vsh1 vsh2 vsl vcom : Z) : D unit :=
  spi (write_command CMD_LUT (BytesData (slice lut 0 153))) ;;
  spi (write_command CMD_VGH (IntData vgh)) ;;
  spi (write_command CMD_VSH_VSL (SeqData [vsh1; vsh2; vsl])) ;;
  spi (write_command CMD_VCOM (IntData vcom)).

Definition display_lut (lut black : list Z) (red : option (list Z))
    (vgh vsh1 vsh2 vsl vcom : Z) : D Q :=
  _init_full ;;
  _set_waveform lut vgh vsh1 vsh2 vsl vcom ;;
  spi (write_command CMD_RAM_BLACK (BytesData black)) ;;
  spi (write_command CMD_RAM_RED
         (BytesData (if truthy_opt red then default [] red else black))) ;;
  t <- _update SEQ_CUSTOM_LUT ;;
  st_do (set_has_basemap false) ;;
  ret t.

Definition display_gray (black_plane red_plane : list Z) : D Q :=
  display_lut LUT.LUT_4GRAY black_plane (Some red_plane)
    DEFAULT_VGH DEFAULT_VSH1 DEFAULT_VSH2 DEFAULT_VSL DEFAULT_VCOM.

(** One element of the list given to [display_regions]:
    [(data, x, y, w, h)]. *)
Definition region : Type := list Z * Z * Z * Z * Z.

(** The body of the loop of [display_regions]. *)
Definition display_regions_body (r : region) : D unit :=
  let '(data, x, y, w, h) := r in
  let stride := WIDTH / 8 in
  if negb (Z.land x 7 =? 0) || negb (Z.land w 7 =? 0) then raise ValueError
  else
    _set_window x y (Some w) (Some h) ;;
    let x_byte := x / 8 in
    let w_byte := w / 8 in
    p <- prev ;;
    (if truthy_opt p then
       let pb := default [] p in
       zeros <- of_result (bytearray (w_byte * h)) ;;
       let old_data :=
         fold_left (fun od row =>
                      let src := (y + row) * stride + x_byte in
                      let dst := row * w_byte in
                      slice_set od dst (dst + w_byte)
                                (slice pb src (src + w_byte)))
                   (range 0 h) zeros in
       spi (write_command CMD_RAM_RED (BytesData old_data)) ;;
       set_prev (Some
         (fold_left (fun pb row =>
                       let dst := (y + row) * stride + x_byte in
                       let src := row * w_byte in
                       slice_set pb dst (dst + w_byte)
                                 (slice data src (src + w_byte)))
                    (range 0 h) pb))
     else ret tt) ;;
    spi (write_command CMD_RAM_X_CNT (IntData (Z.shiftr x 3))) ;;
    spi (write_command CMD_RAM_Y_CNT
           (SeqData [Z.land y 0xFF; Z.shiftr y 8])) ;;
    spi (write_command CMD_RAM_BLACK (BytesData data)).

Definition display_regions (regions : list region) : D Q :=
  hb <- st has_basemap ;;
  if negb hb then raise RuntimeError
  else
    match regions with
    | [] => ret 0%Q
    | first :: _ =>
        let '(_, x, y, w, h) := first in
        _init_partial x y (Some w) (Some h) ;;
        for_each regions display_regions_body ;;
        t <- _update SEQ_PARTIAL ;;
        st_do on_partial_refresh_complete ;;
        ret t
    end.

Definition display_region (data : list Z) (x y w h : Z) : D Q :=
  display_regions [(data, x, y, w, h)].

(** The integer the sensor register holds, as [read_temperature] packs
    and sign-extends it. *)
Definition temperature_raw (d0 d1 : Z) : Z :=
  let raw := Z.lor (Z.shiftl d0 4) (Z.shiftr d1 4) in
  if negb (Z.land raw 0x800 =? 0) then raw - 0x1000 else raw.

Definition read_temperature : D Q :=
  m <- gets (fun d => has_miso (_spi d)) ;;
  if negb m then raise RuntimeError
  else
    sl <- st is_sleeping ;;
    (if sl then spi hardware_reset ;; st_do on_wake else ret tt) ;;
    s <- st state ;;
    (if DisplayState_eqb s UNINITIALIZED then _init_full else ret tt) ;;
    spi (write_command CMD_TEMP_SENSOR (IntData TEMP_SENSOR_INTERNAL)) ;;
    spi (write_command CMD_UPDATE_CTRL2 (IntData SEQ_LOAD_TEMP)) ;;
    spi (write_command CMD_ACTIVATE NoData) ;;
    spi (wait_ready TIMEOUT_DEFAULT) ;;
    data <- spi (read_data CMD_TEMP_READ 2) ;;
    d0 <- of_result (index data 0) ;;
    d1 <- of_result (index data 1) ;;
    ret (temperature_raw d0 d1 # 16).

Definition check_temperature : D (Q * bool) :=
  temp <- read_temperature ;;
  let in_range :=
    Qle_bool (inject_Z TEMP_MIN) temp && Qle_bool temp (inject_Z TEMP_MAX) in
  ret (temp, in_range).

(** The data bytes that follow each [UPDATE_CTRL2] command of a trace:
    the update sequences the controller was asked to run. *)
Fixpoint update_sequences (t : list wire_event) : list (list Z) :=
  match t with
  | WCmd c :: ((WData bs :: _) as t') =>
      if c =? CMD_UPDATE_CTRL2 then bs :: update_sequences t'
      else update_sequences t'
  | _ :: t' => update_sequences t'
  | [] => []
  end.

(** The data bytes that follow each occurrence of command [c] in a
    trace. *)
Fixpoint payloads (c : Z) (t : list wire_event) : list (list Z) :=
  match t with
  | WCmd c' :: ((WData bs :: _) as t') =>
      if c' =? c then bs :: payloads c t' else payloads c t'
  | _ :: t' => payloads c t'
  | [] => []
  end.

(** How many times a command byte occurs in a trace. *)
Fixpoint count_cmd (c : Z) (t : list wire_event) : nat :=
  match t with
  | [] => O
  | WCmd c' :: t' => ((if (c' =? c)%Z then 1 else 0) + count_cmd c t')%nat
  | _ :: t' => count_cmd c t'
  end.

(** A 12-bit pattern read as a two's complement number: subtract
    [0x1000] when bit 11 is set. *)
Definition twos_complement_12 (raw : Z) : Z :=
  if Z.testbit raw 11 then raw - 0x1000 else raw.

(** A run of calls [display(data, full=False, force_full=False,
    stay_awake)], one per element of [calls]: the driver they leave. *)
Fixpoint after_partials (calls : list (list Z * bool)) (d : SSD1680)
  : SSD1680 :=
  match calls with
  | [] => d
  | (data, stay_awake) :: cs =>
      after_partials cs (final (display data false false stay_awake d))
  end.

(** Every call of the run returns, and asks the controller for the
    partial update sequence (followed by the power-off sequence of
    [sleep] unless the call stays awake). *)
Fixpoint all_partial (calls : list (list Z * bool)) (d : SSD1680) : Prop :=
  match calls with
  | [] => True
  | (data, stay_awake) :: cs =>
      let o := display data false false stay_awake d in
      is_ok (result_of o) = true
      /\ update_sequences (log o)
         = [SEQ_PARTIAL] :: (if stay_awake then [] else [[SEQ_POWER_OFF]])
      /\ all_partial cs (final o)
  end.

(** A region as [display_regions] checks it, and a region that also
    lies inside the panel. *)
Definition aligned (r : region) : Prop :=
  let '(_, x, _, w, _) := r in Z.land x 7 = 0 /\ Z.land w 7 = 0.

Definition in_panel (r : region) : Prop :=
  let '(_, x, y, w, h) := r in
  0 <= x /\ 0 <= w /\ x + w <= WIDTH /\ 0 <= y /\ 0 <= h /\ y + h <= HEIGHT.

(** The refresh bookkeeping of two drivers agrees. *)
Definition same_core (d d' : SSD1680) : Prop :=
  has_basemap (_state d') = has_basemap (_state d)
  /\ partial_count (_state d') = partial_count (_state d)
  /\ partial_threshold (_state d') = partial_threshold (_state d)
  /\ is_initial (_state d') = is_initial (_state d).

(** A computation that does not send command [c], leaves the refresh
    bookkeeping alone, and can only fail with [ValueError]. *)
Definition tame (c : Z) {A} (m : D A) : Prop :=
  forall d,
    same_core d (final (m d))
    /\ count_cmd c (log (m d)) = 0%nat
    /\ (forall e, result_of (m d) = Raise e -> e = ValueError).

(** A computation that, when it returns, has sent command [c] exactly
    [n] times. *)
Definition emits (c : Z) (n : nat) {A} (m : D A) : Prop :=
  forall d, is_ok (result_of (m d)) = true -> count_cmd c (log (m d)) = n.

(** The payloads the driver sends: a tuple has at most four items. *)
Definition short_payload (p : payload) : Prop :=
  match p with SeqData l => len l <= 4 | _ => True end.

(** [display_regions] on a non-empty list, cut at the update. *)
Definition regions_prefix (regions : list region) : D unit :=
  match regions with
  | [] => ret tt
  | (_, x, y, w, h) :: _ =>
      _init_partial x y (Some w) (Some h) ;;
      for_each regions display_regions_body
  end.

(** Computations that cannot raise. *)
Definition total {A} (m : D A) : Prop :=
  forall d, is_ok (result_of (m d)) = true.

(** A payload that [write_command] sends without raising. *)
Definition payload_ok (p : payload) : Prop :=
  match p with
  | IntData b => is_byte b = true
  | SeqData l => fill_data_buf 0 l = Ok tt
  | _ => True
  end.

(** The parameter byte of [_auto_fill]: the first bit of the pattern,
    over the full screen. *)
Definition auto_fill_param (pattern : Z) : Z :=
  let first_bit := Z.land (Z.shiftr pattern 7) 0x01 in
  Z.lor (Z.lor (Z.shiftl first_bit 7) (Z.shiftl 6 4)) 5.

Definition _auto_fill (pattern : Z) (red_ram bw_ram : bool) : D unit :=
  let param := auto_fill_param pattern in
  (if red_ram then
     spi (write_command CMD_AUTO_WRITE_RED (IntData param)) ;;
     spi (wait_ready TIMEOUT_COMMAND) ;;
     ret tt
   else ret tt) ;;
  (if bw_ram then
     spi (write_command CMD_AUTO_WRITE_BW (IntData param)) ;;
     spi (wait_ready TIMEOUT_COMMAND) ;;
     ret tt
   else ret tt).

Definition fast_clear (color : Z) : D unit :=
  _init_full ;;
  _auto_fill color true true ;;
  _update SEQ_FULL ;;
  st_do on_full_refresh_complete ;;
  p <- prev ;;
  match p with
  | Some b =>
      if truthy b then
        fill <- of_result (bytes_times color (length b)) ;;
        set_prev (Some (slice_set b 0 (len b) fill))
      else ret tt
  | None => ret tt
  end ;;
  sleep true.

Definition calculate_crc : D Z :=
  sl <- st is_sleeping ;;
  (if sl then spi hardware_reset ;; st_do on_wake else ret tt) ;;
  s <- st state ;;
  (if DisplayState_eqb s UNINITIALIZED then _init_full else ret tt) ;;
  spi (write_command CMD_CRC_CALC NoData) ;;
  spi (wait_ready TIMEOUT_DEFAULT) ;;
  data <- spi (read_data CMD_CRC_STATUS 2) ;;
  d0 <- of_result (index data 0) ;;
  d1 <- of_result (index data 1) ;;
  ret (Z.lor (Z.shiftl d0 8) d1).

(** A computation that keeps property [P] of the refresh state,
    whether it returns or raises. *)
Definition preserves (P : DriverState -> Prop) {A} (m : D A) : Prop :=
  forall d, P (_state d) -> P (_state (final (m d))).

End Ssd1680.

(** ** buffer/framebuffer.py and buffer/draw.py *)

Module Buffer.

Definition BLACK := 0.
Definition DARK_GRAY := 1.
Definition LIGHT_GRAY := 2.
Definition WHITE := 3.

Definition _BITS_PER_BYTE := 8.
Definition _BYTE_MASK := 0xFF.
Definition _TWO_BIT_MASK := 3.
Definition _MONO_THRESHOLD := 2.
Definition _PIXELS_PER_BYTE_2BIT := 4.
Definition _TWO_BIT_SHIFT_BASE := 6.

Definition _BIT_MASKS : list Z :=
  map (fun i => Z.shiftl 1 (7 - i)) (range 0 _BITS_PER_BYTE).
Definition _INV_MASKS : list Z :=
  map (fun i => Z.land (Z.lnot (Z.shiftl 1 (7 - i))) _BYTE_MASK)
      (range 0 _BITS_PER_BYTE).

(** [_ROTATION]: [(is_swapped, x_flip, y_flip)] for each rotation. *)
Definition _ROTATION (r : Z) : result (bool * bool * bool) :=
  if r =? 0 then Ok (false, false, false)
  else if r =? 90 then Ok (true, true, false)
  else if r =? 180 then Ok (false, true, true)
  else if r =? 270 then Ok (true, false, true)
  else Raise KeyError.

(** One entry of the conversion tables built by [_init_luts]: the four
    2-bit pixels of byte [i], most significant first, give the four bits
    of a nibble. *)
Definition lut_entry (sel : Z -> bool) (i : Z) : Z :=
  fold_left
    (fun acc p =>
       let val := Z.land (Z.shiftr i (_TWO_BIT_SHIFT_BASE - 2 * p))
                         _TWO_BIT_MASK in
       let out_bit := Z.shiftl 1 ((_PIXELS_PER_BYTE_2BIT - 1) - p) in
       if sel val then Z.lor acc out_bit else acc)
    (range 0 _PIXELS_PER_BYTE_2BIT) 0.

Definition _LUT_MONO : list Z :=
  map (lut_entry (fun val => _MONO_THRESHOLD <=? val)) (range 0 256).
Definition _LUT_BLACK : list Z :=
  map (lut_entry (fun val => nonzero (Z.land (Z.shiftr val 1) 1)))
      (range 0 256).
Definition _LUT_RED : list Z :=
  map (lut_entry (fun val => nonzero (Z.land val 1))) (range 0 256).

(** [class FrameBuffer] *)
Record FrameBuffer := mkFrameBuffer {
  _phys_w : Z;
  _phys_h : Z;
  _depth : Z;
  _buffer_size : Z;
  _buffer : list Z;
  _row_bytes : Z;
  _inverted : bool;
  _rot_props : bool * bool * bool;
  _rotation : Z;
  width : Z;
  height : Z;
}.

(** [FrameBuffer(phys_width, phys_height, depth, rotation)] *)
Definition new (phys_width phys_height depth rotation : Z)
  : result FrameBuffer :=
  if negb ((depth =? 1) || (depth =? 2)) then Raise ValueError
  else
    let total_bits := phys_width * phys_height * depth in
    let buffer_size := (total_bits + 7) / 8 in
    if buffer_size <? 0 then Raise ValueError
    else
      let rot := rotation mod 360 in
      match _ROTATION rot with
      | Raise e => Raise e
      | Ok props =>
          let swapped := negb ((rot =? 0) || (rot =? 180)) in
          Ok {| _phys_w := phys_width;
                _phys_h := phys_height;
                _depth := depth;
                _buffer_size := buffer_size;
                _buffer := repeat 0 (Z.to_nat buffer_size);
                _row_bytes := (phys_width * depth + 7) / 8;
                _inverted := false;
                _rot_props := props;
                _rotation := rot;
                width := if swapped then phys_height else phys_width;
                height := if swapped then phys_width else phys_height |}
      end.

(** An access to [self._buffer]: a subscript [buf[idx]] or a slice
    assignment [buf[a:b] = ...].  The log of a drawing call lists the
    subscripts in the order the call evaluates them. *)
Inductive access :=
| Touch (idx : Z)
| Span (a b : Z).

Definition B := M access FrameBuffer.

Definition set_buffer (b : list Z) : B unit :=
  modify (fun fb =>
    mkFrameBuffer (_phys_w fb) (_phys_h fb) (_depth fb) (_buffer_size fb) b
                  (_row_bytes fb) (_inverted fb) (_rot_props fb)
                  (_rotation fb) (width fb) (height fb)).

(** [buf[idx]] *)
Definition buf_get (idx : Z) : B Z :=
  emit (Touch idx) ;;
  b <- gets _buffer ;;
  of_result (index b idx).

(** [buf[idx] = v] *)
Definition buf_set (idx v : Z) : B unit :=
  emit (Touch idx) ;;
  b <- gets _buffer ;;
  b' <- of_result (index_set b idx v) ;;
  set_buffer b'.

(** [buf[idx] |= m] and [buf[idx] &= m] *)
Definition buf_or (idx m : Z) : B unit :=
  v <- buf_get idx ;; buf_set idx (Z.lor v m).
Definition buf_and (idx m : Z) : B unit :=
  v <- buf_get idx ;; buf_set idx (Z.land v m).

(** [buf[a:b] = v] *)
Definition buf_fill (a b : Z) (v : list Z) : B unit :=
  emit (Span a b) ;;
  buf <- gets _buffer ;;
  set_buffer (slice_set buf a b v).

Definition _set_pixel_1bit (px py color : Z) : B unit :=
  rb <- gets _row_bytes ;;
  let idx := py * rb + Z.shiftr px 3 in
  let bit := Z.land px 7 in
  if nonzero color then
    m <- of_result (index _BIT_MASKS bit) ;; buf_or idx m
  else
    m <- of_result (index _INV_MASKS bit) ;; buf_and idx m.

Definition _get_pixel_1bit (px py : Z) : B Z :=
  rb <- gets _row_bytes ;;
  let idx := py * rb + Z.shiftr px 3 in
  v <- buf_get idx ;;
  m <- of_result (index _BIT_MASKS (Z.land px 7)) ;;
  ret (if nonzero (Z.land v m) then WHITE else BLACK).

Definition _set_pixel_2bit (px py color : Z) : B unit :=
  pw <- gets _phys_w ;;
  let bit_off := (py * pw + px) * 2 in
  let byte_idx := Z.shiftr bit_off 3 in
  let bit_pos := _TWO_BIT_SHIFT_BASE - Z.land bit_off 7 in
  let mask := Z.land (Z.lnot (Z.shiftl _TWO_BIT_MASK bit_pos)) _BYTE_MASK in
  v <- buf_get byte_idx ;;
  buf_set byte_idx
    (Z.lor (Z.land v mask) (Z.shiftl (Z.land color _TWO_BIT_MASK) bit_pos)).

Definition _get_pixel_2bit (px py : Z) : B Z :=
  pw <- gets _phys_w ;;
  let bit_off := (py * pw + px) * 2 in
  v <- buf_get (Z.shiftr bit_off 3) ;;
  ret (Z.land (Z.shiftr v (_TWO_BIT_SHIFT_BASE - Z.land bit_off 7))
              _TWO_BIT_MASK).

Definition _effective_color (fb : FrameBuffer) (color : Z) : Z :=
  if negb (_inverted fb) then color
  else if _depth fb =? 1 then (if nonzero color then BLACK else WHITE)
  else Z.land (Z.lnot color) _TWO_BIT_MASK.

(** [0 <= x < self.width and 0 <= y < self.height] *)
Definition in_bounds (fb : FrameBuffer) (x y : Z) : bool :=
  (0 <=? x) && (x <? width fb) && (0 <=? y) && (y <? height fb).

(** The inlined transform of [pixel], [get_pixel] and [pixel_fast]. *)
Definition transform (fb : FrameBuffer) (x y : Z) : Z * Z :=
  let '(is_swapped, x_flip, y_flip) := _rot_props fb in
  let '(x, y) := if is_swapped then (y, x) else (x, y) in
  let px := if x_flip then _phys_w fb - 1 - x else x in
  let py := if y_flip then _phys_h fb - 1 - y else y in
  (px, py).

Definition pixel_fast (x y color : Z) : B unit :=
  fb <- get ;;
  let '(px, py) := transform fb x y in
  let eff := _effective_color fb color in
  if _depth fb =? 1 then _set_pixel_1bit px py eff
  else _set_pixel_2bit px py eff.

Definition pixel (x y color : Z) : B unit :=
  fb <- get ;;
  if negb (in_bounds fb x y) then ret tt
  else pixel_fast x y color.

Definition get_pixel (x y : Z) : B Z :=
  fb <- get ;;
  if negb (in_bounds fb x y) then ret WHITE
  else
    let '(px, py) := transform fb x y in
    if _depth fb =? 1 then _get_pixel_1bit px py
    else _get_pixel_2bit px py.

(** [if color: buf[idx] |= m  else: buf[idx] &= m ^ 0xFF] *)
Definition buf_paint (color idx m : Z) : B unit :=
  if nonzero color then buf_or idx m
  else buf_and idx (Z.lxor m _BYTE_MASK).

Definition _hline_phys (px py length color : Z) : B unit :=
  fb <- get ;;
  if _depth fb =? 2 then
    for_each (range 0 length) (fun i => _set_pixel_2bit (px + i) py color)
  else
    let row := py * _row_bytes fb in
    let end_ := px + length in
    let b0 := Z.shiftr px 3 in
    let bit0 := Z.land px 7 in
    let b1 := Z.shiftr (end_ - 1) 3 in
    let bit1 := Z.land (end_ - 1) 7 in
    if b0 =? b1 then
      let mask :=
        Z.land (Z.land (Z.shiftr _BYTE_MASK bit0)
                       (Z.shiftl _BYTE_MASK (7 - bit1))) _BYTE_MASK in
      buf_paint color (row + b0) mask
    else
      let start_mask := Z.shiftr _BYTE_MASK bit0 in
      buf_paint color (row + b0) start_mask ;;
      (if b0 + 1 <? b1 then
         buf_fill (row + b0 + 1) (row + b1)
                  (repeat (if nonzero color then 0xFF else 0x00)
                          (Z.to_nat (b1 - b0 - 1)))
       else ret tt) ;;
      let end_mask := Z.land (Z.shiftl _BYTE_MASK (7 - bit1)) _BYTE_MASK in
      buf_paint color (row + b1) end_mask.

(** The loop of [_vline_phys]: [n] times [buf[idx] op= m; idx += step]. *)
Fixpoint vline_loop (n : nat) (op : Z -> Z -> B unit) (idx m step : Z)
  : B unit :=
  match n with
  | O => ret tt
  | S n' => op idx m ;; vline_loop n' op (idx + step) m step
  end.

Definition _vline_phys (px py length color : Z) : B unit :=
  fb <- get ;;
  if _depth fb =? 2 then
    for_each (range 0 length) (fun i => _set_pixel_2bit px (py + i) color)
  else
    let row_bytes := _row_bytes fb in
    let byte_col := Z.shiftr px 3 in
    mask <- of_result (index _BIT_MASKS (Z.land px 7)) ;;
    inv <- of_result (index _INV_MASKS (Z.land px 7)) ;;
    let idx := py * row_bytes + byte_col in
    if nonzero color then
      vline_loop (Z.to_nat length) buf_or idx mask row_bytes
    else
      vline_loop (Z.to_nat length) buf_and idx inv row_bytes.

Definition hline (x y length color : Z) : B unit :=
  fb <- get ;;
  if (length <=? 0) || (y <? 0) || (height fb <=? y) then ret tt
  else if (width fb <=? x) || (x + length <=? 0) then ret tt
  else
    let '(x, length) := if x <? 0 then (0, length + x) else (x, length) in
    let length := if width fb <? x + length then width fb - x else length in
    if length <=? 0 then ret tt
    else
      let effective := _effective_color fb color in
      let '(is_swapped, x_flip, y_flip) := _rot_props fb in
      if is_swapped then
        let px := if x_flip then _phys_w fb - 1 - y else y in
        let py := if y_flip then _phys_h fb - x - length else x in
        _vline_phys px py length effective
      else
        let px := if x_flip then _phys_w fb - x - length else x in
        let py := if y_flip then _phys_h fb - 1 - y else y in
        _hline_phys px py length effective.

Definition vline (x y length color : Z) : B unit :=
  fb <- get ;;
  if (length <=? 0) || (x <? 0) || (width fb <=? x) then ret tt
  else
    let '(y, length) := if y <? 0 then (0, length + y) else (y, length) in
    let length := if height fb <? y + length then height fb - y else length in
    if length <=? 0 then ret tt
    else
      let effective := _effective_color fb color in
      let '(is_swapped, x_flip, y_flip) := _rot_props fb in
      if is_swapped then
        let px := if x_flip then _phys_w fb - y - length else y in
        let py := if y_flip then _phys_h fb - 1 - x else x in
        _hline_phys px py length effective
      else
        let px := if x_flip then _phys_w fb - 1 - x else x in
        let py := if y_flip then _phys_h fb - y - length else y in
        _vline_phys px py length effective.

Definition fill_rect (x y w h color : Z) : B unit :=
  fb <- get ;;
  let '(x, w) := if x <? 0 then (0, w + x) else (x, w) in
  let '(y, h) := if y <? 0 then (0, h + y) else (y, h) in
  let w := if width fb <? x + w then width fb - x else w in
  let h := if height fb <? y + h then height fb - y else h in
  if (w <=? 0) || (h <=? 0) then ret tt
  else for_each (range 0 h) (fun row => hline x (y + row) w color).

(** *** draw.py: line *)

Definition INSIDE := 0.
Definition LEFT := 1.
Definition RIGHT := 2.
Definition BOTTOM := 4.
Definition TOP := 8.

Definition _compute_outcode (xmin xmax ymin ymax x y : Z) : Z :=
  let code := INSIDE in
  let code := if x <? xmin then Z.lor code LEFT
              else if xmax <? x then Z.lor code RIGHT
              else code in
  let code := if y <? ymin then Z.lor code BOTTOM
              else if ymax <? y then Z.lor code TOP
              else code in
  code.

(** The point that replaces the outside end point in one round of the
    clipping loop. *)
Definition clip_point (xmin xmax ymin ymax x0 y0 x1 y1 outcode : Z)
  : result (Z * Z) :=
  if nonzero (Z.land outcode TOP) then
    and_then (floordiv ((x1 - x0) * (ymax - y0)) (y1 - y0))
             (fun q => Ok (x0 + q, ymax))
  else if nonzero (Z.land outcode BOTTOM) then
    and_then (floordiv ((x1 - x0) * (ymin - y0)) (y1 - y0))
             (fun q => Ok (x0 + q, ymin))
  else if nonzero (Z.land outcode RIGHT) then
    and_then (floordiv ((y1 - y0) * (xmax - x0)) (x1 - x0))
             (fun q => Ok (xmax, y0 + q))
  else if nonzero (Z.land outcode LEFT) then
    and_then (floordiv ((y1 - y0) * (xmin - x0)) (x1 - x0))
             (fun q => Ok (xmin, y0 + q))
  else Ok (0, 0).

(** What the [while True] loop of [line] leaves: the clipped segment,
    or the early [return] of a segment that misses the viewport. *)
Inductive clipped :=
| Segment (x0 y0 x1 y1 : Z)
| Rejected.

(** The clipping loop, run for at most [fuel] rounds; [None] when the
    loop has not left after that many rounds. *)
Fixpoint clip_loop (fuel : nat) (xmin xmax ymin ymax : Z)
    (x0 y0 x1 y1 code0 code1 : Z) : result (option clipped) :=
  match fuel with
  | O => Ok None
  | S fuel' =>
      if negb (nonzero (Z.lor code0 code1)) then
        Ok (Some (Segment x0 y0 x1 y1))
      else if nonzero (Z.land code0 code1) then Ok (Some Rejected)
      else
        let outcode := if nonzero code0 then code0 else code1 in
        and_then (clip_point xmin xmax ymin ymax x0 y0 x1 y1 outcode)
          (fun '(x, y) =>
             if outcode =? code0 then
               clip_loop fuel' xmin xmax ymin ymax x y x1 y1
                         (_compute_outcode xmin xmax ymin ymax x y) code1
             else
               clip_loop fuel' xmin xmax ymin ymax x0 y0 x y code0
                         (_compute_outcode xmin xmax ymin ymax x y))
  end.

(** The drawing loop of [line]: [for x in range(x0, x1 + 1)], [y] and
    [err] being carried from one round to the next. *)
Fixpoint line_loop (xs : list Z) (steep : bool) (dx dy ystep : Z)
    (effective_col : Z) (y err : Z) : B unit :=
  match xs with
  | [] => ret tt
  | x :: xs' =>
      fb <- get ;;
      let '(is_swapped, x_flip, y_flip) := _rot_props fb in
      let '(lx, ly) := if steep then (y, x) else (x, y) in
      let '(px, py) := if is_swapped then (ly, lx) else (lx, ly) in
      let px := if x_flip then _phys_w fb - 1 - px else px in
      let py := if y_flip then _phys_h fb - 1 - py else py in
      (if _depth fb =? 1 then _set_pixel_1bit px py effective_col
       else _set_pixel_2bit px py effective_col) ;;
      let err := err - dy in
      if err <? 0 then
        line_loop xs' steep dx dy ystep effective_col (y + ystep) (err + dx)
      else
        line_loop xs' steep dx dy ystep effective_col y err
  end.

(** [line]; the result is [None] when the clipping loop is still
    running after [fuel] rounds. *)
Definition line (fuel : nat) (x0 y0 x1 y1 color : Z) : B (option unit) :=
  fb <- get ;;
  let xmin := 0 in
  let xmax := width fb - 1 in
  let ymin := 0 in
  let ymax := height fb - 1 in
  let code0 := _compute_outcode xmin xmax ymin ymax x0 y0 in
  let code1 := _compute_outcode xmin xmax ymin ymax x1 y1 in
  c <- of_result
         (clip_loop fuel xmin xmax ymin ymax x0 y0 x1 y1 code0 code1) ;;
  match c with
  | None => ret None
  | Some Rejected => ret (Some tt)
  | Some (Segment x0 y0 x1 y1) =>
      let steep := Z.abs (x1 - x0) <? Z.abs (y1 - y0) in
      let '(x0, y0, x1, y1) :=
        if steep then (y0, x0, y1, x1) else (x0, y0, x1, y1) in
      let '(x0, y0, x1, y1) :=
        if x1 <? x0 then (x1, y1, x0, y0) else (x0, y0, x1, y1) in
      let dx := x1 - x0 in
      let dy := Z.abs (y1 - y0) in
      let err := dx / 2 in
      let ystep := if y0 <? y1 then 1 else -1 in
      let effective_col := _effective_color fb color in
      line_loop (range x0 (x1 + 1)) steep dx dy ystep effective_col y0 err ;;
      ret (Some tt)
  end.

(** *** draw.py: blit *)

(** [bmp[bmp_off + (col_idx >> 3)] & (0x80 >> (col_idx & 7))] *)
Definition bitmap_bit (bmp : list Z) (bmp_off col_idx : Z) : result bool :=
  and_then (index bmp (bmp_off + Z.shiftr col_idx 3))
    (fun v => Ok (nonzero (Z.land v (Z.shiftr 0x80 (Z.land col_idx 7))))).

Definition _blit_1bit (col : Z) (bmp : list Z) (w x y : Z)
    (r_start r_end c_start c_end : Z) : B unit :=
  fb <- get ;;
  let pw := _phys_w fb in
  let ph := _phys_h fb in
  let stride := _row_bytes fb in
  let '(swap, xf, yf) := _rot_props fb in
  let row_bytes := (w + 7) / 8 in
  if negb swap then
    let dx_start := if xf then pw - 1 - x else x in
    let dx_step := if xf then -1 else 1 in
    let dy_start := if yf then ph - 1 - y else y in
    let dy_step := if yf then -1 else 1 in
    for_each (range r_start r_end) (fun row =>
      let py := dy_start + row * dy_step in
      let bmp_off := row * row_bytes in
      let row_off := py * stride in
      for_each (range c_start c_end) (fun col_idx =>
        set <- of_result (bitmap_bit bmp bmp_off col_idx) ;;
        if negb set then ret tt
        else
          let px := dx_start + col_idx * dx_step in
          let idx := row_off + Z.shiftr px 3 in
          if nonzero col then
            m <- of_result (index _BIT_MASKS (Z.land px 7)) ;; buf_or idx m
          else
            m <- of_result (index _INV_MASKS (Z.land px 7)) ;; buf_and idx m))
  else
    let dx_start := if xf then pw - 1 - y else y in
    let dx_step := if xf then -1 else 1 in
    let dy_start := if yf then ph - 1 - x else x in
    let dy_step := if yf then -1 else 1 in
    for_each (range r_start r_end) (fun row =>
      let px := dx_start + row * dx_step in
      let bmp_off := row * row_bytes in
      for_each (range c_start c_end) (fun col_idx =>
        set <- of_result (bitmap_bit bmp bmp_off col_idx) ;;
        if negb set then ret tt
        else
          let py := dy_start + col_idx * dy_step in
          let idx := py * stride + Z.shiftr px 3 in
          if nonzero col then
            m <- of_result (index _BIT_MASKS (Z.land px 7)) ;; buf_or idx m
          else
            m <- of_result (index _INV_MASKS (Z.land px 7)) ;; buf_and idx m)).

Definition _blit_2bit (color : Z) (bmp : list Z) (w x y : Z)
    (r_start r_end c_start c_end : Z) : B unit :=
  let row_bytes := (w + 7) / 8 in
  for_each (range r_start r_end) (fun row =>
    let bmp_off := row * row_bytes in
    for_each (range c_start c_end) (fun col_idx =>
      set <- of_result (bitmap_bit bmp bmp_off col_idx) ;;
      if set then pixel_fast (x + col_idx) (y + row) color
      else ret tt)).

Definition blit (bitmap : list Z) (x y w h color : Z) : B unit :=
  fb <- get ;;
  if (width fb <=? x) || (height fb <=? y) || (x + w <=? 0) || (y + h <=? 0)
  then ret tt
  else
    let row_start := Z.max 0 (- y) in
    let row_end := Z.min h (height fb - y) in
    let col_start := Z.max 0 (- x) in
    let col_end := Z.min w (width fb - x) in
    if (row_end <=? row_start) || (col_end <=? col_start) then ret tt
    else
      let eff := _effective_color fb color in
      if _depth fb =? 1 then
        _blit_1bit eff bitmap w x y row_start row_end col_start col_end
      else
        _blit_2bit eff bitmap w x y row_start row_end col_start col_end.

(** *** framebuffer.py: to_planes *)

(** [(lut[buf[i]] << 4) | lut[buf[i + 1]]] *)
Definition plane_byte (lut buf : list Z) (i : Z) : result Z :=
  and_then (index buf i) (fun b0 =>
  and_then (index lut b0) (fun n0 =>
  and_then (index buf (i + 1)) (fun b1 =>
  and_then (index lut b1) (fun n1 =>
  Ok (Z.lor (Z.shiftl n0 4) n1))))).

(** The loop of [to_planes] over [range(0, self._buffer_size, 2)]. *)
Fixpoint planes_loop (idxs : list Z) (buf black red : list Z)
  : result (list Z * list Z) :=
  match idxs with
  | [] => Ok (black, red)
  | i :: idxs' =>
      and_then (plane_byte _LUT_BLACK buf i) (fun vb =>
      and_then (index_set black (i / 2) vb) (fun black' =>
      and_then (plane_byte _LUT_RED buf i) (fun vr =>
      and_then (index_set red (i / 2) vr) (fun red' =>
      planes_loop idxs' buf black' red'))))
  end.

Definition to_planes (fb : FrameBuffer) : result (list Z * list Z) :=
  if negb (_depth fb =? 2) then Raise ValueError
  else
    let plane_size := _buffer_size fb / 2 in
    and_then (bytearray plane_size) (fun black =>
    and_then (bytearray plane_size) (fun red =>
    planes_loop (range_by_2 (_buffer_size fb)) (_buffer fb) black red)).

(** The value of a 2-bit pixel at physical [(px, py)], as
    [_get_pixel_2bit] reads it. *)
Definition pixel_2bit (fb : FrameBuffer) (px py : Z) : result Z :=
  result_of (_get_pixel_2bit px py fb).

(** Bit [n] of a packed 1-bit plane, most significant bit first. *)
Definition plane_bit (plane : list Z) (n : Z) : result Z :=
  and_then (index plane (n / 8))
    (fun v => Ok (Z.land (Z.shiftr v (7 - n mod 8)) 1)).

(** *** Names for the parts of a packed byte *)

Definition hi_bit (v : Z) : Z := Z.land (Z.shiftr v 1) 1.
Definition lo_bit (v : Z) : Z := Z.land v 1.
Definition nib_black : Z -> Z :=
  lut_entry (fun val => nonzero (Z.land (Z.shiftr val 1) 1)).
Definition nib_red : Z -> Z := lut_entry (fun val => nonzero (Z.land val 1)).
(** The [r]-th 2-bit pixel of byte [b]. *)
Definition pix (b r : Z) : Z :=
  Z.land (Z.shiftr b (_TWO_BIT_SHIFT_BASE - 2 * r)) _TWO_BIT_MASK.

(** Byte [k] of a buffer of bytes. *)
Definition byte_at (buf : list Z) (k : Z) : Z := default 0 (buf !! Z.to_nat k).

Definition packed (nib : Z -> Z) (buf : list Z) (k : Z) : Z :=
  Z.lor (Z.shiftl (nib (byte_at buf (2 * k))) 4) (nib (byte_at buf (2 * k + 1))).

(** The frame buffer with its [bytearray] replaced. *)
Definition with_buffer (fb : FrameBuffer) (b : list Z) : FrameBuffer :=
  mkFrameBuffer (_phys_w fb) (_phys_h fb) (_depth fb) (_buffer_size fb) b
                (_row_bytes fb) (_inverted fb) (_rot_props fb)
                (_rotation fb) (width fb) (height fb).

(** What [__init__] and the [rotation] setter establish, and what the
    drawing methods rely on. *)
Definition well_formed (fb : FrameBuffer) : Prop :=
  (_depth fb = 1 \/ _depth fb = 2)
  /\ 0 <= _phys_w fb /\ 0 <= _phys_h fb
  /\ _buffer_size fb = (_phys_w fb * _phys_h fb * _depth fb + 7) / 8
  /\ _row_bytes fb = (_phys_w fb * _depth fb + 7) / 8
  /\ len (_buffer fb) = _buffer_size fb
  /\ Forall (fun b => is_byte b = true) (_buffer fb)
  /\ _ROTATION (_rotation fb) = Ok (_rot_props fb)
  /\ width fb = (if (_rot_props fb).1.1 then _phys_h fb else _phys_w fb)
  /\ height fb = (if (_rot_props fb).1.1 then _phys_w fb else _phys_h fb).

(** Two buffers of the same geometry and state, whatever their
    bytes. *)
Definition same_shape (fb fb' : FrameBuffer) : Prop :=
  fb' = with_buffer fb (_buffer fb').

(** The byte [v] with its [r]-th 2-bit pixel replaced by [color], as
    [_set_pixel_2bit] computes it. *)
Definition put2 (v r color : Z) : Z :=
  let bit_pos := _TWO_BIT_SHIFT_BASE - 2 * r in
  Z.lor (Z.land v (Z.land (Z.lnot (Z.shiftl _TWO_BIT_MASK bit_pos)) _BYTE_MASK))
        (Z.shiftl (Z.land color _TWO_BIT_MASK) bit_pos).

(** The byte [v] with bit [bit] (most significant first) set or
    cleared, as [_set_pixel_1bit] computes it, and the colour
    [_get_pixel_1bit] reads from it. *)
Definition put1 (v bit color : Z) : Z :=
  if nonzero color then Z.lor v (Z.shiftl 1 (7 - bit))
  else Z.land v (Z.land (Z.lnot (Z.shiftl 1 (7 - bit))) _BYTE_MASK).

Definition pix1 (v bit : Z) : Z :=
  if nonzero (Z.land v (Z.shiftl 1 (7 - bit))) then WHITE else BLACK.

(** The rows of a 1-bit buffer, [_row_bytes] apart, fit the
    [bytearray]. *)
Definition rows_fit (fb : FrameBuffer) : Prop :=
  _row_bytes fb * _phys_h fb <= _buffer_size fb.

Definition _BYTE_ZERO := 0x00.
Definition _TWO_BIT_FILL := 0x55.

Definition clear (color : Z) : B unit :=
  fb <- get ;;
  let eff_color := _effective_color fb color in
  let fill :=
    if _depth fb =? 1 then (if nonzero eff_color then _BYTE_MASK else _BYTE_ZERO)
    else Z.land eff_color _TWO_BIT_MASK * _TWO_BIT_FILL in
  pattern <- of_result (bytes_times fill (Z.to_nat (_buffer_size fb))) ;;
  buf_fill 0 (len (_buffer fb)) pattern.

Definition set_inverted (v : bool) : B unit :=
  modify (fun fb =>
    mkFrameBuffer (_phys_w fb) (_phys_h fb) (_depth fb) (_buffer_size fb)
                  (_buffer fb) (_row_bytes fb) v (_rot_props fb)
                  (_rotation fb) (width fb) (height fb)).

(** [buf[i] ^= m] *)
Definition buf_xor (idx m : Z) : B unit :=
  v <- buf_get idx ;; buf_set idx (Z.lxor v m).

Definition invert : B unit :=
  size <- gets _buffer_size ;;
  for_each (range 0 size) (fun i => buf_xor i _BYTE_MASK) ;;
  inv <- gets _inverted ;;
  set_inverted (negb inv).

(** The colour [get_pixel] reads once the buffer holds [color]
    everywhere. *)
Definition stored_color (fb : FrameBuffer) (color : Z) : Z :=
  if _depth fb =? 1 then (if nonzero color then WHITE else BLACK)
  else Z.land color _TWO_BIT_MASK.

End Buffer.

(** ** text/bf2.py and text/renderer.py *)

Module Text.

(** A Python [str] as the sequence of the code points [ord(ch)] of its
    characters. *)
Definition str := list Z.

(** [class BF2Font] once the header and the glyph index are parsed:
    [index] maps a code point to [(width, data_offset)], [bitmaps] is
    the bitmap section of the open file. *)
Record BF2Font := mkBF2Font {
  max_w : Z;
  height : Z;
  count : Z;
  bpr : Z;
  def_w : Z;
  prop : bool;
  index : gmap Z (Z * Z);
  bitmaps : list Z;
}.

(** [BF2Font.get] *)
Definition get (f : BF2Font) (cp : Z) : option (Z * Z) := index f !! cp.

(** [BF2Font.read]: seek to the glyph, read [height * bpr] bytes. *)
Definition read (f : BF2Font) (offset : Z) : list Z :=
  take (Z.to_nat (height f * bpr f)) (drop (Z.to_nat offset) (bitmaps f)).

(** A glyph as the renderer caches it:
    [(bitmap_data, width, height, bytes_per_row)]. *)
Definition glyph : Type := list Z * Z * Z * Z.

(** [class TextRenderer].  [_cache] is the [OrderedDict] in its order,
    oldest entry first.  The buffer the renderer draws on takes no part
    in measuring and is left out. *)
Record TextRenderer := mkTextRenderer {
  _cache : list (Z * glyph);
  _cache_max : Z;
  _cache_size : Z;
  _fonts : list BF2Font;
  _base_h : Z;
}.

(** [TextRenderer(fb, cache_size)] *)
Definition new (cache_size : Z) : TextRenderer :=
  {| _cache := []; _cache_max := cache_size; _cache_size := 0;
     _fonts := []; _base_h := 8 |}.

(** [OrderedDict]: [d[k]], [del d[k]] and [d.move_to_end(k)]. *)
Fixpoint od_get {V} (d : list (Z * V)) (k : Z) : option V :=
  match d with
  | [] => None
  | (k', v) :: d' => if k' =? k then Some v else od_get d' k
  end.

Fixpoint od_del {V} (d : list (Z * V)) (k : Z) : list (Z * V) :=
  match d with
  | [] => []
  | (k', v) :: d' => if k' =? k then d' else (k', v) :: od_del d' k
  end.

Definition od_move_to_end {V} (d : list (Z * V)) (k : Z) : list (Z * V) :=
  match od_get d k with
  | Some v => od_del d k ++ [(k, v)]
  | None => d
  end.

(** [d[k] = v]: a present key keeps its place, a new one goes last. *)
Fixpoint od_set {V} (d : list (Z * V)) (k : Z) (v : V) : list (Z * V) :=
  match d with
  | [] => [(k, v)]
  | (k', v') :: d' =>
      if k' =? k then (k, v) :: d' else (k', v') :: od_set d' k v
  end.

(** The eviction loop of [_get_glyph]:
    [while self._cache_size + sz > self._cache_max and self._cache]. *)
Fixpoint evict (cache : list (Z * glyph)) (size sz max : Z)
  : list (Z * glyph) * Z :=
  match cache with
  | [] => ([], size)
  | (_, v) :: rest =>
      if max <? size + sz then evict rest (size - len v.1.1.1) sz max
      else (cache, size)
  end.

(** The [for f in self._fonts] loop of [_get_glyph]: the glyph read
    from the first font whose index has the code point. *)
Fixpoint find_glyph (fonts : list BF2Font) (cp : Z) : option glyph :=
  match fonts with
  | [] => None
  | f :: fonts' =>
      match get f cp with
      | Some (w, off) =>
          Some (read f off, if prop f then w else max_w f, height f, bpr f)
      | None => find_glyph fonts' cp
      end
  end.

Definition _get_glyph (cp : Z) (r : TextRenderer)
  : option glyph * TextRenderer :=
  match od_get (_cache r) cp with
  | Some g =>
      (Some g,
       mkTextRenderer (od_move_to_end (_cache r) cp) (_cache_max r)
                      (_cache_size r) (_fonts r) (_base_h r))
  | None =>
      match find_glyph (_fonts r) cp with
      | Some res =>
          let sz := len res.1.1.1 in
          let '(cache, size) :=
            evict (_cache r) (_cache_size r) sz (_cache_max r) in
          (Some res,
           mkTextRenderer (od_set cache cp res) (_cache_max r) (size + sz)
                          (_fonts r) (_base_h r))
      | None => (None, r)
      end
  end.

(** [add_font] and [load_font], the font file being already parsed. *)
Definition add_font (f : BF2Font) (r : TextRenderer) : TextRenderer :=
  mkTextRenderer (_cache r) (_cache_max r) (_cache_size r)
                 (_fonts r ++ [f])
                 (if truthy (_fonts r) then _base_h r else height f).

Definition load_font (f : BF2Font) (r : TextRenderer) : TextRenderer :=
  add_font f (mkTextRenderer [] (_cache_max r) 0 [] (_base_h r)).

(** The loop of [measure_width]. *)
Fixpoint measure_loop (text : str) (scale fallback_w w : Z)
    (r : TextRenderer) : Z * TextRenderer :=
  match text with
  | [] => (w, r)
  | ch :: text' =>
      let '(g, r') := _get_glyph ch r in
      let w' :=
        match g with
        | Some g => w + (g.1.1.2 + 1) * scale
        | None => w + fallback_w * scale
        end in
      measure_loop text' scale fallback_w w' r'
  end.

Definition measure_width (text : str) (scale : Z) (r : TextRenderer)
  : Z * TextRenderer :=
  match _fonts r with
  | [] => (0, r)
  | f0 :: _ =>
      if negb (truthy text) then (0, r)
      else
        let '(w, r') := measure_loop text scale (def_w f0) 0 r in
        (w - scale, r')
  end.

(** *** The width as the specification words it *)

(** Whether the index of a font has the code point, and the first font
    of the stack, in stack order, that has it. *)
Definition has_glyph (cp : Z) (f : BF2Font) : bool :=
  match index f !! cp with Some _ => true | None => false end.

Definition first_font_with (fonts : list BF2Font) (cp : Z)
  : option BF2Font :=
  hd_error (List.filter (has_glyph cp) fonts).

(** The advance width of the glyph of [cp] in font [f]: the width of
    its index entry when the font is proportional, the maximal width
    of the font when it is not. *)
Definition glyph_advance (f : BF2Font) (cp : Z) : Z :=
  if prop f
  then match index f !! cp with Some (w, _) => w | None => 0 end
  else max_w f.

(** The advance width of a code point: that of its glyph in the first
    font of the stack that contains it. *)
Definition advance_width (fonts : list BF2Font) (cp : Z) : option Z :=
  match first_font_with fonts cp with
  | Some f => Some (glyph_advance f cp)
  | None => None
  end.

(** What one character adds to the width: [(advance + 1) * scale] when
    its glyph is found, [default_width * scale] of the primary font
    when it is not. *)
Definition char_width (fonts : list BF2Font) (scale : Z) (cp : Z) : Z :=
  match advance_width fonts cp with
  | Some a => (a + 1) * scale
  | None =>
      match fonts with
      | f0 :: _ => def_w f0 * scale
      | [] => 0
      end
  end.

(** Sum over the characters, minus one [scale] of trailing spacing. *)
Definition spec_width (fonts : list BF2Font) (text : str) (scale : Z) : Z :=
  foldr Z.add 0 (map (char_width fonts scale) text) - scale.

(** The cache entry of a code point: bitmap, advance width, height and
    bytes per row of its glyph in the first font that contains it. *)
Definition stack_glyph (fonts : list BF2Font) (cp : Z) : option glyph :=
  match first_font_with fonts cp with
  | Some f =>
      match index f !! cp with
      | Some (_, off) =>
          Some (read f off, glyph_advance f cp, height f, bpr f)
      | None => None
      end
  | None => None
  end.

(** Every cached glyph is the one the font stack has for its code
    point. *)
Definition cache_coherent (r : TextRenderer) : Prop :=
  Forall (fun e => stack_glyph (_fonts r) e.1 = Some e.2) (_cache r).

End Text.

(** ** Concrete drivers and frames used as examples *)

Module Examples.
Import State Spi Ssd1680.

Definition white_frame : list Z := repeat 0xFF (Z.to_nat BUFFER_SIZE).
Definition black_frame : list Z := repeat 0x00 (Z.to_nat BUFFER_SIZE).

(** A driver on a write-only bus, after [display(white, full=True,
    stay_awake=True)]. *)
Definition ready_driver : SSD1680 :=
  final (display white_frame true false true
                 (new (mkSPIDevice false []) true)).

(** The same driver with [partial_threshold = 2]. *)
Definition ready_driver_2 : SSD1680 :=
  mkSSD1680 (_spi ready_driver) (set_partial_threshold 2 (_state ready_driver))
            (_prev_buffer ready_driver).

(** The 2x2 buffer of depth 2. *)
Definition fb_2x2 : Buffer.FrameBuffer :=
  match Buffer.new 2 2 2 0 with Ok fb => fb | Raise _ => Buffer.mkFrameBuffer 0 0 0 0 [] 0 false (false, false, false) 0 0 0 end.

(** The 10x10 buffer of depth 1, whose rows take two bytes each. *)
Definition fb_10x10 : Buffer.FrameBuffer :=
  match Buffer.new 10 10 1 0 with
  | Ok fb => fb
  | Raise _ => Buffer.mkFrameBuffer 0 0 0 0 [] 0 false (false, false, false) 0 0 0
  end.

(** A buffer of the size of the panel. *)
Definition fb_panel (depth rotation : Z) : Buffer.FrameBuffer :=
  match Buffer.new 128 296 depth rotation with
  | Ok fb => fb
  | Raise _ => Buffer.mkFrameBuffer 0 0 0 0 [] 0 false (false, false, false) 0 0 0
  end.

(** A proportional font with the single glyph "A", 5 pixels wide. *)
Definition font_A : Text.BF2Font :=
  Text.mkBF2Font 8 8 1 1 6 true {[ 65 := (5, 0) ]} (repeat 0 8).

(** A renderer with that font loaded. *)
Definition renderer_A : Text.TextRenderer :=
  Text.load_font font_A (Text.new 4096).

(** A proportional font with "B" only (4 pixels wide, default width
    9), a fixed-width font of width 8 with "A" and "B", and a renderer
    with the first as primary font and the second added to the
    stack. *)
Definition font_P : Text.BF2Font :=
  Text.mkBF2Font 8 8 1 1 9 true {[ 66 := (4, 0) ]} (repeat 0 8).
Definition font_F : Text.BF2Font :=
  Text.mkBF2Font 8 8 2 1 3 false {[ 65 := (5, 0); 66 := (7, 8) ]}
                 (repeat 0 16).
Definition renderer_PF : Text.TextRenderer :=
  Text.add_font font_F (Text.load_font font_P (Text.new 4096)).

(** The 8x2 buffer of depth 1 and the 4x2 buffer of depth 2. *)
Definition fb_8x2 : Buffer.FrameBuffer :=
  match Buffer.new 8 2 1 0 with
  | Ok fb => fb
  | Raise _ => Buffer.mkFrameBuffer 0 0 0 0 [] 0 false (false, false, false) 0 0 0
  end.
Definition fb_4x2 : Buffer.FrameBuffer :=
  match Buffer.new 4 2 2 0 with
  | Ok fb => fb
  | Raise _ => Buffer.mkFrameBuffer 0 0 0 0 [] 0 false (false, false, false) 0 0 0
  end.

End Examples.

(** * Properties of the refresh state machine *)

Section DriverStateFacts.
Import State.

Lemma step_keeps_invariant s s' :
  step s s' -> basemap_not_initial s -> basemap_not_initial s'.
Proof.
  unfold basemap_not_initial.
  destruct 1; destruct s as [st hb pc pt ipm ii]; cbn; try tauto.
  - destruct r; cbn; [tauto | discriminate].
  - discriminate.
Qed.

Lemma steps_keep_invariant s s' :
  rtc step s s' -> basemap_not_initial s -> basemap_not_initial s'.
Proof. induction 1; eauto using step_keeps_invariant. Qed.

Lemma needs_full_refresh_iff s :
  needs_full_refresh s = true <->
  is_initial s = true \/ has_basemap s = false
  \/ (0 < partial_threshold s /\ partial_threshold s <= partial_count s).
Proof.
  unfold needs_full_refresh.
  rewrite !orb_true_iff, andb_true_iff, negb_true_iff, Z.ltb_lt, Z.leb_le.
  tauto.
Qed.

(** C9: in every state reachable from [DriverState()] by the transition
    methods, the counter setters and the clearing of [has_basemap] done
    by [display_lut], [has_basemap] implies [not is_initial]; hence
    [can_partial_refresh()] is [has_basemap], and the guard of
    [display_regions] on [has_basemap] alone is the guard on
    [can_partial_refresh()]. *)
Theorem C9_basemap_implies_not_initial s :
  reachable s ->
  (has_basemap s = true -> is_initial s = false)
  /\ can_partial_refresh s = has_basemap s
  /\ negb (has_basemap s) = negb (can_partial_refresh s).
Proof.
  intros H.
  assert (Hinv : basemap_not_initial s).
  { apply (steps_keep_invariant _ _ H). intros Hb; discriminate Hb. }
  unfold basemap_not_initial, can_partial_refresh in *.
  destruct (has_basemap s), (is_initial s); cbn; auto.
  discriminate Hinv; reflexivity.
Qed.

Lemma C9_witness :
  reachable (on_partial_refresh_complete (on_full_refresh_complete init))
  /\ can_partial_refresh
       (on_partial_refresh_complete (on_full_refresh_complete init))
     = true.
Proof.
  assert (R : reachable
                (on_partial_refresh_complete (on_full_refresh_complete init))).
  { eapply rtc_l; [apply step_full_refresh|].
    eapply rtc_l; [apply step_partial_refresh|]. apply rtc_refl. }
  split; [exact R|].
  destruct (C9_basemap_implies_not_initial _ R) as (_ & -> & _).
  reflexivity.
Defined.

End DriverStateFacts.

(** * Properties of the driver *)

Section DriverFacts.
Import State Spi Ssd1680 CMD SEQ Examples.

Lemma all_bytes_spec P : all_bytes P = true -> forall b, is_byte b = true -> P b = true.
Proof.
  unfold all_bytes, is_byte. intros H b Hb.
  rewrite forallb_forall in H. apply H.
  unfold range. apply in_map_iff. exists (Z.to_nat b). split; [lia|].
  apply in_seq. simpl. lia.
Qed.

Lemma temperature_raw_spec d0 d1 :
  is_byte d0 = true -> is_byte d1 = true ->
  let raw := Z.lor (Z.shiftl d0 4) (Z.shiftr d1 4) in
  0 <= raw < 4096 /\ temperature_raw d0 d1 = twos_complement_12 raw.
Proof.
  intros H0 H1.
  pose (P := fun a => all_bytes (fun b =>
     let raw := Z.lor (Z.shiftl a 4) (Z.shiftr b 4) in
     (0 <=? raw) && (raw <? 4096)
     && (temperature_raw a b =? twos_complement_12 raw))).
  assert (HP : all_bytes P = true) by (vm_compute; reflexivity).
  pose proof (all_bytes_spec _ (all_bytes_spec _ HP d0 H0) d1 H1) as H.
  cbv beta zeta in H.
  apply andb_prop in H as [H Heq]. apply andb_prop in H as [Hlo Hhi].
  apply Z.leb_le in Hlo. apply Z.ltb_lt in Hhi. apply Z.eqb_eq in Heq.
  cbv zeta. auto.
Qed.

Lemma outcome_eta {E S A} (o : result A * S * list E) :
  o = (result_of o, final o, log o).
Proof. destruct o as [[r s] t]. reflexivity. Qed.

Lemma read_temperature_value d dummy d0 d1 rest :
  has_miso (_spi d) = true ->
  rx (_spi d) = dummy :: d0 :: d1 :: rest ->
  result_of (read_temperature d) = Ok (temperature_raw d0 d1 # 16).
Proof.
  destruct d as [[m r] [st hb pc pt ipm ii] pb]. cbn [_spi has_miso rx].
  intros -> ->.
  destruct st, ipm; reflexivity.
Qed.

(** C7: for every two bytes [(d0, d1)] the sensor returns,
    [read_temperature] returns [raw = (d0 << 4) | (d1 >> 4)], a 12-bit
    value, read as two's complement and divided by 16; [raw = 0xFFF]
    gives -0.0625, [raw = 0x320] gives 50, [raw = 0] gives 0, and
    [check_temperature] reports [in_range] exactly when the result lies
    in [0, 50]. *)
Theorem C7_read_temperature d dummy d0 d1 rest :
  has_miso (_spi d) = true ->
  rx (_spi d) = dummy :: d0 :: d1 :: rest ->
  is_byte d0 = true -> is_byte d1 = true ->
  let raw := Z.lor (Z.shiftl d0 4) (Z.shiftr d1 4) in
  let temp := twos_complement_12 raw # 16 in
  0 <= raw < 4096
  /\ result_of (read_temperature d) = Ok temp
  /\ (exists in_range,
        result_of (check_temperature d) = Ok (temp, in_range)
        /\ (in_range = true <-> (0 <= temp /\ temp <= 50)%Q))
  /\ (raw = 0xFFF -> temp = (-1 # 16)%Q /\ (temp == - (625 # 10000))%Q)
  /\ (raw = 0x320 -> (temp == 50)%Q)
  /\ (raw = 0x000 -> (temp == 0)%Q).
Proof.
  intros Hm Hrx H0 H1 raw temp.
  destruct (temperature_raw_spec d0 d1 H0 H1) as [Hraw Heq].
  pose proof (read_temperature_value d dummy d0 d1 rest Hm Hrx) as Hres.
  fold raw in Hraw, Heq. rewrite Heq in Hres. fold temp in Hres.
  pose proof (outcome_eta (read_temperature d)) as Hrun. rewrite Hres in Hrun.
  split; [exact Hraw|]. split; [exact Hres|]. split.
  - exists (Qle_bool (inject_Z TEMP_MIN) temp && Qle_bool temp (inject_Z TEMP_MAX)).
    split.
    + unfold check_temperature, bind. rewrite Hrun. reflexivity.
    + rewrite andb_true_iff, !Qle_bool_iff. reflexivity.
  - subst temp. clear Hrun Hres Heq Hraw. clearbody raw.
    split; [intros ->; split; reflexivity | split; intros ->; reflexivity].
Qed.

Lemma partial_step d data sa :
  needs_full_refresh (_state d) = false ->
  len data = BUFFER_SIZE ->
  exists d' t,
    display data false false sa d = (Ok 0%Q, d', t)
    /\ partial_count (_state d') = partial_count (_state d) + 1
    /\ partial_threshold (_state d') = partial_threshold (_state d)
    /\ has_basemap (_state d') = has_basemap (_state d)
    /\ is_initial (_state d') = is_initial (_state d)
    /\ update_sequences t
       = [SEQ_PARTIAL] :: (if sa then [] else [[SEQ_POWER_OFF]]).
Proof.
  intros Hnf Hlen.
  destruct d as [sp [st hb pc pt ipm ii] pb]. cbn [_state] in *.
  unfold display. rewrite Hlen. cbn [negb Z.eqb BUFFER_SIZE Pos.eqb].
  unfold _display_partial.
  unfold bind at 1. unfold Ssd1680.st at 1. unfold gets at 1. cbn [_state].
  rewrite Hnf. cbn [orb app].
  destruct st, ipm, sa, pb as [[|b pb]|];
    (eexists; eexists; split; [vm_compute; reflexivity|]; repeat split; reflexivity).
Qed.

Lemma full_step d data sa :
  needs_full_refresh (_state d) = true ->
  len data = BUFFER_SIZE ->
  exists d' t,
    display data false false sa d = (Ok 0%Q, d', t)
    /\ partial_count (_state d') = 0
    /\ has_basemap (_state d') = true
    /\ is_initial (_state d') = false
    /\ update_sequences t
       = [SEQ_FULL] :: (if sa then [] else [[SEQ_POWER_OFF]]).
Proof.
  intros Hnf Hlen.
  destruct d as [sp [st hb pc pt ipm ii] pb]. cbn [_state] in *.
  unfold display. rewrite Hlen. cbn [negb Z.eqb BUFFER_SIZE Pos.eqb].
  unfold _display_partial.
  unfold bind at 1. unfold Ssd1680.st at 1. unfold gets at 1. cbn [_state].
  rewrite Hnf. cbn [orb app].
  destruct st, ipm, sa, pb as [[|b pb]|];
    (eexists; eexists; split; [vm_compute; reflexivity|]; repeat split; reflexivity).
Qed.

Lemma partial_run calls : forall d,
  has_basemap (_state d) = true ->
  is_initial (_state d) = false ->
  partial_count (_state d) + len calls <= partial_threshold (_state d) ->
  Forall (fun c => len c.1 = BUFFER_SIZE) calls ->
  all_partial calls d
  /\ partial_count (_state (after_partials calls d))
     = partial_count (_state d) + len calls
  /\ partial_threshold (_state (after_partials calls d))
     = partial_threshold (_state d)
  /\ has_basemap (_state (after_partials calls d)) = true
  /\ is_initial (_state (after_partials calls d)) = false.
Proof.
  induction calls as [|[data sa] cs IH]; intros d Hb Hi Hc Hl.
  - cbn. unfold len. cbn. repeat split; auto; lia.
  - apply Forall_cons in Hl as [Hd Hl]. cbn [fst] in Hd.
    unfold len in Hc. cbn [length] in Hc.
    assert (Hnf : needs_full_refresh (_state d) = false).
    { destruct (needs_full_refresh (_state d)) eqn:E; [|reflexivity].
      apply needs_full_refresh_iff in E. destruct E as [E|[E|E]]; [congruence|congruence|lia]. }
    destruct (partial_step d data sa Hnf Hd)
      as (d' & t & Heq & Hpc & Hpt & Hhb & Hii & Hu).
    cbn [all_partial after_partials]. rewrite Heq.
    unfold result_of, final, log. cbn [fst snd].
    destruct (IH d') as (Ha & Hc' & Ht' & Hb' & Hi'); try congruence.
    { rewrite Hpc, Hpt. unfold len. lia. }
    cbn [is_ok]. repeat split; auto.
    + rewrite Hc', Hpc. unfold len. cbn [length]. lia.
    + congruence.
Qed.

(** C1: from a state with a basemap, not initial, [partial_count = 0]
    and a threshold [T > 0], [T] calls [display(full=False,
    force_full=False)] all take the partial path, and the next such call
    takes the full path: the byte written after [UPDATE_CTRL2] is
    [SEQ_FULL], not [SEQ_PARTIAL], and [partial_count] is 0 afterwards;
    [needs_full_refresh()] is [is_initial or not has_basemap or
    (partial_threshold > 0 and partial_count >= partial_threshold)]. *)
Theorem C1_threshold_forces_full_refresh d calls data stay_awake :
  has_basemap (_state d) = true ->
  is_initial (_state d) = false ->
  partial_count (_state d) = 0 ->
  0 < partial_threshold (_state d) ->
  len calls = partial_threshold (_state d) ->
  Forall (fun c => len c.1 = BUFFER_SIZE) calls ->
  len data = BUFFER_SIZE ->
  all_partial calls d
  /\ let o := display data false false stay_awake (after_partials calls d) in
     is_ok (result_of o) = true
     /\ update_sequences (log o)
        = [SEQ_FULL] :: (if stay_awake then [] else [[SEQ_POWER_OFF]])
     /\ ~ In [SEQ_PARTIAL] (update_sequences (log o))
     /\ partial_count (_state (final o)) = 0
     /\ (forall s, needs_full_refresh s = true <->
                   is_initial s = true \/ has_basemap s = false
                   \/ (0 < partial_threshold s
                       /\ partial_threshold s <= partial_count s)).
Proof.
  intros Hb Hi Hc Ht Hn Hl Hd.
  destruct (partial_run calls d Hb Hi ltac:(lia) Hl) as (Ha & Hc' & Ht' & Hb' & Hi').
  split; [exact Ha|]. cbv zeta.
  assert (Hnf : needs_full_refresh (_state (after_partials calls d)) = true).
  { apply needs_full_refresh_iff. right; right. lia. }
  destruct (full_step _ data stay_awake Hnf Hd)
    as (d' & t & Heq & Hpc & _ & _ & Hu).
  rewrite Heq. unfold result_of, final, log. cbn [fst snd]. rewrite Hu.
  split; [reflexivity|]. split; [reflexivity|]. split.
  { destruct stay_awake; cbn; intros [H|H]; try discriminate H; try tauto.
    destruct H as [H|[]]; discriminate H. }
  split; [exact Hpc|]. apply needs_full_refresh_iff.
Qed.

Lemma bind_run {E S A B} (m : M E S A) (k : A -> M E S B) s :
  bind m k s =
  match m s with
  | (Ok a, s1, t1) =>
      match k a s1 with (r, s2, t2) => (r, s2, t1 ++ t2) end
  | (Raise e, s1, t1) => (Raise e, s1, t1)
  end.
Proof. reflexivity. Qed.

Lemma count_cmd_app c t1 t2 :
  count_cmd c (t1 ++ t2) = (count_cmd c t1 + count_cmd c t2)%nat.
Proof.
  induction t1 as [|[c'| |] t1 IH]; cbn; auto. rewrite IH. lia.
Qed.

Lemma same_core_refl d : same_core d d.
Proof. unfold same_core; auto. Qed.

Lemma same_core_trans d1 d2 d3 :
  same_core d1 d2 -> same_core d2 d3 -> same_core d1 d3.
Proof. unfold same_core; intuition congruence. Qed.

Lemma tame_ret c {A} (a : A) : tame c (ret a).
Proof. intros d. cbn. split; [unfold same_core; cbn; auto|]. split; [reflexivity|discriminate]. Qed.

Lemma tame_bind c {A B} (m : D A) (k : A -> D B) :
  tame c m -> (forall a, tame c (k a)) -> tame c (bind m k).
Proof.
  intros Hm Hk d. rewrite bind_run.
  destruct (Hm d) as (Hc & Hn & He).
  destruct (m d) as [[[a|e] d1] t1]; cbn in *.
  - destruct (Hk a d1) as (Hc' & Hn' & He').
    destruct (k a d1) as [[r d2] t2]; cbn in *.
    split; [eapply same_core_trans; eauto|].
    split; [rewrite count_cmd_app; lia | exact He'].
  - split; [exact Hc|]. split; [exact Hn|].
    intros e' [= <-]. apply He. reflexivity.
Qed.

Lemma tame_raise c {A} : tame c (@raise wire_event SSD1680 A ValueError).
Proof. intros d. cbn. split; [unfold same_core; cbn; auto|]. split; [reflexivity|congruence]. Qed.

Lemma tame_if c {A} (b : bool) (m1 m2 : D A) :
  tame c m1 -> tame c m2 -> tame c (if b then m1 else m2).
Proof. destruct b; auto. Qed.

Lemma tame_gets c {A} (f : SSD1680 -> A) : tame c (gets f).
Proof. intros d. cbn. split; [unfold same_core; cbn; auto|]. split; [reflexivity|discriminate]. Qed.

Lemma tame_st c {A} (f : DriverState -> A) : tame c (st f).
Proof. apply tame_gets. Qed.

Lemma tame_st_do c (f : DriverState -> DriverState) :
  (forall s, has_basemap (f s) = has_basemap s
             /\ partial_count (f s) = partial_count s
             /\ partial_threshold (f s) = partial_threshold s
             /\ is_initial (f s) = is_initial s) ->
  tame c (st_do f).
Proof.
  intros Hf d. cbn. split; [apply Hf|]. split; [reflexivity|discriminate].
Qed.

Lemma tame_set_prev c p : tame c (set_prev p).
Proof. intros d. cbn. split; [unfold same_core; cbn; auto|]. split; [reflexivity|discriminate]. Qed.

Lemma fill_data_buf_short l : forall i,
  i + len l <= 4 ->
  fill_data_buf i l = Ok tt \/ fill_data_buf i l = Raise ValueError.
Proof.
  unfold len. induction l as [|b l IH]; intros i Hi; cbn [fill_data_buf]; [auto|].
  cbn [length] in Hi.
  destruct (is_byte b); cbn [negb]; [|auto].
  destruct (4 <=? i) eqn:E; [apply Z.leb_le in E; lia|].
  apply IH; lia.
Qed.

Lemma tame_write_command c cmd p :
  cmd <> c -> is_byte cmd = true -> short_payload p ->
  tame c (spi (write_command cmd p)).
Proof.
  intros Hc Hb Hp d. unfold spi, write_command.
  rewrite !bind_run. rewrite Hb. cbn.
  assert (Hcc : (if (cmd =? c)%Z then 1 else 0)%nat = 0%nat).
  { destruct (Z.eqb_spec cmd c); congruence. }
  destruct p as [|b|l|l]; cbn.
  - rewrite Hcc. split; [unfold same_core; cbn; auto|]. split; [reflexivity|discriminate].
  - destruct (is_byte b); cbn; rewrite Hcc;
      (split; [unfold same_core; cbn; auto|]; split; [reflexivity|]);
      intros e' He'; inversion He'; reflexivity.
  - destruct (fill_data_buf_short l 0 Hp) as [-> | ->]; cbn; rewrite Hcc;
      (split; [unfold same_core; cbn; auto|]; split; [reflexivity|]).
    + discriminate.
    + intros e' [= <-]. reflexivity.
  - rewrite Hcc. split; [unfold same_core; cbn; auto|]. split; [reflexivity|discriminate].
Qed.

Lemma tame_hardware_reset c : tame c (spi hardware_reset).
Proof. intros d. cbn. split; [unfold same_core; cbn; auto|]. split; [reflexivity|discriminate]. Qed.

Lemma tame_wait_ready c t : tame c (spi (wait_ready t)).
Proof. intros d. cbn. split; [unfold same_core; cbn; auto|]. split; [reflexivity|discriminate]. Qed.

Ltac tame_step :=
  first
    [ apply tame_bind; [|intros ?]
    | apply tame_ret
    | apply tame_raise
    | apply tame_st
    | apply tame_gets
    | apply tame_set_prev
    | apply tame_hardware_reset
    | apply tame_wait_ready
    | apply tame_write_command; [discriminate | reflexivity | cbn; unfold len; cbn; lia]
    | apply tame_st_do; intros []; cbn; tauto
    | apply tame_if ].

Lemma tame_set_window c x y w h :
  c = CMD_ACTIVATE \/ c = CMD_RAM_BLACK -> tame c (_set_window x y w h).
Proof. intros [-> | ->]; unfold _set_window; cbv zeta; repeat tame_step. Qed.

Lemma tame_init_partial c x y w h :
  c = CMD_ACTIVATE \/ c = CMD_RAM_BLACK -> tame c (_init_partial x y w h).
Proof.
  intros Hc. unfold _init_partial. cbv zeta.
  apply tame_bind; [tame_step|intros s].
  repeat apply tame_if;
    repeat first [apply tame_set_window; exact Hc | destruct Hc as [-> | ->]; tame_step | tame_step ].
Qed.

Ltac tame_prim :=
  intros ?; cbn; split; [unfold same_core; cbn; auto|];
  split; [reflexivity | try discriminate; intros ? [= <-]; reflexivity].

Lemma tame_prev c : tame c prev.
Proof. tame_prim. Qed.

Lemma tame_bytearray c n : tame c (@of_result wire_event SSD1680 _ (bytearray n)).
Proof. unfold bytearray. destruct (n <? 0); tame_prim. Qed.

Lemma tame_body r : tame CMD_ACTIVATE (display_regions_body r).
Proof.
  destruct r as [[[[data x] y] w] h]. unfold display_regions_body. cbv zeta.
  apply tame_if; [apply tame_raise|].
  apply tame_bind; [apply tame_set_window; auto|intros _].
  apply tame_bind; [apply tame_prev|intros p].
  apply tame_bind.
  { apply tame_if; [|apply tame_ret].
    apply tame_bind; [apply tame_bytearray|intros zeros].
    apply tame_bind; [|intros _; apply tame_set_prev].
    apply tame_write_command; [discriminate|reflexivity|exact I]. }
  intros _.
  apply tame_bind; [apply tame_write_command; [discriminate|reflexivity|exact I]|intros _].
  apply tame_bind; [apply tame_write_command; [discriminate|reflexivity|cbn; unfold len; cbn; lia]|intros _].
  apply tame_write_command; [discriminate|reflexivity|exact I].
Qed.

Lemma tame_for_each c {A} (l : list A) (body : A -> D unit) :
  (forall a, tame c (body a)) -> tame c (for_each l body).
Proof.
  intros Hb. induction l as [|a l IH]; cbn [for_each].
  - apply tame_ret.
  - apply tame_bind; [apply Hb|intros _; exact IH].
Qed.

(** A misaligned region stops the loop. *)
Lemma body_misaligned r d :
  ~ aligned r -> result_of (display_regions_body r d) = Raise ValueError.
Proof.
  destruct r as [[[[data x] y] w] h]. unfold aligned, display_regions_body.
  intros H.
  destruct (Z.eqb_spec (Z.land x 7) 0), (Z.eqb_spec (Z.land w 7) 0);
    cbn; try reflexivity. tauto.
Qed.

Lemma for_each_misaligned regions : forall d,
  Exists (fun r => ~ aligned r) regions ->
  result_of (for_each regions display_regions_body d) = Raise ValueError.
Proof.
  induction regions as [|r rs IH]; intros d H; [inversion H|].
  cbn [for_each]. rewrite bind_run.
  destruct (tame_body r d) as (_ & _ & He).
  destruct (display_regions_body r d) as [[[[]|e] d1] t1] eqn:E.
  - apply Exists_cons in H as [H|H].
    + pose proof (body_misaligned r d H) as Hr. rewrite E in Hr. discriminate Hr.
    + specialize (IH d1 H).
      destruct (for_each rs display_regions_body d1) as [[r2 d2] t2].
      exact IH.
  - cbn in *. rewrite (He e eq_refl). reflexivity.
Qed.

Lemma update_partial_run d :
  _update SEQ_PARTIAL d
  = (Ok 0%Q, d, [WCmd CMD_UPDATE_CTRL2; WData [SEQ_PARTIAL]; WCmd CMD_ACTIVATE]).
Proof. destruct d. reflexivity. Qed.

Lemma display_regions_run r rs d :
  has_basemap (_state d) = true ->
  display_regions (r :: rs) d =
  match regions_prefix (r :: rs) d with
  | (Ok _, d1, t1) =>
      (Ok 0%Q,
       mkSSD1680 (_spi d1) (on_partial_refresh_complete (_state d1))
                 (_prev_buffer d1),
       t1 ++ [WCmd CMD_UPDATE_CTRL2; WData [SEQ_PARTIAL]; WCmd CMD_ACTIVATE])
  | (Raise e, d1, t1) => (Raise e, d1, t1)
  end.
Proof.
  intros Hb. unfold display_regions, regions_prefix.
  destruct r as [[[[data x] y] w] h].
  rewrite bind_run. unfold st at 1, gets at 1. rewrite Hb. cbn [negb app].
  rewrite !bind_run.
  destruct (_init_partial x y (Some w) (Some h) d) as [[[[]|e] d1] t1]; [|reflexivity].
  rewrite !bind_run.
  destruct (for_each _ display_regions_body d1) as [[[[]|e] d2] t2]; [|reflexivity].
  rewrite bind_run, update_partial_run. cbn.
  rewrite ?app_nil_r, <- ?app_assoc. reflexivity.
Qed.

Lemma tame_prefix regions : tame CMD_ACTIVATE (regions_prefix regions).
Proof.
  destruct regions as [|[[[[data x] y] w] h] rs]; cbn [regions_prefix].
  - apply tame_ret.
  - apply tame_bind; [apply tame_init_partial; auto|intros _].
    apply tame_for_each. apply tame_body.
Qed.

Lemma prefix_misaligned regions d :
  Exists (fun r => ~ aligned r) regions ->
  result_of (regions_prefix regions d) = Raise ValueError.
Proof.
  intros H. destruct regions as [|[[[[data x] y] w] h] rs]; [inversion H|].
  cbn [regions_prefix]. rewrite bind_run.
  destruct (tame_init_partial CMD_ACTIVATE x y (Some w) (Some h) (or_introl eq_refl) d) as (_ & _ & He).
  destruct (_init_partial x y (Some w) (Some h) d) as [[[[]|e] d1] t1].
  - pose proof (for_each_misaligned _ d1 H) as Hf.
    destruct (for_each _ display_regions_body d1) as [[r2 d2] t2]. exact Hf.
  - cbn in *. rewrite (He e eq_refl). reflexivity.
Qed.

(** C3 (amended): with a basemap, a region list that holds a region
    whose [x] or [w] is not a multiple of 8 is rejected with
    [ValueError]; the partial-mode init and the regions before the
    misaligned one may already have been written, but no [ACTIVATE] is
    sent and the refresh bookkeeping ([has_basemap], [is_initial],
    [partial_count], [partial_threshold]) is unchanged. *)
Theorem C3_misaligned_region_raises_without_refresh d regions :
  has_basemap (_state d) = true ->
  Exists (fun r => ~ aligned r) regions ->
  let o := display_regions regions d in
  result_of o = Raise ValueError
  /\ count_cmd CMD_ACTIVATE (log o) = 0%nat
  /\ same_core d (final o).
Proof.
  intros Hb Hx.
  destruct regions as [|r rs]; [inversion Hx|].
  cbv zeta. rewrite (display_regions_run r rs d Hb).
  pose proof (prefix_misaligned _ d Hx) as Hr.
  destruct (tame_prefix (r :: rs) d) as (Hc & Hn & _).
  destruct (regions_prefix (r :: rs) d) as [[[[]|e] d1] t1]; cbn in *; [discriminate Hr|].
  injection Hr as ->. split; [reflexivity|]. split; [exact Hn | exact Hc].
Qed.

Lemma emits_bind c n1 n2 {A B} (m : D A) (k : A -> D B) :
  emits c n1 m -> (forall a, emits c n2 (k a)) ->
  emits c (n1 + n2) (bind m k).
Proof.
  intros Hm Hk d. rewrite bind_run. specialize (Hm d).
  destruct (m d) as [[[a|e] d1] t1]; cbn in *; [|discriminate].
  specialize (Hk a d1). destruct (k a d1) as [[r d2] t2]; cbn in *.
  intros Hok. rewrite count_cmd_app, Hm, Hk; auto.
Qed.

Lemma tame_emits c {A} (m : D A) : tame c m -> emits c 0 m.
Proof. intros H d _. apply H. Qed.

Lemma emits_raise c n {A} e : emits c n (@raise wire_event SSD1680 A e).
Proof. intros d H. discriminate H. Qed.

Lemma emits_write_command c p : emits c 1 (spi (write_command c p)).
Proof.
  intros d. unfold spi, write_command. rewrite !bind_run.
  destruct (is_byte c); cbn; [|discriminate].
  destruct p as [|b|l|l]; cbn; rewrite ?Z.eqb_refl; try reflexivity.
  - destruct (is_byte b); cbn; rewrite ?Z.eqb_refl; [reflexivity|discriminate].
  - destruct (fill_data_buf 0 l) as [[]|e]; cbn; rewrite ?Z.eqb_refl;
      [reflexivity|discriminate].
Qed.

Lemma emits_body r : emits CMD_RAM_BLACK 1 (display_regions_body r).
Proof.
  destruct r as [[[[data x] y] w] h]. unfold display_regions_body. cbv zeta.
  match goal with |- emits _ _ (if ?b then _ else _) => destruct b end;
    [apply emits_raise|].
  apply (emits_bind _ 0 1); [apply tame_emits, tame_set_window; auto|intros _].
  apply (emits_bind _ 0 1); [apply tame_emits, tame_prev|intros p].
  apply (emits_bind _ 0 1).
  { apply tame_emits. apply tame_if; [|apply tame_ret].
    apply tame_bind; [apply tame_bytearray|intros zeros].
    apply tame_bind; [|intros _; apply tame_set_prev].
    apply tame_write_command; [discriminate|reflexivity|exact I]. }
  intros _.
  apply (emits_bind _ 0 1);
    [apply tame_emits, tame_write_command; [discriminate|reflexivity|exact I]|intros _].
  apply (emits_bind _ 0 1);
    [apply tame_emits, tame_write_command;
       [discriminate|reflexivity|cbn; unfold len; cbn; lia]|intros _].
  apply emits_write_command.
Qed.

Lemma emits_for_each c {A} (l : list A) (body : A -> D unit) :
  (forall a, emits c 1 (body a)) -> emits c (length l) (for_each l body).
Proof.
  intros Hb. induction l as [|a l IH]; cbn [for_each length].
  - intros d _. reflexivity.
  - apply (emits_bind _ 1 (length l)); [apply Hb|intros _; exact IH].
Qed.

Lemma emits_prefix regions :
  emits CMD_RAM_BLACK (length regions) (regions_prefix regions).
Proof.
  destruct regions as [|[[[[data x] y] w] h] rs].
  - intros d _. reflexivity.
  - cbn [regions_prefix].
    apply (emits_bind _ 0 (S (length rs)));
      [apply tame_emits, tame_init_partial; auto|intros _].
    apply emits_for_each, emits_body.
Qed.

Lemma total_bind {A B} (m : D A) (k : A -> D B) :
  total m -> (forall a, total (k a)) -> total (bind m k).
Proof.
  intros Hm Hk d. rewrite bind_run. specialize (Hm d).
  destruct (m d) as [[[a|e] d1] t1]; cbn in *; [|discriminate].
  specialize (Hk a d1). destruct (k a d1) as [[r d2] t2]. exact Hk.
Qed.

Lemma total_write_command cmd p :
  is_byte cmd = true -> payload_ok p -> total (spi (write_command cmd p)).
Proof.
  intros Hc Hp d. unfold spi, write_command. rewrite !bind_run, Hc. cbn.
  destruct p as [|b|l|l]; cbn in *; rewrite ?Hp; reflexivity.
Qed.

Lemma byte_land v : is_byte (Z.land v 0xFF) = true.
Proof.
  change 0xFF with (Z.ones 8). rewrite Z.land_ones by lia.
  unfold is_byte. pose proof (Z.mod_pos_bound v (2 ^ 8) ltac:(lia)).
  apply andb_true_intro; split; [apply Z.leb_le|apply Z.leb_le]; lia.
Qed.

Lemma byte_shiftr v n :
  0 <= n -> 0 <= v < 256 * 2 ^ n -> is_byte (Z.shiftr v n) = true.
Proof.
  intros Hn Hv. rewrite Z.shiftr_div_pow2 by lia. unfold is_byte.
  assert (0 < 2 ^ n) by (apply Z.pow_pos_nonneg; lia).
  assert (0 <= v / 2 ^ n) by (apply Z.div_pos; lia).
  assert (v / 2 ^ n < 256) by (apply Z.div_lt_upper_bound; lia).
  apply andb_true_intro; split; apply Z.leb_le; lia.
Qed.

Lemma total_set_window x y w h :
  0 <= x <= WIDTH -> 0 <= y <= HEIGHT -> 0 <= w <= WIDTH -> 0 <= h <= HEIGHT ->
  total (_set_window x y (Some w) (Some h)).
Proof.
  unfold WIDTH, HEIGHT. intros Hx Hy Hw Hh. unfold _set_window. cbv zeta.
  assert (Hw' : 1 <= int_or (Some w) WIDTH <= 128).
  { unfold int_or, WIDTH. destruct (Z.eqb_spec w 0); lia. }
  assert (Hh' : 1 <= int_or (Some h) HEIGHT <= 296).
  { unfold int_or, HEIGHT. destruct (Z.eqb_spec h 0); lia. }
  repeat (apply total_bind; [|intros _]);
    apply total_write_command; try reflexivity; cbn [payload_ok fill_data_buf];
    rewrite ?byte_land; cbn [Z.leb Z.compare andb];
    rewrite ?(byte_shiftr _ 3), ?(byte_shiftr _ 8) by lia; reflexivity.
Qed.

Lemma total_prim {A} (m : D A) :
  (forall d, exists a d' t, m d = (Ok a, d', t)) -> total m.
Proof. intros H d. destruct (H d) as (a & d' & t & ->). reflexivity. Qed.

Ltac total_prim := apply total_prim; intros ?; eexists; eexists; eexists; reflexivity.

Lemma total_ret {A} (a : A) : total (ret a).
Proof. total_prim. Qed.
Lemma total_gets {A} (f : SSD1680 -> A) : total (gets f).
Proof. total_prim. Qed.
Lemma total_st {A} (f : DriverState -> A) : total (st f).
Proof. total_prim. Qed.
Lemma total_st_do f : total (st_do f).
Proof. total_prim. Qed.
Lemma total_set_prev p : total (set_prev p).
Proof. total_prim. Qed.
Lemma total_hardware_reset : total (spi hardware_reset).
Proof. total_prim. Qed.
Lemma total_wait_ready t : total (spi (wait_ready t)).
Proof. total_prim. Qed.
Lemma total_if {A} (b : bool) (m1 m2 : D A) :
  total m1 -> total m2 -> total (if b then m1 else m2).
Proof. destruct b; auto. Qed.

Ltac total_step :=
  first
    [ apply total_bind; [|intros ?]
    | apply total_ret | apply total_st | apply total_gets | apply total_st_do
    | apply total_set_prev | apply total_hardware_reset | apply total_wait_ready
    | apply total_write_command; [reflexivity | cbn; try reflexivity; try exact I]
    | apply total_if ].

Lemma total_init_partial x y w h :
  0 <= x <= WIDTH -> 0 <= y <= HEIGHT -> 0 <= w <= WIDTH -> 0 <= h <= HEIGHT ->
  total (_init_partial x y (Some w) (Some h)).
Proof.
  intros Hx Hy Hw Hh. unfold _init_partial. cbv zeta.
  assert (Hw' : 0 <= int_or (Some w) WIDTH <= WIDTH).
  { unfold int_or, WIDTH in *. destruct (Z.eqb_spec w 0); lia. }
  assert (Hh' : 0 <= int_or (Some h) HEIGHT <= HEIGHT).
  { unfold int_or, HEIGHT in *. destruct (Z.eqb_spec h 0); lia. }
  pose proof (total_set_window x y _ _ Hx Hy Hw' Hh') as Hsw.
  apply total_bind; [total_step|intros s].
  repeat apply total_if; repeat first [exact Hsw | total_step].
Qed.

Lemma land7_div8 v : Z.land v 7 = 0 -> v = 8 * (v / 8).
Proof.
  change 7 with (Z.ones 3). rewrite Z.land_ones by lia.
  change (2 ^ 3) with 8. intros H. pose proof (Z.div_mod v 8 ltac:(lia)). lia.
Qed.

Lemma total_body r :
  aligned r -> in_panel r -> total (display_regions_body r).
Proof.
  destruct r as [[[[data x] y] w] h]. unfold aligned, in_panel.
  intros [Hax Haw] (Hx & Hw & Hxw & Hy & Hh & Hyh).
  unfold display_regions_body. cbv zeta.
  rewrite Hax, Haw. cbn [Z.eqb negb orb].
  unfold WIDTH, HEIGHT in *.
  apply total_bind; [apply total_set_window; unfold WIDTH, HEIGHT; lia|intros _].
  apply total_bind; [total_step|intros p].
  apply total_bind.
  { apply total_if; [|total_step].
    unfold bytearray.
    assert (Hn : 0 <= w / 8 * h).
    { apply Z.mul_nonneg_nonneg; [apply Z.div_pos|]; lia. }
    destruct (Z.ltb_spec (w / 8 * h) 0); [lia|]. cbn [of_result].
    repeat total_step. }
  intros _.
  apply total_bind.
  { apply total_write_command; [reflexivity|]. cbn. apply byte_shiftr; lia. }
  intros _.
  apply total_bind.
  { apply total_write_command; [reflexivity|]. cbn [payload_ok fill_data_buf].
    rewrite byte_land. cbn [Z.leb Z.compare]. rewrite byte_shiftr by lia. reflexivity. }
  intros _. apply total_write_command; [reflexivity|exact I].
Qed.

Lemma total_for_each {A} (l : list A) (body : A -> D unit) :
  Forall (fun a => total (body a)) l -> total (for_each l body).
Proof.
  induction 1; cbn [for_each]; [apply total_ret|].
  apply total_bind; auto.
Qed.

Lemma total_prefix regions :
  Forall aligned regions -> Forall in_panel regions ->
  total (regions_prefix regions).
Proof.
  intros Ha Hp.
  destruct regions as [|[[[[data x] y] w] h] rs]; cbn [regions_prefix];
    [apply total_ret|].
  apply total_bind.
  - apply Forall_cons in Hp as [(Hx & Hw & Hxw & Hy & Hh & Hyh) _].
    apply total_init_partial; lia.
  - intros _. apply total_for_each.
    rewrite Forall_forall in *. intros r Hr. apply total_body; auto.
Qed.

(** C4 (amended): with a basemap, [display_regions] on the empty list
    returns at once and sends nothing (no [ACTIVATE]); on a non-empty
    list of 8-aligned regions inside the panel it returns, and whenever
    it returns on a non-empty list the trace ends with
    [UPDATE_CTRL2(SEQ_PARTIAL)], [ACTIVATE], this being the only
    [ACTIVATE] and coming after the [RAM_BLACK] write of every
    region. *)
Theorem C4_one_activate_after_all_ram_writes d regions :
  has_basemap (_state d) = true ->
  let o := display_regions regions d in
  (regions = [] -> o = (Ok 0%Q, d, []))
  /\ (Forall aligned regions -> Forall in_panel regions ->
      is_ok (result_of o) = true)
  /\ (regions <> [] -> is_ok (result_of o) = true ->
      exists pre,
        log o = pre ++ [WCmd CMD_UPDATE_CTRL2; WData [SEQ_PARTIAL];
                        WCmd CMD_ACTIVATE]
        /\ count_cmd CMD_ACTIVATE pre = 0%nat
        /\ count_cmd CMD_RAM_BLACK pre = length regions
        /\ count_cmd CMD_ACTIVATE (log o) = 1%nat
        /\ partial_count (_state (final o)) = partial_count (_state d) + 1).
Proof.
  intros Hb. cbv zeta. split; [|split].
  - intros ->. unfold display_regions. rewrite bind_run.
    unfold st, gets. rewrite Hb. reflexivity.
  - intros Ha Hp. destruct regions as [|r rs].
    + unfold display_regions. rewrite bind_run.
      unfold st, gets. rewrite Hb. reflexivity.
    + rewrite (display_regions_run r rs d Hb).
      pose proof (total_prefix _ Ha Hp d) as Ht.
      destruct (regions_prefix (r :: rs) d) as [[[[]|e] d1] t1];
        [reflexivity|discriminate Ht].
  - intros Hne. destruct regions as [|r rs]; [congruence|].
    rewrite (display_regions_run r rs d Hb).
    destruct (tame_prefix (r :: rs) d) as (Hc & Hn & _).
    pose proof (emits_prefix (r :: rs) d) as He.
    destruct (regions_prefix (r :: rs) d) as [[[[]|e] d1] t1]; cbn in *;
      [|discriminate].
    intros _. exists t1. split; [reflexivity|]. split; [exact Hn|].
    split; [apply He; reflexivity|]. split.
    + rewrite count_cmd_app, Hn. reflexivity.
    + destruct Hc as (_ & -> & _). reflexivity.
Qed.

(** The full-refresh path with a non-empty LUT returns, asks for the
    custom-LUT update sequence, and leaves [has_basemap = True]:
    [_display_full] runs [on_full_refresh_complete()] and does not
    clear the flag. *)
Lemma display_full_with_lut_keeps_basemap d data b lut stay_awake :
  let o := _display_full data (Some (b :: lut)) stay_awake d in
  is_ok (result_of o) = true
  /\ hd_error (update_sequences (log o)) = Some [SEQ_CUSTOM_LUT]
  /\ has_basemap (_state (final o)) = true.
Proof.
  destruct d as [sp [st hb pc pt ipm ii] pb].
  destruct st, ipm, stay_awake, pb as [[|x pb]|]; vm_compute; auto.
Qed.

Lemma C3_counterexample :
  let o := display_regions [(repeat 0xFF 8, 4, 0, 8, 8)] ready_driver in
  has_basemap (_state ready_driver) = true
  /\ result_of o = Raise ValueError
  /\ log o <> []
  /\ _state (final o) <> _state ready_driver.
Proof. vm_compute. repeat split; discriminate. Qed.

Lemma C3_witness :
  result_of (display_regions [(repeat 0xFF 8, 0, 0, 8, 8);
                              (repeat 0xFF 8, 4, 0, 8, 8)] ready_driver)
  = Raise ValueError.
Proof.
  apply (C3_misaligned_region_raises_without_refresh ready_driver).
  - vm_compute. reflexivity.
  - apply Exists_cons_tl, Exists_cons_hd. unfold aligned. vm_compute.
    intros [H _]. discriminate H.
Defined.

Lemma C4_counterexample :
  has_basemap (_state ready_driver) = true
  /\ count_cmd CMD_ACTIVATE (log (display_regions [] ready_driver)) <> 1%nat.
Proof. vm_compute. split; [reflexivity|discriminate]. Qed.

Lemma C4_witness :
  count_cmd CMD_ACTIVATE
    (log (display_regions [(repeat 0x00 8, 0, 0, 8, 8);
                           (repeat 0x00 8, 16, 8, 8, 8)] ready_driver))
  = 1%nat.
Proof.
  destruct (C4_one_activate_after_all_ram_writes ready_driver
              [(repeat 0x00 8, 0, 0, 8, 8); (repeat 0x00 8, 16, 8, 8, 8)])
    as (_ & Hok & Hshape).
  - vm_compute. reflexivity.
  - destruct Hshape as (pre & _ & _ & _ & H & _).
    + discriminate.
    + apply Hok; repeat constructor; vm_compute; congruence.
    + exact H.
Defined.

Lemma C1_witness :
  partial_count
    (_state (final (display white_frame false false true
                      (after_partials [(black_frame, true); (white_frame, false)]
                                      ready_driver_2))))
  = 0.
Proof.
  apply (C1_threshold_forces_full_refresh ready_driver_2
           [(black_frame, true); (white_frame, false)] white_frame true);
    try (vm_compute; reflexivity); try lia.
  repeat constructor.
Defined.

Lemma C7_witness :
  result_of (read_temperature (new (mkSPIDevice true [0x00; 0xFF; 0xF0]) true))
  = Ok (-1 # 16)%Q.
Proof.
  apply (C7_read_temperature (new (mkSPIDevice true [0x00; 0xFF; 0xF0]) true)
           0x00 0xFF 0xF0 []); reflexivity.
Defined.

End DriverFacts.

(** * Properties of the driver's operations *)

Section DriverOperations.
Import State Spi Ssd1680 CMD SEQ Examples.

(** X1: calls with bad arguments or on a driver that cannot serve them are
    refused before anything is sent. *)
Theorem X1_refused_calls_send_nothing d :
  (forall data full force_full stay_awake,
      len data <> BUFFER_SIZE ->
      display data full force_full stay_awake d = (Raise ValueError, d, []))
  /\ (forall regions,
        has_basemap (_state d) = false ->
        display_regions regions d = (Raise RuntimeError, d, []))
  /\ (has_miso (_spi d) = false ->
      read_temperature d = (Raise RuntimeError, d, [])
      /\ check_temperature d = (Raise RuntimeError, d, [])).
Proof.
  split; [|split].
  - intros data full ff sa H. unfold display.
    destruct (Z.eqb_spec (len data) BUFFER_SIZE); [contradiction|reflexivity].
  - intros regions H. unfold display_regions. rewrite bind_run.
    unfold st, gets. rewrite H. reflexivity.
  - intros H.
    assert (Hr : read_temperature d = (Raise RuntimeError, d, [])).
    { unfold read_temperature. rewrite bind_run. unfold gets. rewrite H. reflexivity. }
    split; [exact Hr|]. unfold check_temperature. rewrite bind_run, Hr. reflexivity.
Qed.

Lemma X1_witness :
  display [] true false false ready_driver
  = (Raise ValueError, ready_driver, []).
Proof.
  refine (proj1 (X1_refused_calls_send_nothing ready_driver)
            [] true false false _).
  vm_compute. discriminate.
Defined.

Lemma display_lut_run d lut black red vgh vsh1 vsh2 vsl vcom :
  is_byte vgh = true -> is_byte vsh1 = true -> is_byte vsh2 = true ->
  is_byte vsl = true -> is_byte vcom = true ->
  exists d' t,
    display_lut lut black red vgh vsh1 vsh2 vsl vcom d = (Ok 0%Q, d', t)
    /\ _state d'
       = set_has_basemap false
           (set_in_partial_mode false (set_state READY (_state d)))
    /\ _prev_buffer d' = _prev_buffer d
    /\ update_sequences t = [[SEQ_CUSTOM_LUT]].
Proof.
  intros H1 H2 H3 H4 H5.
  destruct d as [sp [st hb pc pt ipm ii] pb].
  unfold display_lut, _set_waveform.
  destruct st, ipm;
    cbv - [is_byte slice truthy_opt default Z.land Z.shiftr];
    rewrite ?H1, ?H2, ?H3, ?H4, ?H5;
    (eexists; eexists; split; [vm_compute; reflexivity|]);
    repeat split; try reflexivity.
Qed.

Lemma bind_ok_inv {A B} (m : D A) (k : A -> D B) d :
  is_ok (result_of (bind m k d)) = true ->
  exists a d1 t1,
    m d = (Ok a, d1, t1)
    /\ is_ok (result_of (k a d1)) = true
    /\ final (bind m k d) = final (k a d1).
Proof.
  unfold bind. destruct (m d) as [[[a|e] d1] t1]; [|discriminate].
  intros H. exists a, d1, t1. split; [reflexivity|].
  destruct (k a d1) as [[r d2] t2]. auto.
Qed.

Lemma display_lut_clears_basemap d lut black red vgh vsh1 vsh2 vsl vcom :
  let o := display_lut lut black red vgh vsh1 vsh2 vsl vcom d in
  is_ok (result_of o) = true -> has_basemap (_state (final o)) = false.
Proof.
  cbv zeta. unfold display_lut. intros H.
  do 5 (apply bind_ok_inv in H as (? & ? & ? & _ & H & ->)).
  apply bind_ok_inv in H as (u & d6 & t6 & Heq & _ & ->).
  injection Heq as _ <- _. reflexivity.
Qed.

Lemma display_never_custom_lut d data full force_full stay_awake :
  ~ In [SEQ_CUSTOM_LUT]
       (update_sequences (log (display data full force_full stay_awake d))).
Proof.
  unfold display.
  destruct (len data =? BUFFER_SIZE); cbn [negb]; [|cbn; tauto].
  destruct d as [sp [st hb pc pt ipm ii] pb].
  assert (Hfull : forall sa,
    ~ In [SEQ_CUSTOM_LUT]
         (update_sequences
            (log (_display_full data None sa
                    (mkSSD1680 sp (mkDriverState st hb pc pt ipm ii) pb))))).
  { intros sa. destruct st, ipm, sa, pb as [[|b pb]|];
      cbv - [slice_set len]; intuition discriminate. }
  destruct full; [apply Hfull|].
  unfold _display_partial. unfold bind at 1. unfold Ssd1680.st at 1.
  unfold gets at 1. cbn [_state app].
  destruct (needs_full_refresh _ || force_full).
  - pose proof (Hfull stay_awake) as H.
    destruct (_display_full data None stay_awake _) as [[r d'] t]. exact H.
  - destruct st, ipm, stay_awake, pb as [[|b pb]|];
      cbv - [slice_set len]; intuition discriminate.
Qed.

(** C2 (amended): a refresh through [display_lut], and so through
    [display_gray], leaves [has_basemap = False] whenever the call
    returns; with byte-sized voltages it does return, having run the
    custom-LUT update sequence and no other.  [display] never runs
    that sequence: it hands no LUT to the refresh paths.  The
    full-refresh path itself, given a non-empty LUT, runs the
    custom-LUT sequence and leaves [has_basemap = True]. *)
Theorem C2_custom_lut_refresh_and_basemap d :
  (forall lut black red vgh vsh1 vsh2 vsl vcom,
      let o := display_lut lut black red vgh vsh1 vsh2 vsl vcom d in
      (is_ok (result_of o) = true -> has_basemap (_state (final o)) = false)
      /\ (is_byte vgh = true -> is_byte vsh1 = true -> is_byte vsh2 = true ->
          is_byte vsl = true -> is_byte vcom = true ->
          is_ok (result_of o) = true
          /\ update_sequences (log o) = [[SEQ_CUSTOM_LUT]]))
  /\ (forall black_plane red_plane,
        let o := display_gray black_plane red_plane d in
        is_ok (result_of o) = true
        /\ update_sequences (log o) = [[SEQ_CUSTOM_LUT]]
        /\ has_basemap (_state (final o)) = false)
  /\ (forall data full force_full stay_awake,
        ~ In [SEQ_CUSTOM_LUT]
             (update_sequences
                (log (display data full force_full stay_awake d))))
  /\ (forall data b lut stay_awake,
        let o := _display_full data (Some (b :: lut)) stay_awake d in
        is_ok (result_of o) = true
        /\ hd_error (update_sequences (log o)) = Some [SEQ_CUSTOM_LUT]
        /\ has_basemap (_state (final o)) = true).
Proof.
  assert (Hrun : forall lut black red vgh vsh1 vsh2 vsl vcom,
    is_byte vgh = true -> is_byte vsh1 = true -> is_byte vsh2 = true ->
    is_byte vsl = true -> is_byte vcom = true ->
    let o := display_lut lut black red vgh vsh1 vsh2 vsl vcom d in
    is_ok (result_of o) = true
    /\ update_sequences (log o) = [[SEQ_CUSTOM_LUT]]).
  { intros lut black red vgh vsh1 vsh2 vsl vcom H1 H2 H3 H4 H5.
    destruct (display_lut_run d lut black red vgh vsh1 vsh2 vsl vcom
                H1 H2 H3 H4 H5) as (d' & t & Heq & _ & _ & Hu).
    cbv zeta. rewrite Heq. split; [reflexivity|exact Hu]. }
  split; [|split; [|split]].
  - intros lut black red vgh vsh1 vsh2 vsl vcom. cbv zeta.
    split; [apply display_lut_clears_basemap|apply Hrun].
  - intros black_plane red_plane. cbv zeta. unfold display_gray.
    destruct (Hrun LUT.LUT_4GRAY black_plane (Some red_plane) DEFAULT_VGH
                DEFAULT_VSH1 DEFAULT_VSH2 DEFAULT_VSL DEFAULT_VCOM)
      as [Hok Hu]; try reflexivity.
    split; [exact Hok|]. split; [exact Hu|].
    apply display_lut_clears_basemap. exact Hok.
  - apply display_never_custom_lut.
  - intros data b lut stay_awake.
    apply display_full_with_lut_keeps_basemap.
Qed.

Lemma C2_counterexample :
  let o := _display_full white_frame (Some LUT.LUT_4GRAY) false
                         (new (mkSPIDevice false []) true) in
  is_ok (result_of o) = true
  /\ In [SEQ_CUSTOM_LUT] (update_sequences (log o))
  /\ has_basemap (_state (final o)) <> false.
Proof. vm_compute. split; [reflexivity|]. split; [auto|discriminate]. Qed.

Lemma C2_witness :
  has_basemap
    (_state (final (display_lut LUT.LUT_4GRAY white_frame None DEFAULT_VGH
                      DEFAULT_VSH1 DEFAULT_VSH2 DEFAULT_VSL DEFAULT_VCOM
                      ready_driver)))
  = false.
Proof.
  refine (proj1 (proj1 (C2_custom_lut_refresh_and_basemap ready_driver)
                   LUT.LUT_4GRAY white_frame None DEFAULT_VGH DEFAULT_VSH1
                   DEFAULT_VSH2 DEFAULT_VSL DEFAULT_VCOM) _).
  vm_compute. reflexivity.
Defined.

(** X2: a custom-LUT refresh with byte-sized voltages returns, runs the
    custom-LUT update sequence without going to sleep, clears the
    basemap, and so makes the next partial request a full refresh. *)
Theorem X2_custom_lut_then_partial_is_full
    d lut black red vgh vsh1 vsh2 vsl vcom data stay_awake :
  is_byte vgh = true -> is_byte vsh1 = true -> is_byte vsh2 = true ->
  is_byte vsl = true -> is_byte vcom = true ->
  len data = BUFFER_SIZE ->
  let o1 := display_lut lut black red vgh vsh1 vsh2 vsl vcom d in
  let o2 := display data false false stay_awake (final o1) in
  is_ok (result_of o1) = true
  /\ update_sequences (log o1) = [[SEQ_CUSTOM_LUT]]
  /\ has_basemap (_state (final o1)) = false
  /\ is_sleeping (_state (final o1)) = false
  /\ _prev_buffer (final o1) = _prev_buffer d
  /\ is_ok (result_of o2) = true
  /\ update_sequences (log o2)
     = [SEQ_FULL] :: (if stay_awake then [] else [[SEQ_POWER_OFF]])
  /\ has_basemap (_state (final o2)) = true.
Proof.
  intros H1 H2 H3 H4 H5 Hl.
  destruct (display_lut_run d lut black red vgh vsh1 vsh2 vsl vcom H1 H2 H3 H4 H5)
    as (d' & t & Heq & Hs & Hp & Hu).
  cbv zeta. rewrite Heq. unfold result_of, final, log. cbn [fst snd].
  assert (Hnf : needs_full_refresh (_state d') = true).
  { rewrite Hs. apply needs_full_refresh_iff. right; left. reflexivity. }
  destruct (full_step d' data stay_awake Hnf Hl) as (d2 & t2 & Heq2 & _ & Hb & _ & Hu2).
  rewrite Heq2. cbn [fst snd is_ok]. rewrite Hs.
  repeat split; auto.
Qed.

Lemma X2_witness :
  update_sequences
    (log (display white_frame false false true
            (final (display_gray white_frame black_frame ready_driver))))
  = [[SEQ_FULL]].
Proof.
  unfold display_gray.
  apply (X2_custom_lut_then_partial_is_full ready_driver LUT.LUT_4GRAY
           white_frame (Some black_frame) DEFAULT_VGH DEFAULT_VSH1
           DEFAULT_VSH2 DEFAULT_VSL DEFAULT_VCOM white_frame true);
    vm_compute; reflexivity.
Defined.

Lemma slice_set_all (b data : list Z) : slice_set b 0 (len b) data = data.
Proof.
  unfold slice_set, clamp.
  assert (Hl : 0 <= len b) by (unfold len; lia).
  destruct (Z.ltb_spec (len b) 0); [lia|]. cbn [Z.ltb Z.compare].
  rewrite (Z.min_l 0 (len b)) by lia. rewrite Z.min_id.
  rewrite Z.max_r by lia. cbn [Z.to_nat take app].
  unfold len. rewrite Nat2Z.id, drop_all, app_nil_r. reflexivity.
Qed.

(** X3: a full refresh of a 4736-byte frame returns from every state of
    the driver: the controller is initialised again (one [SW_RESET])
    unless the driver was ready and not in partial mode, both RAMs
    receive the frame, the full update sequence is run, the frame
    becomes the previous frame when the driver keeps one, and the
    state has a basemap with the partial counter at 0. *)
Theorem X3_full_refresh_establishes_basemap d data stay_awake :
  len data = BUFFER_SIZE ->
  let o := display data true false stay_awake d in
  is_ok (result_of o) = true
  /\ _state (final o)
     = mkDriverState (if stay_awake then READY else SLEEPING) true 0
                     (partial_threshold (_state d)) false false
  /\ needs_full_refresh (_state (final o)) = false
  /\ _prev_buffer (final o)
     = (if truthy_opt (_prev_buffer d) then Some data else _prev_buffer d)
  /\ payloads CMD_RAM_BLACK (log o) = [data]
  /\ payloads CMD_RAM_RED (log o) = [data]
  /\ payloads CMD_UPDATE_CTRL2 (log o)
     = [SEQ_FULL] :: (if stay_awake then [] else [[SEQ_POWER_OFF]])
  /\ payloads CMD_DEEP_SLEEP (log o)
     = (if stay_awake then [] else [[SLEEP_MODE_1]])
  /\ count_cmd CMD_SW_RESET (log o)
     = (if is_ready (_state d) && negb (in_partial_mode (_state d))
        then 0 else 1)%nat.
Proof.
  intros Hlen. destruct d as [sp [st hb pc pt ipm ii] pb].
  cbv zeta. unfold display. rewrite Hlen.
  cbn [negb Z.eqb BUFFER_SIZE Pos.eqb].
  assert (Hnf : forall s, needs_full_refresh (mkDriverState s true 0 pt false false) = false).
  { intros s. unfold needs_full_refresh. cbn.
    destruct (Z.ltb_spec 0 pt), (Z.leb_spec pt 0); try reflexivity; lia. }
  destruct st, ipm, stay_awake, pb as [[|b pb]|];
    cbv - [slice_set len needs_full_refresh]; rewrite ?slice_set_all, ?Hnf;
    repeat split; reflexivity.
Qed.

Lemma X3_witness :
  _prev_buffer (final (display black_frame true false false ready_driver))
  = Some black_frame.
Proof.
  apply (X3_full_refresh_establishes_basemap ready_driver black_frame false).
  vm_compute. reflexivity.
Defined.

Lemma unbounded_partial_run calls : forall d,
  has_basemap (_state d) = true ->
  is_initial (_state d) = false ->
  partial_threshold (_state d) <= 0 ->
  Forall (fun c => len c.1 = BUFFER_SIZE) calls ->
  all_partial calls d
  /\ partial_count (_state (after_partials calls d))
     = partial_count (_state d) + len calls
  /\ has_basemap (_state (after_partials calls d)) = true.
Proof.
  induction calls as [|[data sa] cs IH]; intros d Hb Hi Ht Hl.
  - cbn. unfold len. cbn. repeat split; auto; lia.
  - apply Forall_cons in Hl as [Hd Hl]. cbn [fst] in Hd.
    assert (Hnf : needs_full_refresh (_state d) = false).
    { destruct (needs_full_refresh (_state d)) eqn:E; [|reflexivity].
      apply needs_full_refresh_iff in E.
      destruct E as [E|[E|E]]; [congruence|congruence|lia]. }
    destruct (partial_step d data sa Hnf Hd)
      as (d' & t & Heq & Hpc & Hpt & Hhb & Hii & Hu).
    cbn [all_partial after_partials]. rewrite Heq.
    unfold result_of, final, log. cbn [fst snd].
    destruct (IH d') as (Ha & Hc' & Hb'); try congruence.
    cbn [is_ok]. repeat split; auto.
    rewrite Hc', Hpc. unfold len. cbn [length]. lia.
Qed.

(** X4: with [partial_threshold <= 0] the automatic escalation is off: from
    a state with a basemap, any run of partial requests, however long,
    stays on the partial path and only counts up. *)
Theorem X4_threshold_zero_never_escalates d calls :
  has_basemap (_state d) = true ->
  is_initial (_state d) = false ->
  partial_threshold (_state d) <= 0 ->
  Forall (fun c => len c.1 = BUFFER_SIZE) calls ->
  all_partial calls d
  /\ partial_count (_state (after_partials calls d))
     = partial_count (_state d) + len calls
  /\ needs_full_refresh (_state (after_partials calls d)) = false.
Proof.
  intros Hb Hi Ht Hl.
  destruct (unbounded_partial_run calls d Hb Hi Ht Hl) as (Ha & Hc & Hb').
  split; [exact Ha|]. split; [exact Hc|].
  clear Ha Hc. revert d Hb Hi Ht Hl Hb'.
  induction calls as [|[data sa] cs IH]; intros d Hb Hi Ht Hl Hb'.
  - cbn. destruct (needs_full_refresh (_state d)) eqn:E; [|reflexivity].
    apply needs_full_refresh_iff in E.
    destruct E as [E|[E|E]]; [congruence|congruence|lia].
  - apply Forall_cons in Hl as [Hd Hl]. cbn [fst] in Hd.
    assert (Hnf : needs_full_refresh (_state d) = false).
    { destruct (needs_full_refresh (_state d)) eqn:E; [|reflexivity].
      apply needs_full_refresh_iff in E.
      destruct E as [E|[E|E]]; [congruence|congruence|lia]. }
    destruct (partial_step d data sa Hnf Hd)
      as (d' & t & Heq & Hpc & Hpt & Hhb & Hii & Hu).
    cbn [after_partials] in *. rewrite Heq in *.
    unfold final in *. cbn [fst snd] in *.
    apply IH; auto; congruence.
Qed.

Lemma X4_witness :
  needs_full_refresh
    (_state (after_partials
               [(black_frame, true); (white_frame, true); (black_frame, false)]
               (mkSSD1680 (_spi ready_driver)
                  (set_partial_threshold 0 (_state ready_driver))
                  (_prev_buffer ready_driver))))
  = false.
Proof.
  apply X4_threshold_zero_never_escalates;
    try (vm_compute; reflexivity).
  - vm_compute. discriminate.
  - repeat constructor.
Defined.

(** X5: [sleep] sends the power-off sequence and [DEEP_SLEEP] once; asked
    again while sleeping it does nothing.  Sleeping without RAM
    retention drops the basemap.  [wake] resets a sleeping controller
    and does nothing to one that is awake. *)
Theorem X5_sleep_and_wake d retain_ram :
  let o := sleep retain_ram d in
  (is_sleeping (_state d) = true -> o = (Ok tt, d, []))
  /\ (is_sleeping (_state d) = false ->
      result_of o = Ok tt
      /\ log o = [WCmd CMD_UPDATE_CTRL2; WData [SEQ_POWER_OFF];
                  WCmd CMD_ACTIVATE; WCmd CMD_DEEP_SLEEP;
                  WData [if retain_ram then SLEEP_MODE_1 else SLEEP_MODE_2]]
      /\ _state (final o) = on_sleep retain_ram (_state d)
      /\ has_basemap (_state (final o)) = has_basemap (_state d) && retain_ram)
  /\ (forall r, sleep r (final o) = (Ok tt, final o, []))
  /\ (wake (final o)
      = (Ok tt,
         mkSSD1680 (_spi (final o)) (on_wake (_state (final o)))
                   (_prev_buffer (final o)),
         [WReset]))
  /\ (is_sleeping (_state d) = false -> wake d = (Ok tt, d, [])).
Proof.
  destruct d as [sp [st hb pc pt ipm ii] pb].
  destruct st, retain_ram, hb; cbv zeta; cbn;
    repeat split; intros; try discriminate; try reflexivity.
Qed.

Lemma X5_witness :
  log (sleep true ready_driver)
  = [WCmd CMD_UPDATE_CTRL2; WData [SEQ_POWER_OFF]; WCmd CMD_ACTIVATE;
     WCmd CMD_DEEP_SLEEP; WData [SLEEP_MODE_1]].
Proof.
  refine (proj1 (proj2 (proj1 (proj2 (X5_sleep_and_wake ready_driver true)) _))).
  vm_compute. reflexivity.
Defined.

(** X6: a partial refresh with a previous frame [old] kept by the driver
    sends [old] to RED RAM, then the new frame to BW RAM, then the
    partial update sequence; the new frame becomes the previous frame.
    A driver that keeps no previous frame writes BW RAM only. *)
Theorem X6_partial_refresh_is_differential d data stay_awake :
  needs_full_refresh (_state d) = false ->
  len data = BUFFER_SIZE ->
  let o := display data false false stay_awake d in
  is_ok (result_of o) = true
  /\ payloads CMD_RAM_BLACK (log o) = [data]
  /\ payloads CMD_UPDATE_CTRL2 (log o)
     = [SEQ_PARTIAL] :: (if stay_awake then [] else [[SEQ_POWER_OFF]])
  /\ (forall old, _prev_buffer d = Some old -> old <> [] ->
        payloads CMD_RAM_RED (log o) = [old]
        /\ _prev_buffer (final o) = Some data
        /\ exists pre post,
             log o = pre ++ [WCmd CMD_RAM_RED; WData old; WCmd CMD_RAM_BLACK;
                             WData data; WCmd CMD_UPDATE_CTRL2;
                             WData [SEQ_PARTIAL]; WCmd CMD_ACTIVATE] ++ post)
  /\ (_prev_buffer d = None ->
        count_cmd CMD_RAM_RED (log o) = 0%nat
        /\ _prev_buffer (final o) = None).
Proof.
  intros Hnf Hlen. destruct d as [sp [st hb pc pt ipm ii] pb].
  cbn [_state _prev_buffer] in *. cbv zeta.
  remember (display data false false stay_awake
              (mkSSD1680 sp (mkDriverState st hb pc pt ipm ii) pb)) as o eqn:Ho.
  unfold display in Ho. rewrite Hlen in Ho.
  cbn [negb Z.eqb BUFFER_SIZE Pos.eqb] in Ho.
  unfold _display_partial in Ho.
  unfold bind at 1 in Ho. unfold Ssd1680.st at 1 in Ho.
  unfold gets at 1 in Ho. cbn [_state] in Ho.
  rewrite Hnf in Ho. cbn [orb app] in Ho.
  destruct st, ipm, stay_awake, pb as [[|b pb]|];
    cbv - [slice_set len] in Ho; rewrite ?slice_set_all in Ho; subst o;
    (split; [reflexivity|]); (split; [reflexivity|]); (split; [reflexivity|]);
    split.
  all: try (intros Hn; try discriminate Hn; split; reflexivity).
  all: intros old Hold Hne; inversion Hold; subst; try congruence.
  all: split; [reflexivity|]; split; [reflexivity|].
  all: unfold log; cbn [snd].
  all: match goal with
       | |- exists pre post, ?l = _ =>
           first
             [ exists (firstn 29 l), (skipn 36 l); reflexivity
             | exists (firstn 16 l), (skipn 23 l); reflexivity
             | exists (firstn 18 l), (skipn 25 l); reflexivity ]
       end.
Qed.

Lemma X6_witness :
  payloads CMD_RAM_RED (log (display black_frame false false true ready_driver))
  = [white_frame].
Proof.
  refine (proj1 (proj1 (proj2 (proj2 (proj2
            (X6_partial_refresh_is_differential ready_driver black_frame true
               _ _)))) white_frame _ _)).
  - vm_compute. reflexivity.
  - vm_compute. reflexivity.
  - vm_compute. reflexivity.
  - vm_compute. discriminate.
Defined.

Section Preserves.
Variable P : DriverState -> Prop.

Lemma preserves_ret {A} (a : A) : preserves P (ret a).
Proof. intros d H. exact H. Qed.

Lemma preserves_raise {A} e : preserves P (@raise wire_event SSD1680 A e).
Proof. intros d H. exact H. Qed.

Lemma preserves_gets {A} (f : SSD1680 -> A) : preserves P (gets f).
Proof. intros d H. exact H. Qed.

Lemma preserves_of_result {A} (r : result A) :
  preserves P (@of_result wire_event SSD1680 A r).
Proof. destruct r; intros d H; exact H. Qed.

Lemma preserves_bind {A B} (m : D A) (k : A -> D B) :
  preserves P m -> (forall a, preserves P (k a)) -> preserves P (bind m k).
Proof.
  intros Hm Hk d H. unfold bind. specialize (Hm d H).
  destruct (m d) as [[[a|e] d1] t1]; cbn in *; [|exact Hm].
  specialize (Hk a d1 Hm). destruct (k a d1) as [[r d2] t2]. exact Hk.
Qed.

Lemma preserves_spi {A} (m : Spi.T A) : preserves P (spi m).
Proof. intros d H. unfold spi. destruct (m (_spi d)) as [[r sp] t]. exact H. Qed.

Lemma preserves_st_do (f : DriverState -> DriverState) :
  (forall s, P s -> P (f s)) -> preserves P (st_do f).
Proof. intros Hf d H. apply Hf, H. Qed.

Lemma preserves_set_prev p : preserves P (set_prev p).
Proof. intros d H. exact H. Qed.

Lemma preserves_for_each {A} (l : list A) (body : A -> D unit) :
  (forall a, preserves P (body a)) -> preserves P (for_each l body).
Proof.
  intros Hb. induction l as [|a l IH]; cbn [for_each].
  - apply preserves_ret.
  - apply preserves_bind; auto.
Qed.

End Preserves.

Ltac preserves_step :=
  first
    [ apply preserves_bind; [|intros ?]
    | apply preserves_ret
    | apply preserves_raise
    | apply preserves_gets
    | apply preserves_of_result
    | apply preserves_spi
    | apply preserves_set_prev
    | apply preserves_for_each; intros ?
    | apply preserves_st_do;
      intros [? ? ? ? ? ?]; cbv - [Z.add];
      repeat match goal with
             | |- context [if ?b then _ else _] => is_var b; destruct b
             end;
      solve [intuition congruence]
    | match goal with
      | |- preserves _ (match ?x with _ => _ end) => destruct x
      end ].

Lemma preserves_sleep r : preserves basemap_not_initial (sleep r).
Proof. unfold sleep, _power_off, st, prev. repeat preserves_step. Qed.

Lemma preserves_init_full : preserves basemap_not_initial _init_full.
Proof. unfold _init_full, st. cbv zeta. repeat preserves_step. Qed.

Lemma preserves_display_full data lut sa :
  preserves basemap_not_initial (_display_full data lut sa).
Proof.
  unfold _display_full, _update, store_prev, st, prev. cbv zeta.
  repeat first [apply preserves_init_full | apply preserves_sleep | preserves_step].
Qed.

Lemma preserves_init_partial x y w h :
  preserves basemap_not_initial (_init_partial x y w h).
Proof.
  unfold _init_partial, _set_window, st. cbv zeta. repeat preserves_step.
Qed.

(** X7: no operation of the driver breaks the invariant behind
    [can_partial_refresh]: from a state where a basemap implies that the
    driver is past its initial refresh, every public method leaves such
    a state, whether it returns or raises. *)
Theorem X7_driver_operations_keep_invariant d :
  basemap_not_initial (_state d) ->
  (forall data full force_full stay_awake,
      basemap_not_initial
        (_state (final (display data full force_full stay_awake d))))
  /\ (forall regions,
        basemap_not_initial (_state (final (display_regions regions d))))
  /\ (forall lut black red vgh vsh1 vsh2 vsl vcom,
        basemap_not_initial
          (_state (final (display_lut lut black red vgh vsh1 vsh2 vsl vcom d))))
  /\ (forall color, basemap_not_initial (_state (final (clear color d))))
  /\ (forall clear_first,
        basemap_not_initial (_state (final (init clear_first d))))
  /\ (forall retain_ram,
        basemap_not_initial (_state (final (sleep retain_ram d))))
  /\ basemap_not_initial (_state (final (wake d)))
  /\ basemap_not_initial (_state (final (check_temperature d))).
Proof.
  intros H.
  assert (Hclear : forall color, preserves basemap_not_initial (clear color)).
  { intros color. unfold clear, _update, store_prev, st, prev. cbv zeta.
    repeat first [apply preserves_init_full | apply preserves_sleep | preserves_step]. }
  repeat split; intros.
  - revert d H. change (preserves basemap_not_initial (display data full force_full stay_awake)).
    unfold display, _display_partial, _update, store_prev, _set_window, st, prev. cbv zeta.
    repeat first [apply preserves_display_full | apply preserves_init_partial
                 | apply preserves_sleep | preserves_step].
  - revert d H. change (preserves basemap_not_initial (display_regions regions)).
    unfold display_regions, display_regions_body, _update, _set_window, st, prev. cbv zeta.
    repeat first [apply preserves_init_partial | preserves_step].
  - revert d H.
    change (preserves basemap_not_initial (display_lut lut black red vgh vsh1 vsh2 vsl vcom)).
    unfold display_lut, _set_waveform, _update. cbv zeta.
    repeat first [apply preserves_init_full | preserves_step].
  - apply Hclear, H.
  - revert d H. change (preserves basemap_not_initial (init clear_first)).
    unfold init. repeat first [apply preserves_init_full | apply Hclear | preserves_step].
  - apply preserves_sleep, H.
  - revert d H. change (preserves basemap_not_initial wake).
    unfold wake, st. repeat preserves_step.
  - revert d H. change (preserves basemap_not_initial check_temperature).
    unfold check_temperature, read_temperature, st. cbv zeta.
    repeat first [apply preserves_init_full | preserves_step].
Qed.

Lemma X7_witness :
  basemap_not_initial
    (_state (final (display_regions [(white_frame, 0, 0, 128, 296)] ready_driver))).
Proof.
  refine (proj1 (proj2 (X7_driver_operations_keep_invariant ready_driver _)) _).
  intros _. vm_compute. reflexivity.
Defined.

Lemma auto_fill_param_byte c :
  is_byte c = true ->
  auto_fill_param c = (if 128 <=? c then 0xE5 else 0x65).
Proof.
  intros Hc.
  pose (P := fun c => auto_fill_param c =? (if 128 <=? c then 0xE5 else 0x65)).
  assert (HP : all_bytes P = true) by (vm_compute; reflexivity).
  apply Z.eqb_eq. exact (all_bytes_spec P HP c Hc).
Qed.

(** X8: [fast_clear] with a byte colour returns from every state of the
    driver.  It sends no frame data: both RAMs are filled by the
    controller's auto-write with a parameter that keeps only the top
    bit of the colour.  It runs the full update sequence, records the
    colour in every byte of the previous frame when the driver keeps
    one, and leaves the driver asleep with a basemap. *)
Theorem X8_fast_clear d color :
  is_byte color = true ->
  let o := fast_clear color d in
  let param := if 128 <=? color then 0xE5 else 0x65 in
  result_of o = Ok tt
  /\ payloads CMD_AUTO_WRITE_RED (log o) = [[param]]
  /\ payloads CMD_AUTO_WRITE_BW (log o) = [[param]]
  /\ count_cmd CMD_RAM_BLACK (log o) = 0%nat
  /\ count_cmd CMD_RAM_RED (log o) = 0%nat
  /\ update_sequences (log o) = [[SEQ_FULL]; [SEQ_POWER_OFF]]
  /\ _state (final o)
     = mkDriverState SLEEPING true 0 (partial_threshold (_state d)) false false
  /\ _prev_buffer (final o)
     = match _prev_buffer d with
       | Some (b :: old) => Some (repeat color (S (length old)))
       | p => p
       end.
Proof.
  intros Hc. destruct d as [sp [st hb pc pt ipm ii] pb].
  cbv zeta. unfold fast_clear, _auto_fill, bytes_times. cbv zeta.
  rewrite (auto_fill_param_byte color Hc), Hc.
  destruct (128 <=? color), st, ipm, pb as [[|b pb]|];
    cbv - [slice_set len repeat length]; rewrite ?slice_set_all;
    repeat split; reflexivity.
Qed.

Lemma X8_witness :
  _prev_buffer (final (fast_clear 0x00 ready_driver)) = Some black_frame.
Proof.
  refine (proj2 (proj2 (proj2 (proj2 (proj2 (proj2 (proj2
            (X8_fast_clear ready_driver 0x00 _)))))))).
  reflexivity.
Defined.

Lemma auto_fill_param_cases p :
  auto_fill_param p = 0x65 \/ auto_fill_param p = 0xE5.
Proof.
  unfold auto_fill_param. cbv zeta.
  change 1 with (Z.ones 1). rewrite Z.land_ones by lia.
  change (2 ^ 1) with 2.
  assert (H : Z.shiftr p 7 mod 2 = 0 \/ Z.shiftr p 7 mod 2 = 1)
    by (pose proof (Z.mod_pos_bound (Z.shiftr p 7) 2); lia).
  destruct H as [-> | ->]; [left|right]; reflexivity.
Qed.

(** X9: [fast_clear] with a colour that is not a byte still refreshes
    the panel and sets the basemap.  A driver that keeps a previous
    frame then raises [ValueError] when it builds the fill bytes: the
    call fails after the refresh, the previous frame is unchanged and
    the controller is left awake.  A driver without a previous frame
    returns and sleeps. *)
Theorem X9_fast_clear_any_colour d color :
  is_byte color = false ->
  let o := fast_clear color d in
  update_sequences (log o)
  = [SEQ_FULL] :: (if truthy_opt (_prev_buffer d) then []
                   else [[SEQ_POWER_OFF]])
  /\ has_basemap (_state (final o)) = true
  /\ _prev_buffer (final o) = _prev_buffer d
  /\ (truthy_opt (_prev_buffer d) = true ->
      result_of o = Raise ValueError
      /\ is_sleeping (_state (final o)) = false)
  /\ (truthy_opt (_prev_buffer d) = false ->
      result_of o = Ok tt
      /\ is_sleeping (_state (final o)) = true).
Proof.
  intros Hc. destruct d as [sp [st hb pc pt ipm ii] pb].
  cbv zeta. unfold fast_clear, _auto_fill, bytes_times. cbv zeta.
  rewrite Hc.
  destruct (auto_fill_param_cases color) as [-> | ->];
  destruct st, ipm, pb as [[|b pb]|];
    cbv - [slice_set len repeat length];
    repeat split; intros; try discriminate; reflexivity.
Qed.

Lemma X9_witness :
  result_of (fast_clear 256 ready_driver) = Raise ValueError.
Proof.
  refine (proj1 (proj1 (proj2 (proj2 (proj2
            (X9_fast_clear_any_colour ready_driver 256 _)))) _));
    reflexivity.
Defined.

Lemma crc_value d0 d1 :
  is_byte d0 = true -> is_byte d1 = true ->
  Z.lor (Z.shiftl d0 8) d1 = 256 * d0 + d1.
Proof.
  intros H0 H1.
  pose (P := fun a => all_bytes (fun b =>
     Z.lor (Z.shiftl a 8) b =? 256 * a + b)).
  assert (HP : all_bytes P = true) by (vm_compute; reflexivity).
  apply Z.eqb_eq.
  exact (all_bytes_spec _ (all_bytes_spec _ HP d0 H0) d1 H1).
Qed.

(** X10: [calculate_crc] asks the controller for the CRC before it
    reads: on a bus that cannot read it raises [RuntimeError] after
    [CRC_CALC] was sent and before [CRC_STATUS] is.  On a bus that
    reads, the result is [256 * d0 + d1] for the two bytes after the
    dummy byte, a 16-bit value, and the refresh bookkeeping is
    unchanged. *)
Theorem X10_calculate_crc d :
  (has_miso (_spi d) = false ->
   let o := calculate_crc d in
   result_of o = Raise RuntimeError
   /\ count_cmd CMD_CRC_CALC (log o) = 1%nat
   /\ count_cmd CMD_CRC_STATUS (log o) = 0%nat)
  /\ (forall dummy d0 d1 rest,
        has_miso (_spi d) = true ->
        rx (_spi d) = dummy :: d0 :: d1 :: rest ->
        is_byte d0 = true -> is_byte d1 = true ->
        let o := calculate_crc d in
        result_of o = Ok (256 * d0 + d1)
        /\ 0 <= 256 * d0 + d1 < 65536
        /\ rx (_spi (final o)) = rest
        /\ same_core d (final o)).
Proof.
  destruct d as [[m r] [st hb pc pt ipm ii] pb]. cbn [_spi has_miso rx].
  split.
  - intros ->. destruct st, ipm; cbv; repeat split; reflexivity.
  - intros dummy d0 d1 rest -> -> H0 H1. cbv zeta.
    rewrite <- (crc_value d0 d1 H0 H1).
    split; [destruct st, ipm; reflexivity|].
    split.
    { rewrite (crc_value d0 d1 H0 H1).
      unfold is_byte in H0, H1. lia. }
    split; destruct st, ipm; cbv; auto.
Qed.

Lemma X10_witness :
  result_of (calculate_crc (new (mkSPIDevice true [0x00; 0x12; 0x34]) true))
  = Ok 0x1234.
Proof.
  refine (proj1 (proj2 (X10_calculate_crc
            (new (mkSPIDevice true [0x00; 0x12; 0x34]) true))
            0x00 0x12 0x34 [] _ _ _ _));
    reflexivity.
Defined.

End DriverOperations.

(** * Properties of the frame buffer *)

Section BufferFacts.
Import Buffer Examples.

(** C10: for every buffer and every logical [(x, y)] outside
    [0 <= x < width], [0 <= y < height], [get_pixel] returns [WHITE]
    (3), raises nothing, touches no byte and leaves the buffer as it
    was. *)
Theorem C10_get_pixel_out_of_bounds fb x y :
  ~ (0 <= x < width fb /\ 0 <= y < height fb) ->
  get_pixel x y fb = (Ok WHITE, fb, []).
Proof.
  intros H. unfold get_pixel. rewrite bind_run. cbn [get].
  assert (Hb : in_bounds fb x y = false).
  { unfold in_bounds. apply not_true_iff_false. intros Hb. apply H.
    rewrite !andb_true_iff, !Z.leb_le, !Z.ltb_lt in Hb. lia. }
  rewrite Hb. reflexivity.
Qed.

Lemma index_ok {A} (l : list A) i :
  0 <= i < len l -> exists a, index l i = Ok a /\ l !! Z.to_nat i = Some a.
Proof.
  intros Hi. unfold index.
  destruct (Z.ltb_spec i 0); [lia|].
  destruct (Z.leb_spec 0 i); [|lia]. destruct (Z.ltb_spec i (len l)); [|lia].
  cbn. destruct (l !! Z.to_nat i) eqn:E; [eauto|].
  apply lookup_ge_None in E. unfold len in *. lia.
Qed.

Lemma index_map_range (f : Z -> Z) n i :
  0 <= i < n -> index (map f (range 0 n)) i = Ok (f i).
Proof.
  intros Hi.
  assert (Hl : len (map f (range 0 n)) = n).
  { unfold len, range. rewrite !length_map, length_seq. lia. }
  destruct (index_ok (map f (range 0 n)) i) as (a & -> & Ha); [lia|].
  f_equal. unfold range in Ha.
  rewrite !list_lookup_fmap in Ha.
  rewrite lookup_seq_lt in Ha by lia. cbn in Ha. injection Ha as <-. f_equal. lia.
Qed.

Lemma forallb_range (P : Z -> bool) a b :
  forallb P (range a b) = true -> forall i, a <= i < b -> P i = true.
Proof.
  intros H i Hi. rewrite forallb_forall in H. apply H.
  unfold range. apply in_map_iff. exists (Z.to_nat (i - a)). split; [lia|].
  apply in_seq. lia.
Qed.

Lemma nibble_facts b r :
  0 <= b < 256 -> 0 <= r < 4 ->
  0 <= nib_black b < 16 /\ 0 <= nib_red b < 16
  /\ Z.land (Z.shiftr (nib_black b) (3 - r)) 1 = hi_bit (pix b r)
  /\ Z.land (Z.shiftr (nib_red b) (3 - r)) 1 = lo_bit (pix b r).
Proof.
  intros Hb Hr.
  pose (P := fun b => forallb (fun r =>
    (0 <=? nib_black b) && (nib_black b <? 16)
    && (0 <=? nib_red b) && (nib_red b <? 16)
    && (Z.land (Z.shiftr (nib_black b) (3 - r)) 1 =? hi_bit (pix b r))
    && (Z.land (Z.shiftr (nib_red b) (3 - r)) 1 =? lo_bit (pix b r)))
    (range 0 4)).
  assert (H : forallb P (range 0 256) = true) by (vm_compute; reflexivity).
  pose proof (forallb_range _ _ _ (forallb_range _ _ _ H b Hb) r Hr) as H'.
  cbv beta in H'. rewrite !andb_true_iff in H'.
  rewrite !Z.leb_le, !Z.ltb_lt, !Z.eqb_eq in H'. lia.
Qed.

Lemma pack_facts hi lo q :
  0 <= hi < 16 -> 0 <= lo < 16 -> 0 <= q < 8 ->
  is_byte (Z.lor (Z.shiftl hi 4) lo) = true
  /\ Z.land (Z.shiftr (Z.lor (Z.shiftl hi 4) lo) (7 - q)) 1
     = if q <? 4 then Z.land (Z.shiftr hi (3 - q)) 1
       else Z.land (Z.shiftr lo (3 - (q - 4))) 1.
Proof.
  intros Hh Hl Hq.
  pose (P := fun hi => forallb (fun lo => forallb (fun q =>
    is_byte (Z.lor (Z.shiftl hi 4) lo)
    && (Z.land (Z.shiftr (Z.lor (Z.shiftl hi 4) lo) (7 - q)) 1
        =? if q <? 4 then Z.land (Z.shiftr hi (3 - q)) 1
           else Z.land (Z.shiftr lo (3 - (q - 4))) 1))
    (range 0 8)) (range 0 16)).
  assert (H : forallb P (range 0 16) = true) by (vm_compute; reflexivity).
  pose proof (forallb_range _ _ _
               (forallb_range _ _ _ (forallb_range _ _ _ H hi Hh) lo Hl) q Hq)
    as H'.
  cbv beta in H'. apply andb_prop in H' as [H1 H2].
  apply Z.eqb_eq in H2. auto.
Qed.

Lemma lut_black_index b :
  0 <= b < 256 -> index _LUT_BLACK b = Ok (nib_black b).
Proof. intros H. unfold _LUT_BLACK. apply (index_map_range nib_black 256 b H). Qed.

Lemma lut_red_index b :
  0 <= b < 256 -> index _LUT_RED b = Ok (nib_red b).
Proof. intros H. unfold _LUT_RED. apply (index_map_range nib_red 256 b H). Qed.

Lemma is_byte_iff b : is_byte b = true <-> 0 <= b < 256.
Proof. unfold is_byte. rewrite andb_true_iff, !Z.leb_le. lia. Qed.

Lemma byte_at_index buf k :
  0 <= k < len buf -> index buf k = Ok (byte_at buf k).
Proof.
  intros H. destruct (index_ok buf k H) as (a & -> & Ha).
  unfold byte_at. rewrite Ha. reflexivity.
Qed.

Lemma byte_at_byte buf k :
  Forall (fun b => is_byte b = true) buf -> 0 <= k < len buf ->
  0 <= byte_at buf k < 256.
Proof.
  intros Hb H. destruct (index_ok buf k H) as (a & _ & Ha).
  unfold byte_at. rewrite Ha. cbn.
  rewrite Forall_lookup in Hb. apply is_byte_iff. eapply Hb; eauto.
Qed.

Lemma plane_byte_black buf k :
  Forall (fun b => is_byte b = true) buf -> 0 <= k -> 2 * k + 1 < len buf ->
  plane_byte _LUT_BLACK buf (2 * k) = Ok (packed nib_black buf k).
Proof.
  intros Hb Hk Hl. unfold plane_byte, packed.
  rewrite (byte_at_index buf (2 * k)) by lia. cbn [and_then].
  rewrite lut_black_index by (apply byte_at_byte; auto; lia). cbn [and_then].
  rewrite (byte_at_index buf (2 * k + 1)) by lia. cbn [and_then].
  rewrite lut_black_index by (apply byte_at_byte; auto; lia). reflexivity.
Qed.

Lemma plane_byte_red buf k :
  Forall (fun b => is_byte b = true) buf -> 0 <= k -> 2 * k + 1 < len buf ->
  plane_byte _LUT_RED buf (2 * k) = Ok (packed nib_red buf k).
Proof.
  intros Hb Hk Hl. unfold plane_byte, packed.
  rewrite (byte_at_index buf (2 * k)) by lia. cbn [and_then].
  rewrite lut_red_index by (apply byte_at_byte; auto; lia). cbn [and_then].
  rewrite (byte_at_index buf (2 * k + 1)) by lia. cbn [and_then].
  rewrite lut_red_index by (apply byte_at_byte; auto; lia). reflexivity.
Qed.

Lemma packed_byte nib buf k :
  (forall b, 0 <= b < 256 -> 0 <= nib b < 16) ->
  Forall (fun b => is_byte b = true) buf -> 0 <= k -> 2 * k + 1 < len buf ->
  is_byte (packed nib buf k) = true.
Proof.
  intros Hn Hb Hk Hl. unfold packed.
  apply (pack_facts _ _ 0); try lia; apply Hn; apply byte_at_byte; auto; lia.
Qed.

Lemma index_set_ok l i v :
  0 <= i < len l -> is_byte v = true ->
  index_set l i v = Ok (<[Z.to_nat i := v]> l).
Proof.
  intros Hi Hv. unfold index_set. rewrite Hv. cbn [negb].
  destruct (Z.ltb_spec i 0); [lia|].
  destruct (Z.leb_spec 0 i); [|lia]. destruct (Z.ltb_spec i (len l)); [|lia].
  reflexivity.
Qed.

Lemma planes_loop_spec buf n : forall k0 black red,
  Forall (fun b => is_byte b = true) buf ->
  2 * Z.of_nat (k0 + n) <= len buf ->
  (k0 + n <= length black)%nat -> (k0 + n <= length red)%nat ->
  exists black' red',
    planes_loop (map (fun k => 2 * Z.of_nat k) (seq k0 n)) buf black red
    = Ok (black', red')
    /\ length black' = length black /\ length red' = length red
    /\ (forall j, (k0 <= j < k0 + n)%nat ->
          black' !! j = Some (packed nib_black buf (Z.of_nat j))
          /\ red' !! j = Some (packed nib_red buf (Z.of_nat j)))
    /\ (forall j, (j < k0)%nat ->
          black' !! j = black !! j /\ red' !! j = red !! j).
Proof.
  induction n as [|n IH]; intros k0 black red Hb Hl Hlb Hlr.
  - exists black, red. cbn. repeat split; auto; lia.
  - destruct (IH (S k0) (<[k0 := packed nib_black buf (Z.of_nat k0)]> black)
                 (<[k0 := packed nib_red buf (Z.of_nat k0)]> red))
      as (b' & r' & Heq & Hlb' & Hlr' & Hin & Hout);
      auto; rewrite ?length_insert; try lia.
    exists b', r'. rewrite length_insert in Hlb', Hlr'.
    split.
    { cbn [seq map planes_loop].
      assert (Hd : 2 * Z.of_nat k0 / 2 = Z.of_nat k0)
        by (rewrite Z.mul_comm, Z.div_mul; lia).
      rewrite plane_byte_black by (auto; lia). cbn [and_then]. rewrite Hd.
      rewrite index_set_ok; [|unfold len; lia|
        apply packed_byte; auto; try lia; intros b Hbb;
        apply (nibble_facts b 0); lia].
      cbn [and_then].
      rewrite plane_byte_red by (auto; lia). cbn [and_then].
      rewrite index_set_ok; [|unfold len; lia|
        apply packed_byte; auto; try lia; intros b Hbb;
        apply (nibble_facts b 0); lia].
      cbn [and_then]. rewrite Nat2Z.id. exact Heq. }
    repeat split; auto.
    + destruct (Nat.eq_dec j k0) as [->|Hne].
      * destruct (Hout k0) as [-> _]; [lia|].
        apply list_lookup_insert_eq. lia.
      * apply Hin. lia.
    + destruct (Nat.eq_dec j k0) as [->|Hne].
      * destruct (Hout k0) as [_ ->]; [lia|].
        apply list_lookup_insert_eq. lia.
      * apply Hin. lia.
    + destruct (Hout j) as [-> _]; [lia|]. apply list_lookup_insert_ne. lia.
    + destruct (Hout j) as [_ ->]; [lia|]. apply list_lookup_insert_ne. lia.
Qed.

Lemma range_by_2_even size :
  0 <= size -> Z.even size = true ->
  range_by_2 size
  = map (fun k => 2 * Z.of_nat k) (seq 0 (Z.to_nat (size / 2))).
Proof.
  intros Hs He. unfold range_by_2.
  apply Z.even_spec in He as [m ->].
  replace ((2 * m + 1) / 2) with m by (apply (Z.div_unique _ 2 m 1); lia).
  replace (2 * m / 2) with m by (apply (Z.div_unique _ 2 m 0); lia).
  reflexivity.
Qed.

Lemma get_pixel_2bit_value fb px py :
  let n := py * _phys_w fb + px in
  0 <= n -> n / 4 < len (_buffer fb) ->
  pixel_2bit fb px py = Ok (pix (byte_at (_buffer fb) (n / 4)) (n mod 4)).
Proof.
  intros n Hn Hl.
  cbv [pixel_2bit _get_pixel_2bit buf_get bind gets emit].
  fold n.
  assert (H8 : Z.shiftr (n * 2) 3 = n / 4).
  { rewrite Z.shiftr_div_pow2 by lia. change (2 ^ 3) with 8.
    pose proof (Z.div_mod (n * 2) 8 ltac:(lia)).
    pose proof (Z.mod_pos_bound (n * 2) 8 ltac:(lia)).
    pose proof (Z.div_mod n 4 ltac:(lia)).
    pose proof (Z.mod_pos_bound n 4 ltac:(lia)). lia. }
  assert (H7 : Z.land (n * 2) 7 = 2 * (n mod 4)).
  { change 7 with (Z.ones 3). rewrite Z.land_ones by lia. change (2 ^ 3) with 8.
    pose proof (Z.div_mod (n * 2) 8 ltac:(lia)).
    pose proof (Z.mod_pos_bound (n * 2) 8 ltac:(lia)).
    pose proof (Z.div_mod n 4 ltac:(lia)).
    pose proof (Z.mod_pos_bound n 4 ltac:(lia)). lia. }
  rewrite H8, H7.
  assert (0 <= n / 4) by (apply Z.div_pos; lia).
  rewrite byte_at_index by lia. reflexivity.
Qed.

Lemma plane_bit_packed nib plane buf n :
  (forall b, 0 <= b < 256 -> 0 <= nib b < 16) ->
  Forall (fun b => is_byte b = true) buf ->
  0 <= n -> 2 * (n / 8) + 1 < len buf ->
  plane !! Z.to_nat (n / 8) = Some (packed nib buf (n / 8)) ->
  plane_bit plane n
  = Ok (Z.land (Z.shiftr (nib (byte_at buf (n / 4))) (3 - n mod 4)) 1).
Proof.
  intros Hnib Hb Hn Hl Hp.
  assert (Hk : 0 <= n / 8) by (apply Z.div_pos; lia).
  unfold plane_bit, index.
  pose proof (lookup_lt_Some _ _ _ Hp) as Hlt.
  destruct (Z.ltb_spec (n / 8) 0); [lia|].
  destruct (Z.leb_spec 0 (n / 8)); [|lia].
  destruct (Z.ltb_spec (n / 8) (len plane)); [|unfold len in *; lia].
  cbn [andb]. rewrite Hp. cbn [and_then]. f_equal.
  pose proof (Z.div_mod n 8 ltac:(lia)) as D8.
  pose proof (Z.mod_pos_bound n 8 ltac:(lia)) as M8.
  pose proof (Z.div_mod n 4 ltac:(lia)) as D4.
  pose proof (Z.mod_pos_bound n 4 ltac:(lia)) as M4.
  unfold packed.
  destruct (pack_facts (nib (byte_at buf (2 * (n / 8))))
                       (nib (byte_at buf (2 * (n / 8) + 1))) (n mod 8))
    as [_ ->]; try lia; try (apply Hnib, byte_at_byte; auto; lia).
  destruct (Z.ltb_spec (n mod 8) 4).
  - replace (n / 4) with (2 * (n / 8)) by lia.
    replace (n mod 4) with (n mod 8) by lia. reflexivity.
  - replace (n / 4) with (2 * (n / 8) + 1) by lia.
    replace (n mod 4) with (n mod 8 - 4) by lia. reflexivity.
Qed.

(** X11: on a 2-bit buffer with an even number of bytes, [to_planes]
    returns the two planes, each half as long as the buffer, and bit
    [n] of each is the high, resp. low, bit of pixel [n]. *)
Lemma to_planes_even fb :
  _depth fb = 2 ->
  len (_buffer fb) = _buffer_size fb ->
  Forall (fun b => is_byte b = true) (_buffer fb) ->
  Z.even (_buffer_size fb) = true ->
  exists bw red,
    to_planes fb = Ok (bw, red)
    /\ len bw = _buffer_size fb / 2 /\ len red = _buffer_size fb / 2
    /\ forall px py,
         let n := py * _phys_w fb + px in
         0 <= n -> n / 4 < _buffer_size fb ->
         exists v,
           pixel_2bit fb px py = Ok v
           /\ plane_bit bw n = Ok (Z.land (Z.shiftr v 1) 1)
           /\ plane_bit red n = Ok (Z.land v 1).
Proof.
  intros Hd Hlen Hb He.
  assert (Hs : 0 <= _buffer_size fb) by (rewrite <- Hlen; unfold len; lia).
  pose proof He as He'. apply Z.even_spec in He' as [P HP].
  assert (HP2 : _buffer_size fb / 2 = P)
    by (rewrite HP, Z.mul_comm, Z.div_mul; lia).
  set (zeros := repeat 0 (Z.to_nat P)).
  destruct (planes_loop_spec (_buffer fb) (Z.to_nat P) 0%nat zeros zeros)
    as (bw & red & Heq & Hlb & Hlr & Hin & _); auto;
    try (subst zeros; rewrite ?repeat_length; lia);
    try (rewrite Hlen; lia).
  exists bw, red. split; [|split; [|split]].
  - unfold to_planes. rewrite Hd. cbn [Z.eqb Pos.eqb negb].
    unfold bytearray. rewrite HP2.
    destruct (Z.ltb_spec P 0); [lia|]. cbn [and_then].
    rewrite range_by_2_even by auto. rewrite HP2. exact Heq.
  - unfold len. rewrite Hlb. subst zeros. rewrite repeat_length. lia.
  - unfold len. rewrite Hlr. subst zeros. rewrite repeat_length. lia.
  - intros px py n Hn Hl.
    pose proof (Z.div_mod n 8 ltac:(lia)) as D8.
    pose proof (Z.mod_pos_bound n 8 ltac:(lia)) as M8.
    pose proof (Z.div_mod n 4 ltac:(lia)) as D4.
    pose proof (Z.mod_pos_bound n 4 ltac:(lia)) as M4.
    assert (Hk : 0 <= n / 8) by (apply Z.div_pos; lia).
    assert (Hk4 : 0 <= n / 4) by (apply Z.div_pos; lia).
    destruct (Hin (Z.to_nat (n / 8))) as [Hbw Hred]; [lia|].
    rewrite Z2Nat.id in Hbw, Hred by lia.
    exists (pix (byte_at (_buffer fb) (n / 4)) (n mod 4)).
    split; [apply get_pixel_2bit_value; fold n; lia|].
    destruct (nibble_facts (byte_at (_buffer fb) (n / 4)) (n mod 4))
      as (_ & _ & Hh & Hlo); [apply byte_at_byte; auto; lia|lia|].
    split.
    + rewrite (plane_bit_packed nib_black bw (_buffer fb) n); auto; try lia.
      * rewrite Hh. reflexivity.
      * intros b Hbb. apply (nibble_facts b 0); lia.
    + rewrite (plane_bit_packed nib_red red (_buffer fb) n); auto; try lia.
      * rewrite Hlo. reflexivity.
      * intros b Hbb. apply (nibble_facts b 0); lia.
Qed.

Lemma to_planes_even_witness :
  exists bw red, to_planes fb_4x2 = Ok (bw, red) /\ len bw = 1 /\ len red = 1.
Proof.
  destruct (to_planes_even fb_4x2) as (bw & red & H1 & H2 & H3 & _);
    try reflexivity.
  - repeat constructor.
  - exists bw, red. split; [exact H1|]. split; [exact H2|exact H3].
Defined.

(** C6 (the code departs from the claim): the 2x2 buffer of depth 2
    holds one byte; pixel (0, 0) is in bounds, yet [to_planes] raises
    [IndexError] on reading [buf[1]] instead of returning the planes. *)
Theorem C6_to_planes_raises_on_odd_size :
  new 2 2 2 0 = Ok fb_2x2
  /\ _buffer_size fb_2x2 = 1
  /\ in_bounds fb_2x2 0 0 = true
  /\ to_planes fb_2x2 = Raise IndexError.
Proof. vm_compute. auto. Qed.

(** C5 (the code departs from the claim): on the 10x10 buffer of depth
    1 the constructor allocates [ceil(100 / 8) = 13] bytes while rows
    are addressed with a stride of 2 bytes; the in-bounds [pixel(0, 9)]
    subscripts byte 18, outside [0, 13), and the call raises
    [IndexError]. *)
Theorem C5_pixel_write_past_buffer_end :
  Buffer.new 10 10 1 0 = Ok fb_10x10
  /\ _buffer_size fb_10x10 = 13
  /\ in_bounds fb_10x10 0 9 = true
  /\ pixel 0 9 BLACK fb_10x10 = (Raise IndexError, fb_10x10, [Touch 18]).
Proof. vm_compute. auto. Qed.

Lemma C10_witness :
  get_pixel (-1) 5 (fb_panel 1 90) = (Ok WHITE, fb_panel 1 90, []).
Proof.
  apply C10_get_pixel_out_of_bounds. vm_compute. intros [[H _] _]. apply H. reflexivity.
Defined.

End BufferFacts.

(** * Properties of the frame buffer's operations *)

Section BufferOperations.
Import Buffer Examples.

Lemma rotation_cases r props :
  _ROTATION r = Ok props ->
  (r = 0 /\ props = (false, false, false))
  \/ (r = 90 /\ props = (true, true, false))
  \/ (r = 180 /\ props = (false, true, true))
  \/ (r = 270 /\ props = (true, false, true)).
Proof.
  unfold _ROTATION.
  destruct (Z.eqb_spec r 0); [intros [= <-]; auto|].
  destruct (Z.eqb_spec r 90); [intros [= <-]; auto|].
  destruct (Z.eqb_spec r 180); [intros [= <-]; auto|].
  destruct (Z.eqb_spec r 270); [intros [= <-]; auto 6|].
  discriminate.
Qed.

Lemma new_well_formed pw ph depth rotation fb :
  new pw ph depth rotation = Ok fb -> 0 <= pw -> 0 <= ph -> well_formed fb.
Proof.
  unfold new. intros H Hw Hh.
  destruct ((depth =? 1) || (depth =? 2)) eqn:Ed; [|discriminate H].
  cbn [negb] in H.
  assert (Hd : depth = 1 \/ depth = 2).
  { apply orb_prop in Ed as [E|E]; apply Z.eqb_eq in E; auto. }
  destruct (Z.ltb_spec ((pw * ph * depth + 7) / 8) 0) as [|Hs]; [discriminate H|].
  destruct (_ROTATION (rotation mod 360)) as [props|] eqn:Er; [|discriminate H].
  assert (Hrep : Forall (fun b => is_byte b = true)
                   (repeat 0 (Z.to_nat ((pw * ph * depth + 7) / 8)))).
  { apply List.Forall_forall. intros b Hb. apply repeat_spec in Hb as ->. reflexivity. }
  injection H as <-. unfold well_formed. cbn.
  destruct (rotation_cases _ _ Er) as [[-> ->]|[[-> ->]|[[-> ->]|[-> ->]]]];
    cbn; repeat split; auto; unfold len; rewrite ?repeat_length; lia.
Qed.

(** X12: the constructor.  A depth other than 1 or 2, or a negative
    size, raises [ValueError]; a rotation that is not 0, 90, 180 or 270
    modulo 360 raises [KeyError].  Otherwise it returns a well-formed
    buffer of zero bytes that is not inverted, with the rotation
    reduced modulo 360 and width and height swapped for 90 and 270. *)
Theorem X12_new_frame_buffer pw ph depth rotation :
  let size := (pw * ph * depth + 7) / 8 in
  let rot := rotation mod 360 in
  (depth <> 1 -> depth <> 2 -> new pw ph depth rotation = Raise ValueError)
  /\ (depth = 1 \/ depth = 2 -> size < 0 ->
      new pw ph depth rotation = Raise ValueError)
  /\ (depth = 1 \/ depth = 2 -> 0 <= size ->
      rot <> 0 -> rot <> 90 -> rot <> 180 -> rot <> 270 ->
      new pw ph depth rotation = Raise KeyError)
  /\ (depth = 1 \/ depth = 2 -> 0 <= pw -> 0 <= ph ->
      rot = 0 \/ rot = 90 \/ rot = 180 \/ rot = 270 ->
      exists fb,
        new pw ph depth rotation = Ok fb
        /\ well_formed fb
        /\ _phys_w fb = pw /\ _phys_h fb = ph /\ _depth fb = depth
        /\ _rotation fb = rot /\ _inverted fb = false
        /\ _buffer fb = repeat 0 (Z.to_nat size)
        /\ (width fb, height fb)
           = (if (rot =? 90) || (rot =? 270) then (ph, pw) else (pw, ph))).
Proof.
  cbv zeta. split; [|split; [|split]].
  - intros H1 H2. unfold new.
    destruct (Z.eqb_spec depth 1); [contradiction|].
    destruct (Z.eqb_spec depth 2); [contradiction|]. reflexivity.
  - intros Hd Hs. unfold new.
    assert (E : (depth =? 1) || (depth =? 2) = true).
    { destruct Hd as [-> | ->]; reflexivity. }
    rewrite E. cbn [negb].
    destruct (Z.ltb_spec ((pw * ph * depth + 7) / 8) 0); [reflexivity|lia].
  - intros Hd Hs H0 H90 H180 H270. unfold new.
    assert (E : (depth =? 1) || (depth =? 2) = true).
    { destruct Hd as [-> | ->]; reflexivity. }
    rewrite E. cbn [negb].
    destruct (Z.ltb_spec ((pw * ph * depth + 7) / 8) 0); [lia|].
    unfold _ROTATION.
    destruct (Z.eqb_spec (rotation mod 360) 0); [contradiction|].
    destruct (Z.eqb_spec (rotation mod 360) 90); [contradiction|].
    destruct (Z.eqb_spec (rotation mod 360) 180); [contradiction|].
    destruct (Z.eqb_spec (rotation mod 360) 270); [contradiction|].
    reflexivity.
  - intros Hd Hw Hh Hr. unfold new.
    assert (E : (depth =? 1) || (depth =? 2) = true).
    { destruct Hd as [-> | ->]; reflexivity. }
    rewrite E. cbn [negb].
    assert (Hs : 0 <= (pw * ph * depth + 7) / 8).
    { apply Z.div_pos; [|lia]. destruct Hd as [-> | ->]; nia. }
    destruct (Z.ltb_spec ((pw * ph * depth + 7) / 8) 0); [lia|].
    assert (Hrep : Forall (fun b => is_byte b = true)
                     (repeat 0 (Z.to_nat ((pw * ph * depth + 7) / 8)))).
    { apply List.Forall_forall. intros b Hb. apply repeat_spec in Hb as ->. reflexivity. }
    destruct Hr as [-> | [-> | [-> | ->]]]; cbn;
      eexists; (split; [reflexivity|]);
      unfold well_formed; cbn;
      rewrite ?repeat_length;
      repeat split; auto; unfold len; rewrite ?repeat_length; lia.
Qed.

Lemma X12_witness :
  exists fb, new 128 296 2 (-90) = Ok fb /\ well_formed fb
             /\ _rotation fb = 270 /\ (width fb, height fb) = (296, 128).
Proof.
  destruct (proj2 (proj2 (proj2 (X12_new_frame_buffer 128 296 2 (-90)))))
    as (fb & H1 & H2 & _ & _ & _ & H3 & _ & _ & H4); [lia..|auto|].
  exists fb. auto.
Defined.

Lemma land3_range c : 0 <= Z.land c 3 < 4.
Proof.
  change 3 with (Z.ones 2). rewrite Z.land_ones by lia.
  apply Z.mod_pos_bound. reflexivity.
Qed.

Lemma put2_land v r c : put2 v r c = put2 v r (Z.land c 3).
Proof.
  unfold put2, _TWO_BIT_MASK. cbv zeta.
  rewrite <- Z.land_assoc, Z.land_diag. reflexivity.
Qed.

Lemma put2_facts v r c :
  0 <= v < 256 -> 0 <= r < 4 ->
  is_byte (put2 v r c) = true
  /\ pix (put2 v r c) r = Z.land c 3
  /\ forall r', 0 <= r' < 4 -> r' <> r -> pix (put2 v r c) r' = pix v r'.
Proof.
  intros Hv Hr. rewrite put2_land.
  pose proof (land3_range c) as Hc. set (c3 := Z.land c 3) in *. clearbody c3.
  pose (P := fun v => forallb (fun r => forallb (fun c =>
    is_byte (put2 v r c) && (pix (put2 v r c) r =? c)
    && forallb (fun r' => (r' =? r) || (pix (put2 v r c) r' =? pix v r'))
         (range 0 4))
    (range 0 4)) (range 0 4)).
  assert (H : forallb P (range 0 256) = true) by (vm_compute; reflexivity).
  pose proof (forallb_range _ _ _
               (forallb_range _ _ _ (forallb_range _ _ _ H v Hv) r Hr) c3 Hc)
    as H'.
  cbv beta in H'. apply andb_prop in H' as [H1 H3].
  apply andb_prop in H1 as [H1 H2]. apply Z.eqb_eq in H2.
  split; [exact H1|]. split; [exact H2|].
  intros r' Hr' Hne.
  pose proof (forallb_range _ _ _ H3 r' Hr') as H4. cbv beta in H4.
  apply orb_prop in H4 as [H4|H4]; [apply Z.eqb_eq in H4; contradiction|].
  apply Z.eqb_eq in H4. exact H4.
Qed.

Lemma buf_get_run fb idx :
  0 <= idx < len (_buffer fb) ->
  buf_get idx fb = (Ok (byte_at (_buffer fb) idx), fb, [Touch idx]).
Proof.
  intros H. unfold buf_get. cbv [bind emit gets].
  rewrite byte_at_index by exact H. reflexivity.
Qed.

Lemma buf_set_run fb idx v :
  0 <= idx < len (_buffer fb) -> is_byte v = true ->
  buf_set idx v fb
  = (Ok tt, with_buffer fb (<[Z.to_nat idx := v]> (_buffer fb)), [Touch idx]).
Proof.
  intros H Hv. unfold buf_set. cbv [bind emit gets].
  rewrite index_set_ok by auto. reflexivity.
Qed.

Lemma bit_off_facts n :
  0 <= n ->
  Z.shiftr (n * 2) 3 = n / 4 /\ Z.land (n * 2) 7 = 2 * (n mod 4).
Proof.
  intros Hn.
  pose proof (Z.div_mod (n * 2) 8 ltac:(lia)).
  pose proof (Z.mod_pos_bound (n * 2) 8 ltac:(lia)).
  pose proof (Z.div_mod n 4 ltac:(lia)).
  pose proof (Z.mod_pos_bound n 4 ltac:(lia)).
  split.
  - rewrite Z.shiftr_div_pow2 by lia. change (2 ^ 3) with 8. lia.
  - change 7 with (Z.ones 3). rewrite Z.land_ones by lia.
    change (2 ^ 3) with 8. lia.
Qed.

Lemma set_pixel_2bit_run fb px py color :
  let n := py * _phys_w fb + px in
  0 <= n -> n / 4 < len (_buffer fb) ->
  Forall (fun b => is_byte b = true) (_buffer fb) ->
  _set_pixel_2bit px py color fb
  = (Ok tt,
     with_buffer fb
       (<[Z.to_nat (n / 4) := put2 (byte_at (_buffer fb) (n / 4)) (n mod 4) color]>
          (_buffer fb)),
     [Touch (n / 4); Touch (n / 4)]).
Proof.
  intros n Hn Hl Hb.
  assert (H4 : 0 <= n / 4) by (apply Z.div_pos; lia).
  pose proof (Z.mod_pos_bound n 4 ltac:(lia)) as Hm.
  unfold _set_pixel_2bit. unfold bind at 1. cbv [gets]. fold n.
  destruct (bit_off_facts n Hn) as [-> ->].
  unfold bind. rewrite buf_get_run by lia.
  pose proof (byte_at_byte (_buffer fb) (n / 4) Hb ltac:(lia)) as Hv.
  destruct (put2_facts (byte_at (_buffer fb) (n / 4)) (n mod 4) color Hv Hm)
    as (Hbyte & _ & _).
  unfold put2 in Hbyte. cbv zeta in Hbyte.
  rewrite buf_set_run by (auto; lia). reflexivity.
Qed.

Lemma get_pixel_2bit_run fb px py :
  let n := py * _phys_w fb + px in
  0 <= n -> n / 4 < len (_buffer fb) ->
  _get_pixel_2bit px py fb
  = (Ok (pix (byte_at (_buffer fb) (n / 4)) (n mod 4)), fb, [Touch (n / 4)]).
Proof.
  intros n Hn Hl.
  assert (H4 : 0 <= n / 4) by (apply Z.div_pos; lia).
  unfold _get_pixel_2bit. unfold bind at 1. cbv [gets]. fold n.
  destruct (bit_off_facts n Hn) as [-> ->].
  unfold bind. rewrite buf_get_run by lia. reflexivity.
Qed.

Lemma byte_at_insert buf i v j :
  0 <= i < len buf -> 0 <= j ->
  byte_at (<[Z.to_nat i := v]> buf) j
  = if j =? i then v else byte_at buf j.
Proof.
  intros Hi Hj. unfold byte_at.
  destruct (Z.eqb_spec j i) as [->|Hne].
  - rewrite list_lookup_insert_eq; [reflexivity|]. unfold len in Hi. lia.
  - rewrite list_lookup_insert_ne by lia. reflexivity.
Qed.

Lemma transform_in_bounds fb x y :
  well_formed fb -> in_bounds fb x y = true ->
  0 <= (transform fb x y).1 < _phys_w fb
  /\ 0 <= (transform fb x y).2 < _phys_h fb.
Proof.
  intros (_ & Hw & Hh & _ & _ & _ & _ & _ & Hwd & Hht) Hb.
  unfold in_bounds in Hb. rewrite !andb_true_iff in Hb.
  rewrite !Z.leb_le, !Z.ltb_lt in Hb.
  unfold transform. destruct (_rot_props fb) as [[sw xf] yf].
  cbn [fst snd] in *. destruct sw, xf, yf; cbn [fst snd]; lia.
Qed.

Lemma transform_inj fb x y x' y' :
  transform fb x y = transform fb x' y' -> (x, y) = (x', y').
Proof.
  unfold transform. destruct (_rot_props fb) as [[sw xf] yf].
  destruct sw, xf, yf; intros [= H1 H2]; f_equal; lia.
Qed.

Lemma pixel_index_2bit pw ph px py :
  0 <= px < pw -> 0 <= py < ph ->
  0 <= py * pw + px /\ 0 <= (py * pw + px) / 4 < (pw * ph * 2 + 7) / 8.
Proof.
  intros Hx Hy.
  assert (Hn : 0 <= py * pw + px) by nia.
  assert (Hlt : py * pw + px < pw * ph) by nia.
  split; [exact Hn|].
  pose proof (Z.div_mod (py * pw + px) 4 ltac:(lia)).
  pose proof (Z.mod_pos_bound (py * pw + px) 4 ltac:(lia)).
  pose proof (Z.div_mod (pw * ph * 2 + 7) 8 ltac:(lia)).
  pose proof (Z.mod_pos_bound (pw * ph * 2 + 7) 8 ltac:(lia)).
  lia.
Qed.

Lemma well_formed_with_buffer fb b :
  well_formed fb -> len b = len (_buffer fb) ->
  Forall (fun v => is_byte v = true) b ->
  well_formed (with_buffer fb b).
Proof.
  intros (H1 & H2 & H3 & H4 & H5 & H6 & H7 & H8 & H9 & H10) Hl Hb.
  unfold well_formed, with_buffer. cbn.
  repeat split; auto. congruence.
Qed.

Lemma insert_bytes (buf : list Z) i v :
  Forall (fun b => is_byte b = true) buf -> is_byte v = true ->
  Forall (fun b => is_byte b = true) (<[i := v]> buf).
Proof. intros Hb Hv. apply Forall_insert; auto. Qed.

Lemma len_insert (buf : list Z) i v : len (<[i := v]> buf) = len buf.
Proof. unfold len. rewrite length_insert. reflexivity. Qed.

Lemma pixel_in_bounds_run fb x y color :
  in_bounds fb x y = true ->
  pixel x y color fb
  = (if _depth fb =? 1
     then _set_pixel_1bit (transform fb x y).1 (transform fb x y).2
                          (_effective_color fb color) fb
     else _set_pixel_2bit (transform fb x y).1 (transform fb x y).2
                          (_effective_color fb color) fb).
Proof.
  intros Hb. unfold pixel, pixel_fast. cbv [bind get]. rewrite Hb. cbn [negb].
  destruct (transform fb x y) as [px py]. cbn [fst snd].
  destruct (_depth fb =? 1);
    match goal with |- context [?m fb] => destruct (m fb) as [[[|] ?] ?] end;
    rewrite ?app_nil_l; reflexivity.
Qed.

Lemma get_pixel_in_bounds_run fb x y :
  in_bounds fb x y = true ->
  get_pixel x y fb
  = (if _depth fb =? 1
     then _get_pixel_1bit (transform fb x y).1 (transform fb x y).2 fb
     else _get_pixel_2bit (transform fb x y).1 (transform fb x y).2 fb).
Proof.
  intros Hb. unfold get_pixel. cbv [bind get]. rewrite Hb. cbn [negb].
  destruct (transform fb x y) as [px py]. cbn [fst snd].
  destruct (_depth fb =? 1);
    match goal with |- context [?m fb] => destruct (m fb) as [[[|] ?] ?] end;
    rewrite ?app_nil_l; reflexivity.
Qed.

(** X13: on a well-formed 2-bit buffer of any size, [pixel] at a point
    in bounds returns, reads and writes one byte inside the buffer,
    keeps the buffer well formed, and changes that pixel only:
    [get_pixel] then returns the effective colour modulo 4 there and
    what it returned before everywhere else. *)
Theorem X13_pixel_2bit fb x y color :
  well_formed fb -> _depth fb = 2 -> in_bounds fb x y = true ->
  exists fb' i,
    pixel x y color fb = (Ok tt, fb', [Touch i; Touch i])
    /\ 0 <= i < _buffer_size fb
    /\ same_shape fb fb' /\ well_formed fb'
    /\ get_pixel x y fb'
       = (Ok (Z.land (_effective_color fb color) 3), fb', [Touch i])
    /\ forall x' y',
         in_bounds fb x' y' = true -> (x', y') <> (x, y) ->
         result_of (get_pixel x' y' fb') = result_of (get_pixel x' y' fb).
Proof.
  intros Hwf Hd Hb.
  pose proof Hwf as (_ & Hw & Hh & Hsz & _ & Hlen & Hbytes & _ & _ & _).
  rewrite Hd in Hsz.
  destruct (transform_in_bounds fb x y Hwf Hb) as [Hpx Hpy].
  destruct (pixel_index_2bit _ _ _ _ Hpx Hpy) as [Hn Hi].
  set (px := (transform fb x y).1) in *. set (py := (transform fb x y).2) in *.
  set (n := py * _phys_w fb + px) in *.
  set (v := put2 (byte_at (_buffer fb) (n / 4)) (n mod 4)
                 (_effective_color fb color)).
  set (fb' := with_buffer fb (<[Z.to_nat (n / 4) := v]> (_buffer fb))).
  pose proof (Z.mod_pos_bound n 4 ltac:(lia)) as Hm.
  pose proof (byte_at_byte (_buffer fb) (n / 4) Hbytes ltac:(lia)) as Hv.
  destruct (put2_facts (byte_at (_buffer fb) (n / 4)) (n mod 4)
              (_effective_color fb color) Hv Hm) as (Hbyte & Hsame & Hother).
  fold v in Hbyte, Hsame, Hother.
  assert (Hwf' : well_formed fb').
  { apply well_formed_with_buffer; auto using len_insert, insert_bytes. }
  assert (Hin : forall a b, in_bounds fb' a b = in_bounds fb a b) by reflexivity.
  assert (Htr : forall a b, transform fb' a b = transform fb a b) by reflexivity.
  exists fb', (n / 4).
  split.
  { rewrite pixel_in_bounds_run by exact Hb. rewrite Hd. cbn [Z.eqb Pos.eqb].
    fold px py. rewrite set_pixel_2bit_run; fold n; auto; lia. }
  split; [lia|]. split; [reflexivity|]. split; [exact Hwf'|].
  split.
  { rewrite get_pixel_in_bounds_run by (rewrite Hin; exact Hb).
    change (_depth fb') with (_depth fb). rewrite Hd. cbn [Z.eqb Pos.eqb].
    rewrite Htr. fold px py.
    rewrite get_pixel_2bit_run;
      change (_phys_w fb') with (_phys_w fb); fold n;
      change (_buffer fb') with (<[Z.to_nat (n / 4) := v]> (_buffer fb));
      rewrite ?len_insert; try lia.
    rewrite byte_at_insert by lia. rewrite Z.eqb_refl, Hsame. reflexivity. }
  intros x' y' Hb' Hne.
  destruct (transform_in_bounds fb x' y' Hwf Hb') as [Hpx' Hpy'].
  destruct (pixel_index_2bit _ _ _ _ Hpx' Hpy') as [Hn' Hi'].
  assert (Hnn : (transform fb x' y').2 * _phys_w fb + (transform fb x' y').1 <> n).
  { intros E. apply Hne. apply (transform_inj fb).
    destruct (transform fb x' y') as [a b], (transform fb x y) as [c d].
    cbn [fst snd] in *. subst px py n.
    assert (b = d) by nia. f_equal; [nia|assumption]. }
  rewrite !get_pixel_in_bounds_run by (rewrite ?Hin; exact Hb').
  change (_depth fb') with (_depth fb). rewrite Hd. cbn [Z.eqb Pos.eqb].
  rewrite Htr.
  set (px' := (transform fb x' y').1) in *.
  set (py' := (transform fb x' y').2) in *.
  set (n' := py' * _phys_w fb + px') in *.
  rewrite (get_pixel_2bit_run fb) by (fold n'; lia).
  rewrite (get_pixel_2bit_run fb');
    change (_phys_w fb') with (_phys_w fb); fold n';
    change (_buffer fb') with (<[Z.to_nat (n / 4) := v]> (_buffer fb));
    rewrite ?len_insert; try lia.
  unfold result_of. cbn [fst]. f_equal.
  rewrite byte_at_insert by lia.
  pose proof (Z.div_mod n 4 ltac:(lia)).
  pose proof (Z.div_mod n' 4 ltac:(lia)).
  pose proof (Z.mod_pos_bound n' 4 ltac:(lia)).
  destruct (Z.eqb_spec (n' / 4) (n / 4)) as [E|E]; [|reflexivity].
  rewrite E. apply Hother; lia.
Qed.

Lemma X13_witness :
  exists fb' i,
    pixel 1 1 DARK_GRAY fb_2x2 = (Ok tt, fb', [Touch i; Touch i])
    /\ get_pixel 1 1 fb' = (Ok DARK_GRAY, fb', [Touch i]).
Proof.
  destruct (X13_pixel_2bit fb_2x2 1 1 DARK_GRAY) as (fb' & i & H1 & _ & _ & _ & H2 & _).
  - apply (new_well_formed 2 2 2 0); [reflexivity|lia|lia].
  - reflexivity.
  - reflexivity.
  - exists fb', i. split; [exact H1|exact H2].
Defined.

Lemma put1_facts v bit c :
  0 <= v < 256 -> 0 <= bit < 8 ->
  is_byte (put1 v bit c) = true
  /\ pix1 (put1 v bit c) bit = (if nonzero c then WHITE else BLACK)
  /\ forall bit', 0 <= bit' < 8 -> bit' <> bit ->
       pix1 (put1 v bit c) bit' = pix1 v bit'.
Proof.
  intros Hv Hb.
  assert (Hc : exists c1, 0 <= c1 < 2 /\ put1 v bit c = put1 v bit c1
                          /\ nonzero c = nonzero c1).
  { unfold put1. destruct (nonzero c); [exists 1|exists 0];
      repeat split; try lia; reflexivity. }
  destruct Hc as (c1 & Hc01 & -> & ->).
  pose (P := fun v => forallb (fun bit => forallb (fun c =>
    is_byte (put1 v bit c)
    && (pix1 (put1 v bit c) bit =? if nonzero c then WHITE else BLACK)
    && forallb (fun bit' => (bit' =? bit)
                            || (pix1 (put1 v bit c) bit' =? pix1 v bit'))
         (range 0 8))
    (range 0 2)) (range 0 8)).
  assert (H : forallb P (range 0 256) = true) by (vm_compute; reflexivity).
  pose proof (forallb_range _ _ _
               (forallb_range _ _ _ (forallb_range _ _ _ H v Hv) bit Hb) c1 Hc01)
    as H'.
  cbv beta in H'. apply andb_prop in H' as [H1 H3].
  apply andb_prop in H1 as [H1 H2]. apply Z.eqb_eq in H2.
  split; [exact H1|]. split; [exact H2|].
  intros bit' Hb' Hne.
  pose proof (forallb_range _ _ _ H3 bit' Hb') as H4. cbv beta in H4.
  apply orb_prop in H4 as [H4|H4]; [apply Z.eqb_eq in H4; contradiction|].
  apply Z.eqb_eq in H4. exact H4.
Qed.

Lemma px_facts px :
  0 <= px -> Z.shiftr px 3 = px / 8 /\ Z.land px 7 = px mod 8.
Proof.
  intros H. split.
  - rewrite Z.shiftr_div_pow2 by lia. reflexivity.
  - change 7 with (Z.ones 3). rewrite Z.land_ones by lia. reflexivity.
Qed.

Lemma bit_mask_index bit :
  0 <= bit < 8 ->
  index _BIT_MASKS bit = Ok (Z.shiftl 1 (7 - bit))
  /\ index _INV_MASKS bit
     = Ok (Z.land (Z.lnot (Z.shiftl 1 (7 - bit))) _BYTE_MASK).
Proof.
  intros H. unfold _BIT_MASKS, _INV_MASKS, _BITS_PER_BYTE.
  rewrite !index_map_range by lia. auto.
Qed.

Lemma set_pixel_1bit_run fb px py color :
  let idx := py * _row_bytes fb + px / 8 in
  0 <= px -> 0 <= idx < len (_buffer fb) ->
  Forall (fun b => is_byte b = true) (_buffer fb) ->
  _set_pixel_1bit px py color fb
  = (Ok tt,
     with_buffer fb
       (<[Z.to_nat idx := put1 (byte_at (_buffer fb) idx) (px mod 8) color]>
          (_buffer fb)),
     [Touch idx; Touch idx]).
Proof.
  intros idx Hpx Hi Hb.
  pose proof (Z.mod_pos_bound px 8 ltac:(lia)) as Hm.
  unfold _set_pixel_1bit. unfold bind at 1. cbv [gets].
  destruct (px_facts px Hpx) as [-> ->]. fold idx.
  destruct (bit_mask_index (px mod 8) Hm) as [Hm1 Hm2].
  pose proof (byte_at_byte (_buffer fb) idx Hb Hi) as Hv.
  destruct (put1_facts (byte_at (_buffer fb) idx) (px mod 8) color Hv Hm)
    as (Hbyte & _ & _).
  unfold put1 in *.
  destruct (nonzero color).
  - unfold bind at 1. rewrite Hm1. cbn [of_result ret].
    unfold buf_or, bind. rewrite buf_get_run by exact Hi.
    rewrite buf_set_run by auto. reflexivity.
  - unfold bind at 1. rewrite Hm2. cbn [of_result ret].
    unfold buf_and, bind. rewrite buf_get_run by exact Hi.
    rewrite buf_set_run by auto. reflexivity.
Qed.

Lemma get_pixel_1bit_run fb px py :
  let idx := py * _row_bytes fb + px / 8 in
  0 <= px -> 0 <= idx < len (_buffer fb) ->
  _get_pixel_1bit px py fb
  = (Ok (pix1 (byte_at (_buffer fb) idx) (px mod 8)), fb, [Touch idx]).
Proof.
  intros idx Hpx Hi.
  pose proof (Z.mod_pos_bound px 8 ltac:(lia)) as Hm.
  unfold _get_pixel_1bit. unfold bind at 1. cbv [gets].
  destruct (px_facts px Hpx) as [-> ->]. fold idx.
  destruct (bit_mask_index (px mod 8) Hm) as [Hm1 _].
  unfold bind. rewrite buf_get_run by exact Hi. rewrite Hm1.
  reflexivity.
Qed.

Lemma pixel_index_1bit fb px py :
  well_formed fb -> _depth fb = 1 -> rows_fit fb ->
  0 <= px < _phys_w fb -> 0 <= py < _phys_h fb ->
  0 <= px / 8 < _row_bytes fb
  /\ 0 <= py * _row_bytes fb + px / 8 < len (_buffer fb).
Proof.
  intros (_ & Hw & Hh & Hsz & Hrb & Hlen & _) Hd Hfit Hx Hy.
  unfold rows_fit in Hfit. rewrite Hd in Hrb. rewrite Hlen.
  assert (H8 : 0 <= px / 8 < _row_bytes fb).
  { rewrite Hrb.
    pose proof (Z.div_mod px 8 ltac:(lia)).
    pose proof (Z.mod_pos_bound px 8 ltac:(lia)).
    pose proof (Z.div_mod (_phys_w fb * 1 + 7) 8 ltac:(lia)).
    pose proof (Z.mod_pos_bound (_phys_w fb * 1 + 7) 8 ltac:(lia)).
    lia. }
  split; [exact H8|]. nia.
Qed.

Lemma rows_fit_aligned fb :
  well_formed fb -> _depth fb = 1 -> _phys_w fb mod 8 = 0 -> rows_fit fb.
Proof.
  intros (_ & Hw & Hh & Hsz & Hrb & _) Hd Hal.
  unfold rows_fit. rewrite Hsz, Hrb, Hd.
  pose proof (Z.div_mod (_phys_w fb) 8 ltac:(lia)) as Hdm.
  rewrite Hal in Hdm. set (q := _phys_w fb / 8) in *.
  replace (_phys_w fb * 1 + 7) with (7 + q * 8) by lia.
  replace (_phys_w fb * _phys_h fb * 1 + 7) with (7 + (q * _phys_h fb) * 8) by lia.
  rewrite !Z.div_add by lia. change (7 / 8) with 0. lia.
Qed.

(** X14: on a well-formed 1-bit buffer whose rows fit the byte array
    (as they do when the physical width is a multiple of 8), [pixel]
    at a point in bounds returns, reads and writes one byte inside the
    buffer, and changes that pixel only: [get_pixel] then returns
    [WHITE] there when the effective colour is not 0 and [BLACK] when
    it is, and what it returned before everywhere else. *)
Theorem X14_pixel_1bit fb x y color :
  well_formed fb -> _depth fb = 1 -> rows_fit fb ->
  in_bounds fb x y = true ->
  exists fb' i,
    pixel x y color fb = (Ok tt, fb', [Touch i; Touch i])
    /\ 0 <= i < _buffer_size fb
    /\ same_shape fb fb' /\ well_formed fb'
    /\ get_pixel x y fb'
       = (Ok (if nonzero (_effective_color fb color) then WHITE else BLACK),
          fb', [Touch i])
    /\ forall x' y',
         in_bounds fb x' y' = true -> (x', y') <> (x, y) ->
         result_of (get_pixel x' y' fb') = result_of (get_pixel x' y' fb).
Proof.
  intros Hwf Hd Hfit Hb.
  pose proof Hwf as (_ & Hw & Hh & Hsz & _ & Hlen & Hbytes & _ & _ & _).
  destruct (transform_in_bounds fb x y Hwf Hb) as [Hpx Hpy].
  destruct (pixel_index_1bit fb _ _ Hwf Hd Hfit Hpx Hpy) as [Hc Hi].
  set (px := (transform fb x y).1) in *. set (py := (transform fb x y).2) in *.
  set (idx := py * _row_bytes fb + px / 8) in *.
  set (v := put1 (byte_at (_buffer fb) idx) (px mod 8)
                 (_effective_color fb color)).
  set (fb' := with_buffer fb (<[Z.to_nat idx := v]> (_buffer fb))).
  pose proof (Z.mod_pos_bound px 8 ltac:(lia)) as Hm.
  pose proof (byte_at_byte (_buffer fb) idx Hbytes Hi) as Hv.
  destruct (put1_facts (byte_at (_buffer fb) idx) (px mod 8)
              (_effective_color fb color) Hv Hm) as (Hbyte & Hsame & Hother).
  fold v in Hbyte, Hsame, Hother.
  assert (Hwf' : well_formed fb').
  { apply well_formed_with_buffer; auto using len_insert, insert_bytes. }
  assert (Hin : forall a b, in_bounds fb' a b = in_bounds fb a b) by reflexivity.
  assert (Htr : forall a b, transform fb' a b = transform fb a b) by reflexivity.
  exists fb', idx.
  split.
  { rewrite pixel_in_bounds_run by exact Hb. rewrite Hd. cbn [Z.eqb Pos.eqb].
    fold px py. rewrite set_pixel_1bit_run; fold idx; auto; lia. }
  split; [lia|]. split; [reflexivity|]. split; [exact Hwf'|].
  split.
  { rewrite get_pixel_in_bounds_run by (rewrite Hin; exact Hb).
    change (_depth fb') with (_depth fb). rewrite Hd. cbn [Z.eqb Pos.eqb].
    rewrite Htr. fold px py.
    rewrite get_pixel_1bit_run;
      change (_row_bytes fb') with (_row_bytes fb); fold idx;
      change (_buffer fb') with (<[Z.to_nat idx := v]> (_buffer fb));
      rewrite ?len_insert; try lia.
    rewrite byte_at_insert by lia. rewrite Z.eqb_refl, Hsame. reflexivity. }
  intros x' y' Hb' Hne.
  destruct (transform_in_bounds fb x' y' Hwf Hb') as [Hpx' Hpy'].
  destruct (pixel_index_1bit fb _ _ Hwf Hd Hfit Hpx' Hpy') as [Hc' Hi'].
  assert (Hnn : (transform fb x' y').2 * _row_bytes fb + (transform fb x' y').1 / 8
                = idx ->
                (transform fb x' y').1 mod 8 <> px mod 8).
  { intros E E8. apply Hne. apply (transform_inj fb).
    destruct (transform fb x' y') as [a b], (transform fb x y) as [c d].
    cbn [fst snd] in *. subst px py idx.
    pose proof (Z.div_mod a 8 ltac:(lia)).
    pose proof (Z.div_mod c 8 ltac:(lia)).
    assert (b = d) by nia. f_equal; [nia|assumption]. }
  rewrite !get_pixel_in_bounds_run by (rewrite ?Hin; exact Hb').
  change (_depth fb') with (_depth fb). rewrite Hd. cbn [Z.eqb Pos.eqb].
  rewrite Htr.
  set (px' := (transform fb x' y').1) in *.
  set (py' := (transform fb x' y').2) in *.
  set (idx' := py' * _row_bytes fb + px' / 8) in *.
  rewrite (get_pixel_1bit_run fb) by (fold idx'; lia).
  rewrite (get_pixel_1bit_run fb');
    change (_row_bytes fb') with (_row_bytes fb); fold idx';
    change (_buffer fb') with (<[Z.to_nat idx := v]> (_buffer fb));
    rewrite ?len_insert; try lia.
  unfold result_of. cbn [fst]. f_equal.
  rewrite byte_at_insert by lia.
  pose proof (Z.mod_pos_bound px' 8 ltac:(lia)).
  destruct (Z.eqb_spec idx' idx) as [E|E]; [|reflexivity].
  rewrite E. apply Hother; [lia|]. apply Hnn. exact E.
Qed.

Lemma X14_witness :
  exists fb' i,
    pixel 3 1 WHITE fb_8x2 = (Ok tt, fb', [Touch i; Touch i])
    /\ get_pixel 3 1 fb' = (Ok WHITE, fb', [Touch i]).
Proof.
  destruct (X14_pixel_1bit fb_8x2 3 1 WHITE) as (fb' & i & H1 & _ & _ & _ & H2 & _).
  - apply (new_well_formed 8 2 1 0); [reflexivity|lia|lia].
  - reflexivity.
  - unfold rows_fit. vm_compute. discriminate.
  - reflexivity.
  - exists fb', i. split; [exact H1|exact H2].
Defined.

Lemma lookup_repeat {A} (f : A) n : forall k,
  (k < n)%nat -> repeat f n !! k = Some f.
Proof.
  induction n as [|n IH]; intros [|k] H; cbn; try lia; auto.
  apply IH. lia.
Qed.

Lemma byte_at_repeat f n k :
  0 <= k < Z.of_nat n -> byte_at (repeat f n) k = f.
Proof.
  intros H. unfold byte_at. rewrite lookup_repeat by lia. reflexivity.
Qed.

Lemma fill_pix_facts c r bit :
  0 <= r < 4 -> 0 <= bit < 8 ->
  is_byte (Z.land c 3 * 0x55) = true
  /\ pix (Z.land c 3 * 0x55) r = Z.land c 3
  /\ pix1 0xFF bit = WHITE /\ pix1 0x00 bit = BLACK.
Proof.
  intros Hr Hb. pose proof (land3_range c) as Hc.
  set (c3 := Z.land c 3) in *. clearbody c3.
  pose (P := fun c => forallb (fun r => forallb (fun bit =>
    is_byte (c * 0x55) && (pix (c * 0x55) r =? c)
    && (pix1 0xFF bit =? WHITE) && (pix1 0x00 bit =? BLACK))
    (range 0 8)) (range 0 4)).
  assert (H : forallb P (range 0 4) = true) by (vm_compute; reflexivity).
  pose proof (forallb_range _ _ _
               (forallb_range _ _ _ (forallb_range _ _ _ H c3 Hc) r Hr) bit Hb)
    as H'.
  cbv beta in H'. rewrite !andb_true_iff, !Z.eqb_eq in H'. tauto.
Qed.

Lemma get_pixel_ok_index fb x y c :
  well_formed fb -> _depth fb = 1 -> in_bounds fb x y = true ->
  result_of (get_pixel x y fb) = Ok c ->
  0 <= (transform fb x y).2 * _row_bytes fb + (transform fb x y).1 / 8
    < len (_buffer fb).
Proof.
  intros Hwf Hd Hb Hget.
  pose proof Hwf as (_ & Hw & Hh & _ & Hrb & _).
  destruct (transform_in_bounds fb x y Hwf Hb) as [Hpx Hpy].
  rewrite get_pixel_in_bounds_run in Hget by exact Hb.
  rewrite Hd in Hget, Hrb. cbn [Z.eqb Pos.eqb] in Hget.
  set (px := (transform fb x y).1) in *. set (py := (transform fb x y).2) in *.
  assert (Hrbn : 0 <= _row_bytes fb)
    by (rewrite Hrb; apply Z.div_pos; lia).
  assert (H8 : 0 <= px / 8) by (apply Z.div_pos; lia).
  assert (Hidx : 0 <= py * _row_bytes fb + px / 8) by nia.
  split; [exact Hidx|].
  destruct (Z.ltb_spec (py * _row_bytes fb + px / 8) (len (_buffer fb)))
    as [Hlt|Hge]; [exact Hlt|exfalso].
  unfold _get_pixel_1bit in Hget. unfold bind at 1 in Hget. cbv [gets] in Hget.
  destruct (px_facts px ltac:(lia)) as [E1 _]. rewrite E1 in Hget.
  unfold bind at 1 in Hget. unfold buf_get in Hget.
  cbv [bind emit gets] in Hget. unfold index in Hget.
  destruct (Z.ltb_spec (py * _row_bytes fb + px / 8) 0); [lia|].
  destruct (Z.leb_spec 0 (py * _row_bytes fb + px / 8)); [|lia].
  destruct (Z.ltb_spec (py * _row_bytes fb + px / 8) (len (_buffer fb))); [lia|].
  cbn in Hget. discriminate Hget.
Qed.

(** X15: [clear] on a well-formed buffer returns and replaces the whole
    byte array by one fill byte; the buffer stays well formed.
    [get_pixel] then returns the stored form of the effective colour
    at every point in bounds where it returned before the call; on a
    2-bit buffer, and on a 1-bit buffer whose rows fit the byte array,
    that is every point in bounds. *)
Theorem X15_clear fb color :
  well_formed fb ->
  let eff := _effective_color fb color in
  exists fb',
    clear color fb = (Ok tt, fb', [Span 0 (_buffer_size fb)])
    /\ same_shape fb fb' /\ well_formed fb'
    /\ (exists fill, _buffer fb' = repeat fill (Z.to_nat (_buffer_size fb)))
    /\ (forall x y,
          in_bounds fb x y = true -> (_depth fb = 1 -> rows_fit fb) ->
          result_of (get_pixel x y fb') = Ok (stored_color fb eff))
    /\ (forall x y c0,
          in_bounds fb x y = true ->
          result_of (get_pixel x y fb) = Ok c0 ->
          result_of (get_pixel x y fb') = Ok (stored_color fb eff)).
Proof.
  intros Hwf eff.
  pose proof Hwf as (Hdep & Hw & Hh & Hsz & Hrb & Hlen & Hbytes & _ & _ & _).
  assert (Hs : 0 <= _buffer_size fb) by (rewrite <- Hlen; unfold len; lia).
  set (fill := if _depth fb =? 1
               then (if nonzero eff then _BYTE_MASK else _BYTE_ZERO)
               else Z.land eff _TWO_BIT_MASK * _TWO_BIT_FILL).
  assert (Hfill : is_byte fill = true).
  { subst fill. destruct (_depth fb =? 1).
    - destruct (nonzero eff); reflexivity.
    - apply (fill_pix_facts eff 0 0); lia. }
  set (fb' := with_buffer fb (repeat fill (Z.to_nat (_buffer_size fb)))).
  assert (Hlr : len (repeat fill (Z.to_nat (_buffer_size fb)))
                = len (_buffer fb)).
  { rewrite Hlen. unfold len. rewrite repeat_length. lia. }
  assert (Hwf' : well_formed fb').
  { apply well_formed_with_buffer; auto.
    apply List.Forall_forall. intros b Hb. apply repeat_spec in Hb as ->.
      exact Hfill. }
  exists fb'. split.
  { unfold clear. cbv [bind get]. fold eff. fold fill.
    unfold bytes_times. rewrite Hfill. cbn [of_result ret].
    unfold buf_fill. cbv [bind emit gets set_buffer modify].
    rewrite slice_set_all, Hlen. reflexivity. }
  split; [reflexivity|]. split; [exact Hwf'|]. split; [eauto|].
  assert (Hread : forall x y,
            in_bounds fb x y = true ->
            (_depth fb = 1 ->
             0 <= (transform fb x y).2 * _row_bytes fb
                  + (transform fb x y).1 / 8 < len (_buffer fb)) ->
            result_of (get_pixel x y fb') = Ok (stored_color fb eff));
    [|split;
      [intros x y Hb Hfit; apply Hread; [exact Hb|]; intros Hd;
       destruct (transform_in_bounds fb x y Hwf Hb) as [Hpx Hpy];
       apply (pixel_index_1bit fb _ _ Hwf Hd (Hfit Hd) Hpx Hpy)
      |intros x y c0 Hb Hget; apply Hread; [exact Hb|]; intros Hd;
       apply (get_pixel_ok_index fb x y c0 Hwf Hd Hb Hget)]].
  intros x y Hb Hidx.
  assert (Hin : in_bounds fb' x y = true) by exact Hb.
  destruct (transform_in_bounds fb x y Hwf Hb) as [Hpx Hpy].
  rewrite get_pixel_in_bounds_run by exact Hin.
  change (transform fb' x y) with (transform fb x y).
  change (_depth fb') with (_depth fb).
  unfold stored_color.
  destruct Hdep as [Hd|Hd]; rewrite Hd; cbn [Z.eqb Pos.eqb].
  - pose proof (Hidx Hd) as Hi.
    rewrite get_pixel_1bit_run;
      change (_row_bytes fb') with (_row_bytes fb);
      change (_buffer fb') with (repeat fill (Z.to_nat (_buffer_size fb)));
      rewrite ?Hlr; try lia.
    unfold result_of. cbn [fst]. f_equal.
    rewrite byte_at_repeat by (rewrite <- Hlen in *; lia).
    pose proof (Z.mod_pos_bound (transform fb x y).1 8 ltac:(lia)) as Hm.
    destruct (fill_pix_facts 0 0 _ ltac:(lia) Hm) as (_ & _ & HW & HB).
    subst fill. rewrite Hd. cbn [Z.eqb Pos.eqb].
    destruct (nonzero eff); assumption.
  - rewrite Hd in Hsz.
    destruct (pixel_index_2bit _ _ _ _ Hpx Hpy) as [Hn Hi].
    rewrite get_pixel_2bit_run;
      change (_phys_w fb') with (_phys_w fb);
      change (_buffer fb') with (repeat fill (Z.to_nat (_buffer_size fb)));
      rewrite ?Hlr; try lia.
    unfold result_of. cbn [fst]. f_equal.
    rewrite byte_at_repeat by lia.
    set (n := (transform fb x y).2 * _phys_w fb + (transform fb x y).1) in *.
    pose proof (Z.mod_pos_bound n 4 ltac:(lia)) as Hm.
    destruct (fill_pix_facts eff (n mod 4) 0 Hm ltac:(lia)) as (_ & HP & _).
    subst fill. rewrite Hd. cbn [Z.eqb Pos.eqb]. exact HP.
Qed.

Lemma X15_witness :
  exists fb',
    clear LIGHT_GRAY fb_4x2 = (Ok tt, fb', [Span 0 2])
    /\ result_of (get_pixel 3 1 fb') = Ok LIGHT_GRAY.
Proof.
  destruct (X15_clear fb_4x2 LIGHT_GRAY) as (fb' & H1 & _ & _ & _ & H2 & _).
  - apply (new_well_formed 4 2 2 0); [reflexivity|lia|lia].
  - exists fb'. split; [exact H1|]. apply H2; [reflexivity|discriminate].
Defined.

Lemma range_cons a m :
  range a (a + Z.of_nat (S m)) = a :: range (a + 1) (a + 1 + Z.of_nat m).
Proof.
  unfold range.
  replace (Z.to_nat (a + Z.of_nat (S m) - a)) with (S m) by lia.
  replace (Z.to_nat (a + 1 + Z.of_nat m - (a + 1))) with m by lia.
  cbn [seq map]. f_equal; [lia|].
  rewrite <- seq_shift, map_map. apply map_ext. intros k. lia.
Qed.

Lemma xor_facts v r bit :
  0 <= v < 256 -> 0 <= r < 4 -> 0 <= bit < 8 ->
  is_byte (Z.lxor v _BYTE_MASK) = true
  /\ Z.lxor (Z.lxor v _BYTE_MASK) _BYTE_MASK = v
  /\ pix (Z.lxor v _BYTE_MASK) r = WHITE - pix v r
  /\ pix1 (Z.lxor v _BYTE_MASK) bit = WHITE - pix1 v bit.
Proof.
  intros Hv Hr Hb.
  pose (P := fun v => forallb (fun r => forallb (fun bit =>
    is_byte (Z.lxor v _BYTE_MASK)
    && (Z.lxor (Z.lxor v _BYTE_MASK) _BYTE_MASK =? v)
    && (pix (Z.lxor v _BYTE_MASK) r =? WHITE - pix v r)
    && (pix1 (Z.lxor v _BYTE_MASK) bit =? WHITE - pix1 v bit))
    (range 0 8)) (range 0 4)).
  assert (H : forallb P (range 0 256) = true) by (vm_compute; reflexivity).
  pose proof (forallb_range _ _ _
               (forallb_range _ _ _ (forallb_range _ _ _ H v Hv) r Hr) bit Hb)
    as H'.
  cbv beta in H'. rewrite !andb_true_iff, !Z.eqb_eq in H'. tauto.
Qed.

Lemma xor_loop m : forall a fb,
  0 <= a -> a + Z.of_nat m <= len (_buffer fb) ->
  Forall (fun b => is_byte b = true) (_buffer fb) ->
  exists b',
    for_each (range a (a + Z.of_nat m)) (fun i => buf_xor i _BYTE_MASK) fb
    = (Ok tt, with_buffer fb b',
       flat_map (fun i => [Touch i; Touch i]) (range a (a + Z.of_nat m)))
    /\ len b' = len (_buffer fb)
    /\ Forall (fun b => is_byte b = true) b'
    /\ forall k, 0 <= k < len (_buffer fb) ->
         byte_at b' k
         = if (a <=? k) && (k <? a + Z.of_nat m)
           then Z.lxor (byte_at (_buffer fb) k) _BYTE_MASK
           else byte_at (_buffer fb) k.
Proof.
  induction m as [|m IH]; intros a fb Ha Hl Hb.
  - exists (_buffer fb). unfold range.
    replace (Z.to_nat (a + Z.of_nat 0 - a)) with 0%nat by lia.
    cbn [seq map for_each flat_map].
    split; [destruct fb; reflexivity|]. split; [reflexivity|].
    split; [exact Hb|]. intros k Hk.
    destruct ((a <=? k) && (k <? a + Z.of_nat 0)) eqn:E; [|reflexivity].
    rewrite andb_true_iff, Z.leb_le, Z.ltb_lt in E. lia.
  - rewrite range_cons. cbn [for_each flat_map].
    assert (Hi : 0 <= a < len (_buffer fb)) by lia.
    pose proof (byte_at_byte _ a Hb Hi) as Hv.
    destruct (xor_facts _ 0 0 Hv ltac:(lia) ltac:(lia)) as (Hx & _).
    set (b1 := <[Z.to_nat a := Z.lxor (byte_at (_buffer fb) a) _BYTE_MASK]>
                 (_buffer fb)).
    destruct (IH (a + 1) (with_buffer fb b1)) as (b' & Heq & Hlen' & Hb' & Hk');
      try (cbn [_buffer with_buffer]; subst b1; rewrite ?len_insert; lia).
    { cbn [_buffer with_buffer]. subst b1. apply insert_bytes; auto. }
    cbn [_buffer with_buffer] in *.
    exists b'. split.
    { unfold bind at 1. unfold buf_xor at 1. unfold bind at 1.
      rewrite buf_get_run by exact Hi. rewrite buf_set_run by auto.
      fold b1. rewrite Heq. reflexivity. }
    split; [subst b1; rewrite len_insert in Hlen'; exact Hlen'|].
    split; [exact Hb'|].
    intros k Hk. rewrite Hk' by (subst b1; rewrite len_insert; lia).
    subst b1. rewrite byte_at_insert by lia.
    assert (E1 : (a + 1 <=? k) && (k <? a + 1 + Z.of_nat m)
                 = negb (k =? a) && ((a <=? k) && (k <? a + Z.of_nat (S m)))).
    { destruct (Z.eqb_spec k a), (Z.leb_spec (a + 1) k), (Z.leb_spec a k),
               (Z.ltb_spec k (a + 1 + Z.of_nat m)),
               (Z.ltb_spec k (a + Z.of_nat (S m)));
        cbn [andb negb]; try reflexivity; lia. }
    rewrite E1.
    destruct (Z.eqb_spec k a) as [->|Hne]; cbn [negb andb]; [|reflexivity].
    destruct (Z.leb_spec a a), (Z.ltb_spec a (a + Z.of_nat (S m)));
      cbn [andb]; try reflexivity; lia.
Qed.

Lemma bytes_eq_pointwise (b1 b2 : list Z) :
  len b1 = len b2 ->
  (forall k, 0 <= k < len b1 -> byte_at b1 k = byte_at b2 k) ->
  b1 = b2.
Proof.
  intros Hl Hk. apply list_eq. intros i.
  destruct (Nat.lt_ge_cases i (length b1)) as [Hlt|Hge].
  - specialize (Hk (Z.of_nat i) ltac:(unfold len; lia)).
    unfold byte_at in Hk. rewrite Nat2Z.id in Hk.
    destruct (lookup_lt_is_Some_2 b1 i Hlt) as [v1 E1].
    destruct (lookup_lt_is_Some_2 b2 i ltac:(unfold len in Hl; lia)) as [v2 E2].
    rewrite E1, E2 in *. cbn in Hk. congruence.
  - rewrite !(proj2 (lookup_ge_None _ _)); auto. unfold len in Hl. lia.
Qed.

Lemma byte_at_map f (buf : list Z) k :
  0 <= k < len buf -> byte_at (map f buf) k = f (byte_at buf k).
Proof.
  intros Hk. unfold byte_at. rewrite list_lookup_fmap.
  destruct (lookup_lt_is_Some_2 buf (Z.to_nat k) ltac:(unfold len in Hk; lia))
    as [v E].
  rewrite E. reflexivity.
Qed.

Lemma len_map {A B} (f : A -> B) l : len (map f l) = len l.
Proof. unfold len. rewrite length_map. reflexivity. Qed.

Lemma invert_run fb :
  well_formed fb ->
  invert fb
  = (Ok tt,
     mkFrameBuffer (_phys_w fb) (_phys_h fb) (_depth fb) (_buffer_size fb)
       (map (fun v => Z.lxor v _BYTE_MASK) (_buffer fb))
       (_row_bytes fb) (negb (_inverted fb)) (_rot_props fb)
       (_rotation fb) (width fb) (height fb),
     flat_map (fun i => [Touch i; Touch i]) (range 0 (_buffer_size fb))).
Proof.
  intros (Hdep & Hw & Hh & Hsz & Hrb & Hlen & Hbytes & _).
  assert (Hs : 0 <= _buffer_size fb) by (rewrite <- Hlen; unfold len; lia).
  destruct (xor_loop (Z.to_nat (_buffer_size fb)) 0 fb) as (b' & Heq & Hl' & Hb' & Hk');
    try lia; auto.
  rewrite Z2Nat.id in Heq, Hk' by lia. rewrite Z.add_0_l in Heq, Hk'.
  assert (Hmap : b' = map (fun v => Z.lxor v _BYTE_MASK) (_buffer fb)).
  { apply bytes_eq_pointwise; [rewrite len_map; exact Hl'|].
    intros k Hk. rewrite Hk' by lia. rewrite byte_at_map by lia.
    match goal with |- (if ?c then _ else _) = _ => destruct c eqn:E end;
      [reflexivity|].
    rewrite andb_false_iff, Z.leb_gt, Z.ltb_ge in E. lia. }
  unfold invert. unfold bind at 1. cbv [gets].
  unfold bind at 1. rewrite Heq. cbv [bind gets set_inverted modify].
  cbn [with_buffer _phys_w _phys_h _depth _buffer_size _buffer _row_bytes
       _inverted _rot_props _rotation width height].
  rewrite Hmap, app_nil_r. reflexivity.
Qed.

(** X16: [invert] on a well-formed buffer returns, flips every byte of
    the array and the inverted flag, and touches every byte once for
    reading and once for writing, in order.  A second [invert] gives
    the original buffer back.  At every point in bounds where
    [get_pixel] returned [c] it then returns [3 - c]; on a 2-bit
    buffer, and on a 1-bit buffer whose rows fit the byte array,
    [get_pixel] returns at every point in bounds. *)
Theorem X16_invert fb :
  well_formed fb ->
  let o := invert fb in
  result_of o = Ok tt
  /\ _buffer (final o) = map (fun v => Z.lxor v _BYTE_MASK) (_buffer fb)
  /\ _inverted (final o) = negb (_inverted fb)
  /\ well_formed (final o)
  /\ log o = flat_map (fun i => [Touch i; Touch i]) (range 0 (_buffer_size fb))
  /\ final (invert (final o)) = fb
  /\ (forall x y,
        in_bounds fb x y = true -> (_depth fb = 1 -> rows_fit fb) ->
        exists c,
          result_of (get_pixel x y fb) = Ok c
          /\ result_of (get_pixel x y (final o)) = Ok (WHITE - c))
  /\ (forall x y c,
        in_bounds fb x y = true ->
        result_of (get_pixel x y fb) = Ok c ->
        result_of (get_pixel x y (final o)) = Ok (WHITE - c)).
Proof.
  intros Hwf. cbv zeta. rewrite (invert_run fb Hwf).
  unfold result_of, final, log. cbn [fst snd].
  pose proof Hwf as (Hdep & Hw & Hh & Hsz & Hrb & Hlen & Hbytes & Hrot & Hwd & Hht).
  set (fb' := mkFrameBuffer _ _ _ _ _ _ _ _ _ _ _).
  assert (Hb' : Forall (fun b => is_byte b = true)
                  (map (fun v => Z.lxor v _BYTE_MASK) (_buffer fb))).
  { apply List.Forall_forall. intros b Hb. apply in_map_iff in Hb as (v & <- & Hv).
    rewrite List.Forall_forall in Hbytes. specialize (Hbytes v Hv).
    apply is_byte_iff in Hbytes.
    apply (xor_facts v 0 0); lia. }
  assert (Hwf' : well_formed fb').
  { unfold well_formed, fb'. cbn. rewrite len_map. repeat split; auto. }
  split; [reflexivity|]. split; [reflexivity|]. split; [reflexivity|].
  split; [exact Hwf'|]. split; [reflexivity|].
  split.
  { rewrite (invert_run fb' Hwf'). cbn [fst snd]. unfold fb'. cbn.
    rewrite negb_involutive, map_map.
    replace (map (fun x => Z.lxor (Z.lxor x _BYTE_MASK) _BYTE_MASK) (_buffer fb))
      with (_buffer fb); [destruct fb; reflexivity|].
    rewrite <- (map_id (_buffer fb)) at 1. apply map_ext_in.
    intros v Hv. rewrite List.Forall_forall in Hbytes. specialize (Hbytes v Hv).
    apply is_byte_iff in Hbytes.
    symmetry. apply (xor_facts v 0 0); lia. }
  assert (Hread : forall x y,
            in_bounds fb x y = true ->
            (_depth fb = 1 ->
             0 <= (transform fb x y).2 * _row_bytes fb
                  + (transform fb x y).1 / 8 < len (_buffer fb)) ->
            exists c,
              result_of (get_pixel x y fb) = Ok c
              /\ result_of (get_pixel x y fb') = Ok (WHITE - c));
    [|split;
      [intros x y Hb Hfit; apply Hread; [exact Hb|]; intros Hd;
       destruct (transform_in_bounds fb x y Hwf Hb) as [Hpx Hpy];
       apply (pixel_index_1bit fb _ _ Hwf Hd (Hfit Hd) Hpx Hpy)
      |intros x y c Hb Hget;
       destruct (Hread x y Hb
                   (fun Hd => get_pixel_ok_index fb x y c Hwf Hd Hb Hget))
         as (c' & H1 & H2);
       unfold result_of in *;
       rewrite H1 in Hget; injection Hget as <-; exact H2]].
  intros x y Hb Hidx. unfold result_of.
  assert (Hin : in_bounds fb' x y = true) by exact Hb.
  destruct (transform_in_bounds fb x y Hwf Hb) as [Hpx Hpy].
  rewrite !get_pixel_in_bounds_run by assumption.
  change (transform fb' x y) with (transform fb x y).
  change (_depth fb') with (_depth fb).
  destruct Hdep as [Hd|Hd]; rewrite Hd; cbn [Z.eqb Pos.eqb].
  - pose proof (Hidx Hd) as Hi.
    rewrite (get_pixel_1bit_run fb) by lia.
    rewrite (get_pixel_1bit_run fb');
      change (_row_bytes fb') with (_row_bytes fb);
      change (_buffer fb') with (map (fun v => Z.lxor v _BYTE_MASK) (_buffer fb));
      rewrite ?len_map; try lia.
    eexists. split; [reflexivity|]. cbn [fst]. f_equal.
    rewrite byte_at_map by lia.
    pose proof (Z.mod_pos_bound (transform fb x y).1 8 ltac:(lia)) as Hm.
    apply (xor_facts _ 0 _ (byte_at_byte _ _ Hbytes Hi)); [lia|exact Hm].
  - rewrite Hd in Hsz.
    destruct (pixel_index_2bit _ _ _ _ Hpx Hpy) as [Hn Hi].
    rewrite (get_pixel_2bit_run fb) by lia.
    rewrite (get_pixel_2bit_run fb');
      change (_phys_w fb') with (_phys_w fb);
      change (_buffer fb') with (map (fun v => Z.lxor v _BYTE_MASK) (_buffer fb));
      rewrite ?len_map; try lia.
    eexists. split; [reflexivity|]. cbn [fst]. f_equal.
    rewrite byte_at_map by lia.
    set (n := (transform fb x y).2 * _phys_w fb + (transform fb x y).1) in *.
    pose proof (Z.mod_pos_bound n 4 ltac:(lia)) as Hm.
    assert (Hi' : 0 <= n / 4 < len (_buffer fb)) by lia.
    apply (xor_facts _ _ 0 (byte_at_byte _ _ Hbytes Hi') Hm). lia.
Qed.

Lemma X16_witness : final (invert (final (invert fb_4x2))) = fb_4x2.
Proof.
  refine (proj1 (proj2 (proj2 (proj2 (proj2 (proj2 (X16_invert fb_4x2 _))))))).
  apply (new_well_formed 4 2 2 0); [reflexivity|lia|lia].
Defined.

End BufferOperations.

(** * Properties of the text renderer *)

Section TextFacts.
Import Text Examples.

Lemma od_get_In {V} (d : list (Z * V)) k v :
  od_get d k = Some v -> In (k, v) d.
Proof.
  induction d as [|[k' v'] d IH]; cbn; [discriminate|].
  destruct (Z.eqb_spec k' k) as [->|]; [intros [= ->]; auto | auto].
Qed.

Lemma od_del_incl {V} (d : list (Z * V)) k e : In e (od_del d k) -> In e d.
Proof.
  induction d as [|[k' v'] d IH]; cbn; [auto|].
  destruct (k' =? k); cbn; intuition.
Qed.

Lemma od_set_In {V} (d : list (Z * V)) k v e :
  In e (od_set d k v) -> e = (k, v) \/ In e d.
Proof.
  induction d as [|[k' v'] d IH]; cbn; [intuition|].
  destruct (k' =? k); cbn; intuition.
Qed.

Lemma evict_incl cache : forall size sz max e,
  In e (evict cache size sz max).1 -> In e cache.
Proof.
  induction cache as [|[k v] rest IH]; intros size sz max e; cbn; [auto|].
  destruct (max <? size + sz); cbn; [right; eauto | auto].
Qed.

Lemma find_glyph_stack_glyph fonts cp :
  find_glyph fonts cp = stack_glyph fonts cp.
Proof.
  unfold stack_glyph, first_font_with.
  induction fonts as [|f fonts IH]; cbn [find_glyph List.filter]; [reflexivity|].
  unfold get, has_glyph at 1, glyph_advance.
  destruct (index f !! cp) as [[w off]|] eqn:E; cbn [hd_error].
  - rewrite E. reflexivity.
  - exact IH.
Qed.

Lemma advance_width_code fonts cp :
  advance_width fonts cp
  = match find_glyph fonts cp with Some g => Some g.1.1.2 | None => None end.
Proof.
  rewrite find_glyph_stack_glyph. unfold advance_width, stack_glyph.
  destruct (first_font_with fonts cp) as [f|] eqn:E; [|reflexivity].
  assert (H : has_glyph cp f = true).
  { unfold first_font_with in E.
    destruct (List.filter (has_glyph cp) fonts) as [|g l] eqn:El; [discriminate|].
    injection E as ->.
    assert (Hin : In f (List.filter (has_glyph cp) fonts))
      by (rewrite El; left; reflexivity).
    apply filter_In in Hin. apply Hin. }
  unfold has_glyph in H.
  destruct (index f !! cp) as [[w off]|]; [reflexivity|discriminate].
Qed.

Lemma cache_coherent_code r :
  cache_coherent r
  <-> Forall (fun e => find_glyph (_fonts r) e.1 = Some e.2) (_cache r).
Proof.
  unfold cache_coherent. apply Forall_iff. intros e.
  rewrite find_glyph_stack_glyph. reflexivity.
Qed.

Lemma get_glyph_spec cp r :
  cache_coherent r ->
  (_get_glyph cp r).1 = find_glyph (_fonts r) cp
  /\ cache_coherent (_get_glyph cp r).2
  /\ _fonts (_get_glyph cp r).2 = _fonts r.
Proof.
  rewrite !cache_coherent_code. intros Hc. rewrite Forall_forall in Hc.
  unfold _get_glyph.
  destruct (od_get (_cache r) cp) as [g|] eqn:Hg.
  - cbn. apply od_get_In, list_elem_of_In in Hg.
    split; [symmetry; apply (Hc _ Hg)|]. split; [|reflexivity].
    rewrite Forall_forall. intros e He. apply Hc.
    unfold od_move_to_end in He.
    destruct (od_get (_cache r) cp) as [v|] eqn:Hv; [|exact He].
    apply list_elem_of_In in He. apply in_app_iff in He as [He|[<-|[]]];
      apply list_elem_of_In.
    + eapply od_del_incl; eauto.
    + apply od_get_In; auto.
  - destruct (find_glyph (_fonts r) cp) as [res|] eqn:Hf.
    + destruct (evict (_cache r) (_cache_size r) (len res.1.1.1) (_cache_max r))
        as [cache size] eqn:He.
      cbn. split; [reflexivity|]. split; [|reflexivity].
      rewrite Forall_forall. intros e Hin.
      apply list_elem_of_In, od_set_In in Hin as [->|Hin]; [exact Hf|].
      apply Hc, list_elem_of_In.
      eapply evict_incl. rewrite He. exact Hin.
    + cbn. split; [reflexivity|]. split; [|reflexivity].
      rewrite Forall_forall. exact Hc.
Qed.

Lemma measure_loop_spec text : forall scale f0 fonts' w r,
  cache_coherent r -> _fonts r = f0 :: fonts' ->
  (measure_loop text scale (def_w f0) w r).1
  = w + foldr Z.add 0 (map (char_width (_fonts r) scale) text)
  /\ cache_coherent (measure_loop text scale (def_w f0) w r).2
  /\ _fonts (measure_loop text scale (def_w f0) w r).2 = _fonts r.
Proof.
  induction text as [|ch text IH]; intros scale f0 fonts' w r Hc Hf.
  - cbn. split; [lia|auto].
  - cbn [measure_loop map foldr].
    destruct (get_glyph_spec ch r Hc) as (Hg & Hc' & Hf').
    destruct (_get_glyph ch r) as [g r'] eqn:E. cbn [fst snd] in *.
    destruct (IH scale f0 fonts'
                (match g with
                 | Some g0 => w + (g0.1.1.2 + 1) * scale
                 | None => w + def_w f0 * scale
                 end) r' Hc' ltac:(congruence)) as (H1 & H2 & H3).
    rewrite H1, Hf'. split; [|split; [exact H2|congruence]].
    unfold char_width at 2. rewrite advance_width_code, <- Hg, Hf.
    destruct g; lia.
Qed.

(** C8 (amended): with at least one font loaded and a coherent glyph
    cache, [measure_width] of a non-empty text is the sum over its
    characters of [(advance_width + 1) * scale] where a font of the
    stack has the glyph and [default_width * scale] of the primary font
    where none has, minus one [scale]; of the empty text it is 0.  The
    glyph is that of the first font, in stack order, whose index has
    the code point; its advance is the index width when that font is
    proportional and the font's maximal width when it is not. *)
Theorem C8_measure_width_nonempty r text scale :
  cache_coherent r -> _fonts r <> [] ->
  (text <> [] ->
   (measure_width text scale r).1 = spec_width (_fonts r) text scale)
  /\ (text = [] -> measure_width text scale r = (0, r))
  /\ cache_coherent (measure_width text scale r).2
  /\ _fonts (measure_width text scale r).2 = _fonts r.
Proof.
  intros Hc Hf. unfold measure_width, spec_width.
  destruct (_fonts r) as [|f0 fonts'] eqn:Hfonts; [congruence|].
  destruct text as [|ch text].
  - cbn. split; [congruence|]. split; [reflexivity|]. split; [exact Hc|exact Hfonts].
  - cbn [truthy negb].
    destruct (measure_loop_spec (ch :: text) scale f0 fonts' 0 r Hc Hfonts)
      as (H1 & H2 & H3).
    destruct (measure_loop (ch :: text) scale (def_w f0) 0 r) as [w r'].
    cbn [fst snd] in *. rewrite Hfonts in H1, H3.
    split; [intros _; rewrite H1; lia|]. split; [discriminate|auto].
Qed.

Lemma C8_counterexample :
  cache_coherent renderer_A /\ _fonts renderer_A <> []
  /\ (measure_width [] 1 renderer_A).1 <> spec_width (_fonts renderer_A) [] 1.
Proof.
  split; [apply Forall_nil_2|]. split; [discriminate|]. vm_compute. discriminate.
Qed.

Lemma C8_witness :
  (measure_width [65; 66; 63] 2 renderer_PF).1
  = (8 + 1) * 2 + (4 + 1) * 2 + 9 * 2 - 2.
Proof.
  destruct (C8_measure_width_nonempty renderer_PF [65; 66; 63] 2) as (H & _).
  - apply Forall_nil_2.
  - discriminate.
  - rewrite H by discriminate. vm_compute. reflexivity.
Defined.

End TextFacts.
